(** * The assistant chat session of the finance front end

    A shallow embedding of the [Assistant] page component (the WebSocket
    backed query session): its React state, its refs, the timers it sets and
    the handlers it registers, each as a function on an explicit [State].

    Conventions of the embedding.
    - React state setters are applied in program order; a functional update
      [setMessages(prev => f prev)] is [setMessages f].  Handlers read state
      ([inputValue], [connectionStatus]) from the latest render.
    - [setTimeout]/[clearTimeout] act on an explicit list of pending timers;
      a timer handle is a natural number and is always truthy.
    - [Date.now()] is the field [now]; time only moves through [advance].
    - [JSON.parse] is not re-implemented: the data of a message event is
      given already classified ([MessageEventData]), with the object fields
      typed as the [WebSocketMessage] interface declares them and
      [results_count] an integer that a number holds exactly.
    - A string is the list of the bytes of its UTF-8 encoding.
    - The socket is its ready state.  [new WebSocket(url)] throws on a URL
      with a fragment; [send] throws on a connecting socket and discards the
      data on a closing or closed one.  [WEBSOCKET_URL] is the address
      written in the source (a build can replace it with another [ws] or
      [wss] address through [VITE_WEBSOCKET_URL]).
    - [console] and [toast] calls are recorded in two logs.
    - One mounted component with a fixed user is modelled; the effect cleanup
      that ends it is the function [cleanup]. *)

From Stdlib Require Import List String Ascii ZArith Bool Lia DecimalString.
From Stdlib Require DecimalPos.
Import ListNotations.
Open Scope string_scope.
Open Scope list_scope.
Open Scope Z_scope.

(** ** JavaScript helpers *)

(** [x || d] on an optional string: absent and empty strings are falsy. *)
Definition orElse (x : option string) (d : string) : string :=
  match x with
  | Some s => if (s =? "")%string then d else s
  | None => d
  end.

(** [x || y] where the result is still optional. *)
Definition orOpt (x y : option string) : option string :=
  match x with
  | Some s => if (s =? "")%string then y else Some s
  | None => y
  end.

(** [String(n)] for an integer [n]: its decimal numeral.  This is what
    JavaScript prints for the integers a number holds exactly, those with
    [|n| <= 2^53]; beyond them [String] prints the shortest digits that read
    back to the same double, which the embedding does not follow. *)
Definition numToString (n : Z) : string := NilZero.string_of_int (Z.to_int n).

(** The white space of one byte that [String.prototype.trim] and [parseInt]
    skip: space, tab, line feed, vertical tab, form feed, carriage return. *)
Definition isWhiteSpace (c : ascii) : bool :=
  let n := nat_of_ascii c in
  ((n =? 32) || (n =? 9) || (n =? 10) || (n =? 11) || (n =? 12) || (n =? 13))%nat.

(** The other characters they skip (WhiteSpace and LineTerminator of
    ECMAScript), by their UTF-8 bytes: U+00A0, U+1680, U+2000 to U+200A,
    U+2028, U+2029, U+202F, U+205F, U+3000 and U+FEFF. *)
Definition wideWhiteSpace : list (list nat) :=
  [ [194; 160]; [225; 154; 128];
    [226; 128; 128]; [226; 128; 129]; [226; 128; 130]; [226; 128; 131];
    [226; 128; 132]; [226; 128; 133]; [226; 128; 134]; [226; 128; 135];
    [226; 128; 136]; [226; 128; 137]; [226; 128; 138];
    [226; 128; 168]; [226; 128; 169]; [226; 128; 175];
    [226; 129; 159]; [227; 128; 128]; [239; 187; 191] ]%nat.

(** The string behind the bytes [p], when it starts with them. *)
Fixpoint dropBytes (p : list nat) (s : string) : option string :=
  match p with
  | [] => Some s
  | b :: p' =>
      match s with
      | String c r => if (nat_of_ascii c =? b)%nat then dropBytes p' r else None
      | EmptyString => None
      end
  end.

Fixpoint firstMatch (ps : list (list nat)) (s : string) : option string :=
  match ps with
  | [] => None
  | p :: ps' =>
      match dropBytes p s with
      | Some r => Some r
      | None => firstMatch ps' s
      end
  end.

(** One white space character off the front, if there is one. *)
Definition dropWhiteSpace (wide : list (list nat)) (s : string) : option string :=
  match s with
  | String c r => if isWhiteSpace c then Some r else firstMatch wide s
  | EmptyString => None
  end.

Fixpoint trimFront (wide : list (list nat)) (fuel : nat) (s : string) : string :=
  match fuel with
  | O => s
  | S fuel' =>
      match dropWhiteSpace wide s with
      | Some r => trimFront wide fuel' r
      | None => s
      end
  end.

(** Every step removes a byte, so the length of the string is fuel enough. *)
Definition trimStart (s : string) : string :=
  trimFront wideWhiteSpace (String.length s) s.

Fixpoint revString (s acc : string) : string :=
  match s with
  | EmptyString => acc
  | String c r => revString r (String c acc)
  end.

(** The end is trimmed on the reversed string, against the reversed bytes. *)
Definition trimEnd (s : string) : string :=
  revString
    (trimFront (map (@rev nat) wideWhiteSpace) (String.length s) (revString s ""))
    "".

Definition trim (s : string) : string := trimEnd (trimStart s).

(** ** Data model *)

Inductive MessageType := user | assistant | status | intermediate.

Definition MessageType_eqb (a b : MessageType) : bool :=
  match a, b with
  | user, user | assistant, assistant
  | status, status | intermediate, intermediate => true
  | _, _ => false
  end.

Record Message := {
  id : string;
  type : MessageType;
  content : string;
  timestamp : Z;
  isProcessing : option bool   (* optional field [isProcessing?: boolean] *)
}.

(** Truthiness of [msg.isProcessing]. *)
Definition processing (m : Message) : bool :=
  match isProcessing m with Some b => b | None => false end.

Inductive ConnectionStatus := connecting | connected | disconnected | error.

Definition ConnectionStatus_eqb (a b : ConnectionStatus) : bool :=
  match a, b with
  | connecting, connecting | connected, connected
  | disconnected, disconnected | error, error => true
  | _, _ => false
  end.

(** The parsed inbound frame.  [ws_type] is [None] when the field is absent;
    [ws_extra] holds every field the interface does not name. *)
Record WebSocketMessage := {
  ws_type : option string;
  ws_message : option string;
  ws_answer : option string;
  ws_error : option string;
  ws_results_count : option Z;
  ws_data : option string;
  ws_extra : list (string * string)
}.

(** What [JSON.parse(event.data)] yields. *)
Inductive JsValue :=
| JNull
| JPrimitive            (* a number, a string or a boolean *)
| JArray
| JObject (m : WebSocketMessage).

Inductive MessageEventData :=
| ParseError                 (* [JSON.parse] throws *)
| Parsed (v : JsValue).

Inductive ReadyState := CONNECTING | OPEN | CLOSING | CLOSED.

Inductive Level := LLog | LWarn | LError.

Record LogEntry := { level : Level; text : string }.

Record Toast := {
  title : string;
  description : string;
  destructive : bool;
  duration : Z
}.

Record OutFrame := { out_query : string; out_user_id : string }.

Inductive Task := ReconnectTask | LoadingTimeoutTask | InitialStatusTask.

Definition Task_eqb (a b : Task) : bool :=
  match a, b with
  | ReconnectTask, ReconnectTask
  | LoadingTimeoutTask, LoadingTimeoutTask
  | InitialStatusTask, InitialStatusTask => true
  | _, _ => false
  end.

Record Timer := { tid : nat; due : Z; task : Task }.

Record State := {
  messages : list Message;
  inputValue : string;
  isLoading : bool;
  connectionStatus : ConnectionStatus;
  userEmail : option string;            (* [user?.email] *)
  websocketRef : option ReadyState;     (* the socket, by its ready state *)
  reconnectTimeoutRef : option nat;
  loadingTimeoutRef : option nat;
  reconnectAttempts : nat;
  timers : list Timer;                  (* pending timers *)
  nextTimerId : nat;
  now : Z;                              (* [Date.now()] *)
  toasts : list Toast;
  console : list LogEntry;
  sent : list OutFrame;
  replacedSockets : nat                 (* sockets that lost the handle while
                                           closing; each still owes its close event *)
}.

Definition maxReconnectAttempts : nat := 5.

(** ** State updates *)

Definition setMessages (f : list Message -> list Message) (s : State) : State :=
  Build_State (f (messages s)) (inputValue s) (isLoading s) (connectionStatus s)
    (userEmail s) (websocketRef s) (reconnectTimeoutRef s) (loadingTimeoutRef s)
    (reconnectAttempts s) (timers s) (nextTimerId s) (now s) (toasts s)
    (console s) (sent s) (replacedSockets s).

Definition setInputValue (v : string) (s : State) : State :=
  Build_State (messages s) v (isLoading s) (connectionStatus s)
    (userEmail s) (websocketRef s) (reconnectTimeoutRef s) (loadingTimeoutRef s)
    (reconnectAttempts s) (timers s) (nextTimerId s) (now s) (toasts s)
    (console s) (sent s) (replacedSockets s).

Definition setIsLoading (b : bool) (s : State) : State :=
  Build_State (messages s) (inputValue s) b (connectionStatus s)
    (userEmail s) (websocketRef s) (reconnectTimeoutRef s) (loadingTimeoutRef s)
    (reconnectAttempts s) (timers s) (nextTimerId s) (now s) (toasts s)
    (console s) (sent s) (replacedSockets s).

Definition setConnectionStatus (c : ConnectionStatus) (s : State) : State :=
  Build_State (messages s) (inputValue s) (isLoading s) c
    (userEmail s) (websocketRef s) (reconnectTimeoutRef s) (loadingTimeoutRef s)
    (reconnectAttempts s) (timers s) (nextTimerId s) (now s) (toasts s)
    (console s) (sent s) (replacedSockets s).

Definition setWebsocketRef (w : option ReadyState) (s : State) : State :=
  Build_State (messages s) (inputValue s) (isLoading s) (connectionStatus s)
    (userEmail s) w (reconnectTimeoutRef s) (loadingTimeoutRef s)
    (reconnectAttempts s) (timers s) (nextTimerId s) (now s) (toasts s)
    (console s) (sent s) (replacedSockets s).

Definition setReconnectTimeoutRef (r : option nat) (s : State) : State :=
  Build_State (messages s) (inputValue s) (isLoading s) (connectionStatus s)
    (userEmail s) (websocketRef s) r (loadingTimeoutRef s)
    (reconnectAttempts s) (timers s) (nextTimerId s) (now s) (toasts s)
    (console s) (sent s) (replacedSockets s).

Definition setLoadingTimeoutRef (r : option nat) (s : State) : State :=
  Build_State (messages s) (inputValue s) (isLoading s) (connectionStatus s)
    (userEmail s) (websocketRef s) (reconnectTimeoutRef s) r
    (reconnectAttempts s) (timers s) (nextTimerId s) (now s) (toasts s)
    (console s) (sent s) (replacedSockets s).

Definition setReconnectAttempts (n : nat) (s : State) : State :=
  Build_State (messages s) (inputValue s) (isLoading s) (connectionStatus s)
    (userEmail s) (websocketRef s) (reconnectTimeoutRef s) (loadingTimeoutRef s)
    n (timers s) (nextTimerId s) (now s) (toasts s)
    (console s) (sent s) (replacedSockets s).

Definition setTimers (l : list Timer) (s : State) : State :=
  Build_State (messages s) (inputValue s) (isLoading s) (connectionStatus s)
    (userEmail s) (websocketRef s) (reconnectTimeoutRef s) (loadingTimeoutRef s)
    (reconnectAttempts s) l (nextTimerId s) (now s) (toasts s)
    (console s) (sent s) (replacedSockets s).

Definition setNextTimerId (n : nat) (s : State) : State :=
  Build_State (messages s) (inputValue s) (isLoading s) (connectionStatus s)
    (userEmail s) (websocketRef s) (reconnectTimeoutRef s) (loadingTimeoutRef s)
    (reconnectAttempts s) (timers s) n (now s) (toasts s)
    (console s) (sent s) (replacedSockets s).

Definition setNow (t : Z) (s : State) : State :=
  Build_State (messages s) (inputValue s) (isLoading s) (connectionStatus s)
    (userEmail s) (websocketRef s) (reconnectTimeoutRef s) (loadingTimeoutRef s)
    (reconnectAttempts s) (timers s) (nextTimerId s) t (toasts s)
    (console s) (sent s) (replacedSockets s).

Definition toast (t : Toast) (s : State) : State :=
  Build_State (messages s) (inputValue s) (isLoading s) (connectionStatus s)
    (userEmail s) (websocketRef s) (reconnectTimeoutRef s) (loadingTimeoutRef s)
    (reconnectAttempts s) (timers s) (nextTimerId s) (now s) (toasts s ++ [t])
    (console s) (sent s) (replacedSockets s).

Definition consoleWrite (l : Level) (t : string) (s : State) : State :=
  Build_State (messages s) (inputValue s) (isLoading s) (connectionStatus s)
    (userEmail s) (websocketRef s) (reconnectTimeoutRef s) (loadingTimeoutRef s)
    (reconnectAttempts s) (timers s) (nextTimerId s) (now s) (toasts s)
    (console s ++ [{| level := l; text := t |}]) (sent s) (replacedSockets s).

Definition setReplacedSockets (n : nat) (s : State) : State :=
  Build_State (messages s) (inputValue s) (isLoading s) (connectionStatus s)
    (userEmail s) (websocketRef s) (reconnectTimeoutRef s) (loadingTimeoutRef s)
    (reconnectAttempts s) (timers s) (nextTimerId s) (now s) (toasts s)
    (console s) (sent s) n.

Definition wsSend (f : OutFrame) (s : State) : State :=
  Build_State (messages s) (inputValue s) (isLoading s) (connectionStatus s)
    (userEmail s) (websocketRef s) (reconnectTimeoutRef s) (loadingTimeoutRef s)
    (reconnectAttempts s) (timers s) (nextTimerId s) (now s) (toasts s)
    (console s) (sent s ++ [f]) (replacedSockets s).

(** ** Timers *)

(** [setTimeout(task, delay)]: the handle returned and the new state. *)
Definition setTimeout (k : Task) (delay : Z) (s : State) : nat * State :=
  let i := nextTimerId s in
  (i, setNextTimerId (S i)
        (setTimers (timers s ++ [{| tid := i; due := now s + delay; task := k |}]) s)).

Definition clearTimeout (i : nat) (s : State) : State :=
  setTimers (filter (fun t => negb (tid t =? i)%nat) (timers s)) s.

(** [if (ref.current) clearTimeout(ref.current)] *)
Definition clearIfSet (r : option nat) (s : State) : State :=
  match r with
  | Some i => clearTimeout i s
  | None => s
  end.

(** ** Authentication and identity *)

(** [user && user.email] *)
Definition isUserAuthenticated (s : State) : bool :=
  match userEmail s with
  | Some e => negb (e =? "")%string
  | None => false
  end.

(** [user?.email || 'user@example.com'] *)
Definition USER_ID (s : State) : string := orElse (userEmail s) "user@example.com".

(** ** Texts of the component *)

Definition greeting : string :=
  "Hi! I'm your financial assistant. You can ask me about your receipts, bills, spending patterns, or any financial questions. Try asking 'How much did I spend on food last month?' or 'Show me my biggest expenses'.".

Definition clearedGreeting : string :=
  "Hi! I'm your financial assistant. You can ask me about your receipts, bills, spending patterns, or any financial questions.".

Definition timedOutText : string :=
  "Request timed out. The server might be busy. Please try again.".

Definition suggestedQueries : list string :=
  [ "Show me all expenses"; "What did I spend on food?"; "Find all receipts";
    "What are my total expenses?"; "Show me expenses by category";
    "Find receipts over 100" ].

(** ** Connection management: [connectWebSocket] and the socket handlers *)

Definition WEBSOCKET_URL : string :=
  "wss://expense-query-websocket-api-593566622908.us-central1.run.app/ws".

(** [`${WEBSOCKET_URL}/${USER_ID}`] *)
Definition wsUrl (s : State) : string :=
  (WEBSOCKET_URL ++ "/" ++ USER_ID s)%string.

(** The URL has a fragment: a [#] occurs in it. *)
Fixpoint hasFragment (url : string) : bool :=
  match url with
  | EmptyString => false
  | String c r => (nat_of_ascii c =? 35)%nat || hasFragment r
  end.

(** [new WebSocket(url)] does not throw.  The constructor throws a
    SyntaxError when the URL does not parse, when its scheme is not one it
    takes and when it has a fragment.  [wsUrl] has the scheme and the host of
    [WEBSOCKET_URL], and any text parses as its path, so the fragment alone
    decides. *)
Definition webSocketAccepts (url : string) : bool := negb (hasFragment url).

Definition connectWebSocket (s : State) : State :=
  if negb (isUserAuthenticated s) then
    setConnectionStatus disconnected
      (consoleWrite LLog "User not authenticated, skipping WebSocket connection" s)
  else
    match websocketRef s with
    | Some OPEN | Some CONNECTING => s        (* already connected or connecting *)
    | old =>
        let s := setConnectionStatus connecting s in
        let s := consoleWrite LLog "Attempting WebSocket connection to:" s in
        let s := consoleWrite LLog "Using user email as ID:" s in
        if webSocketAccepts (wsUrl s) then
          (* [websocketRef.current = new WebSocket(wsUrl)]: a socket that was
             closing loses the handle and keeps its handlers *)
          let s :=
            match old with
            | Some CLOSING => setReplacedSockets (S (replacedSockets s)) s
            | _ => s
            end in
          setWebsocketRef (Some CONNECTING) s
        else
          (* the constructor throws; the catch block runs *)
          let s := setConnectionStatus error s in
          consoleWrite LError "Failed to create WebSocket connection:" s
    end.

Definition onopen (s : State) : State :=
  let s := setConnectionStatus connected s in
  let s := setReconnectAttempts 0%nat s in
  let s := consoleWrite LLog "WebSocket connected" s in
  toast {| title := "Connected";
           description := "WebSocket connection established successfully.";
           destructive := false; duration := 3000 |} s.

(** [Math.min(1000 * Math.pow(2, attempt), 30000)] *)
Definition reconnectDelay (attempt : nat) : Z :=
  Z.min (1000 * 2 ^ Z.of_nat attempt) 30000.

Definition onclose (code : Z) (s : State) : State :=
  let s := setConnectionStatus disconnected s in
  let s := setIsLoading false s in
  let s := consoleWrite LLog "WebSocket disconnected:" s in
  let s := setMessages (filter (fun msg => negb (processing msg))) s in
  let s :=
    if negb (code =? 1000) then
      toast {| title := "Connection Lost";
               description := "WebSocket connection was lost. Attempting to reconnect...";
               destructive := true; duration := 3000 |} s
    else s in
  if negb (code =? 1000) && (reconnectAttempts s <? maxReconnectAttempts)%nat then
    let delay := reconnectDelay (reconnectAttempts s) in
    let s := consoleWrite LLog
               ("Reconnecting in " ++ numToString delay ++ "ms (attempt "
                ++ numToString (Z.of_nat (reconnectAttempts s) + 1) ++ "/"
                ++ numToString (Z.of_nat maxReconnectAttempts) ++ ")")%string s in
    let (i, s) := setTimeout ReconnectTask delay s in
    setReconnectTimeoutRef (Some i) s
  else if (maxReconnectAttempts <=? reconnectAttempts s)%nat then
    toast {| title := "Connection Failed";
             description := "Could not reconnect to the server. Please refresh the page or try again later.";
             destructive := true; duration := 10000 |} s
  else s.

Definition onerror (s : State) : State :=
  let s := setConnectionStatus error s in
  let s := consoleWrite LError "WebSocket error:" s in
  toast {| title := "Connection Error";
           description := "Failed to connect to the assistant service. Retrying...";
           destructive := true; duration := 5000 |} s.

(** ** The message router: [handleWebSocketMessage] *)

(** The text of an intermediate turn. *)
Definition intermediateMessage (data : WebSocketMessage) : string :=
  match ws_results_count data with
  | Some n =>
      if n =? 0 then orElse (ws_message data) "Processing your request..."
      else ("Found " ++ numToString n ++ " matching receipts")%string
  | None => orElse (ws_message data) "Processing your request..."
  end.

Definition resultMessage (data : WebSocketMessage) : string :=
  orElse (orOpt (ws_answer data) (ws_message data)) "No response received".

Definition errorMessage (data : WebSocketMessage) : string :=
  orElse (orOpt (ws_error data) (ws_message data)) "An unknown error occurred".

Definition handleWebSocketMessage (v : JsValue) (s : State) : State :=
  let s := consoleWrite LLog "Received WebSocket message:" s in
  match v with
  | JObject data =>
      match ws_type data with
      | None => consoleWrite LError "Invalid WebSocket message format:" s
      | Some ty =>
          if (ty =? "")%string then
            consoleWrite LError "Invalid WebSocket message format:" s
          else
            let messageId := numToString (now s) in
            if (ty =? "connection")%string then
              consoleWrite LLog "WebSocket connection confirmed by server" s
            else if (ty =? "status")%string then
              setMessages (fun prev => prev ++
                [{| id := messageId; type := status;
                    content := orElse (ws_message data) "Processing...";
                    timestamp := now s; isProcessing := Some true |}]) s
            else if (ty =? "intermediate")%string then
              setMessages (fun prev =>
                let filtered :=
                  filter (fun msg => negb (MessageType_eqb (type msg) intermediate)) prev in
                filtered ++
                [{| id := messageId; type := intermediate;
                    content := intermediateMessage data;
                    timestamp := now s; isProcessing := Some true |}]) s
            else if (ty =? "result")%string then
              let s := setMessages (fun prev =>
                let filtered := filter (fun msg => negb (processing msg)) prev in
                filtered ++
                [{| id := messageId; type := assistant;
                    content := resultMessage data;
                    timestamp := now s; isProcessing := None |}]) s in
              let s := setIsLoading false s in
              clearIfSet (loadingTimeoutRef s) s
            else if (ty =? "error")%string then
              let s := setMessages (fun prev =>
                let filtered := filter (fun msg => negb (processing msg)) prev in
                filtered ++
                [{| id := messageId; type := assistant;
                    content := ("Sorry, I encountered an error: " ++ errorMessage data
                                ++ ". Please try again.")%string;
                    timestamp := now s; isProcessing := None |}]) s in
              let s := setIsLoading false s in
              let s := clearIfSet (loadingTimeoutRef s) s in
              toast {| title := "Query Error"; description := errorMessage data;
                       destructive := true; duration := 5000 |} s
            else
              consoleWrite LWarn "Unknown WebSocket message type:" s
      end
  | _ => consoleWrite LError "Invalid WebSocket message format:" s
  end.

(** The socket's [onmessage]: parse, route, and catch what the parse throws. *)
Definition onmessage (d : MessageEventData) (s : State) : State :=
  match d with
  | Parsed v => handleWebSocketMessage v s
  | ParseError =>
      let s := consoleWrite LError "Error parsing WebSocket message:" s in
      let s := consoleWrite LLog "Raw message data:" s in
      toast {| title := "Message Error";
               description := "Received malformed response from server.";
               destructive := true; duration := 3000 |} s
  end.

(** ** Query submission: [handleSendMessage] and its timers *)

(** The callback given to [setTimeout(..., 30000)]. *)
Definition loadingTimeoutFired (s : State) : State :=
  let s := setIsLoading false s in
  let s := setMessages (fun prev =>
    let filtered := filter (fun msg => negb (processing msg)) prev in
    filtered ++
    [{| id := numToString (now s); type := assistant; content := timedOutText;
        timestamp := now s; isProcessing := None |}]) s in
  toast {| title := "Request Timeout";
           description := "The server is taking too long to respond. Please try again.";
           destructive := true; duration := 5000 |} s.

(** The callback given to [setTimeout(..., 100)]. *)
Definition initialStatusFired (s : State) : State :=
  setMessages (fun prev => prev ++
    [{| id := numToString (now s + 1); type := status;
        content := "Processing your query..."; timestamp := now s;
        isProcessing := Some true |}]) s.

(** The callback of the reconnect timer. *)
Definition reconnectFired (s : State) : State :=
  connectWebSocket (setReconnectAttempts (S (reconnectAttempts s)) s).

Definition handleSendMessage (s : State) : State :=
  if (trim (inputValue s) =? "")%string
     || negb (ConnectionStatus_eqb (connectionStatus s) connected)
     || negb (isUserAuthenticated s)
  then s
  else
    let userMessage :=
      {| id := numToString (now s); type := user; content := inputValue s;
         timestamp := now s; isProcessing := None |} in
    let query := inputValue s in
    let s := setMessages (fun prev => prev ++ [userMessage]) s in
    let s := setInputValue "" s in
    let s := setIsLoading true s in
    let s := clearIfSet (loadingTimeoutRef s) s in
    let (i, s) := setTimeout LoadingTimeoutTask 30000 s in
    let s := setLoadingTimeoutRef (Some i) s in
    let s := consoleWrite LLog "Sending WebSocket message:" s in
    let s := consoleWrite LLog "User ID (email) included in query:" s in
    match websocketRef s with
    | Some CONNECTING =>
        (* [send] throws InvalidStateError; the catch block runs *)
        let s := consoleWrite LError "Error sending message:" s in
        let s := setIsLoading false s in
        let s := clearIfSet (loadingTimeoutRef s) s in
        toast {| title := "Send Error";
                 description := "Failed to send message. Please check your connection.";
                 destructive := true; duration := 5000 |} s
    | w =>
        let s :=
          match w with
          | Some OPEN => wsSend {| out_query := query; out_user_id := USER_ID s |} s
          | _ => s      (* no socket, or a closing/closed one: nothing is sent *)
          end in
        snd (setTimeout InitialStatusTask 100 s)
    end.

Definition handleSuggestedQuery (query : string) (s : State) : State :=
  setInputValue query s.

Definition handleKeyPress (key : string) (shiftKey : bool) (s : State) : State :=
  if (key =? "Enter")%string && negb shiftKey then handleSendMessage s else s.

Definition clearChat (s : State) : State :=
  setMessages (fun _ =>
    [{| id := "1"; type := assistant; content := clearedGreeting;
        timestamp := now s; isProcessing := None |}]) s.

(** ** What the rendered controls allow *)

(** [disabled] of the text input. *)
Definition inputDisabled (s : State) : bool :=
  isLoading s
  || negb (ConnectionStatus_eqb (connectionStatus s) connected)
  || negb (isUserAuthenticated s).

(** [disabled] of the send button. *)
Definition sendDisabled (s : State) : bool :=
  (trim (inputValue s) =? "")%string
  || isLoading s
  || negb (ConnectionStatus_eqb (connectionStatus s) connected)
  || negb (isUserAuthenticated s).

(** The card with the suggestions and the clear button is rendered. *)
Definition suggestionsShown (s : State) : bool :=
  (List.length (messages s) =? 1)%nat.

(** The reconnect button is rendered. *)
Definition reconnectShown (s : State) : bool :=
  isUserAuthenticated s
  && (ConnectionStatus_eqb (connectionStatus s) disconnected
      || ConnectionStatus_eqb (connectionStatus s) error).

Definition clickSend (s : State) : State :=
  if sendDisabled s then s else handleSendMessage s.

Definition pressKey (key : string) (shiftKey : bool) (s : State) : State :=
  if inputDisabled s then s else handleKeyPress key shiftKey s.

Definition typeInput (v : string) (s : State) : State :=
  if inputDisabled s then s else setInputValue v s.

Definition clickSuggestion (n : nat) (s : State) : State :=
  if suggestionsShown s then
    match nth_error suggestedQueries n with
    | Some q => handleSuggestedQuery q s
    | None => s
    end
  else s.

Definition clickClearChat (s : State) : State :=
  if suggestionsShown s then clearChat s else s.

Definition clickReconnect (s : State) : State :=
  if reconnectShown s then connectWebSocket (setReconnectAttempts 0%nat s) else s.

(** ** Mounting and unmounting: the [useEffect] body and its cleanup *)

Definition initialState (email : option string) (t0 : Z) : State :=
  {| messages := [{| id := "1"; type := assistant; content := greeting;
                     timestamp := t0; isProcessing := None |}];
     inputValue := "";
     isLoading := false;
     connectionStatus := disconnected;
     userEmail := email;
     websocketRef := None;
     reconnectTimeoutRef := None;
     loadingTimeoutRef := None;
     reconnectAttempts := 0%nat;
     timers := [];
     nextTimerId := 1%nat;
     now := t0;
     toasts := [];
     console := [];
     sent := [];
     replacedSockets := 0%nat |}.

Definition effect (s : State) : State :=
  if isUserAuthenticated s then connectWebSocket s
  else setConnectionStatus disconnected (setWebsocketRef None s).

Definition mount (email : option string) (t0 : Z) : State :=
  effect (initialState email t0).

Definition cleanup (s : State) : State :=
  let s := clearIfSet (reconnectTimeoutRef s) s in
  let s := clearIfSet (loadingTimeoutRef s) s in
  setWebsocketRef None s.

(** ** The event loop *)

Definition runTask (k : Task) (s : State) : State :=
  match k with
  | ReconnectTask => reconnectFired s
  | LoadingTimeoutTask => loadingTimeoutFired s
  | InitialStatusTask => initialStatusFired s
  end.

Definition pending (i : nat) (s : State) : bool :=
  existsb (fun x => (tid x =? i)%nat) (timers s).

(** A pending timer fires once: it leaves the pending list, then its
    callback runs. *)
Definition fireTimer (t : Timer) (s : State) : State :=
  if pending (tid t) s then
    runTask (task t) (setNow (Z.max (now s) (due t)) (clearTimeout (tid t) s))
  else s.

Fixpoint insertTimer (t : Timer) (l : list Timer) : list Timer :=
  match l with
  | [] => [t]
  | x :: r => if due t <=? due x then t :: x :: r else x :: insertTimer t r
  end.

Definition sortByDue (l : list Timer) : list Timer := fold_right insertTimer [] l.

Definition dueTimers (t : Z) (s : State) : list Timer :=
  sortByDue (filter (fun x => due x <=? t) (timers s)).

(** Time passes: every timer that comes due fires, earliest first. *)
Definition advance (dt : Z) (s : State) : State :=
  let t := now s + Z.max 0 dt in
  setNow t (fold_left (fun s x => fireTimer x s) (dueTimers t s) s).

Inductive Event :=
| EvOpen
| EvMessage (d : MessageEventData)
| EvClose (code : Z)
| EvError
| EvType (v : string)
| EvKey (key : string) (shiftKey : bool)
| EvClickSend
| EvSuggestion (n : nat)
| EvClearChat
| EvReconnect
| EvAdvance (dt : Z)
| EvClosing                      (* the closing handshake of the socket starts *)
| EvReplacedError                (* events of a socket that was replaced *)
| EvReplacedClose (code : Z).    (* while it was closing *)

(** One event of the browser.  Socket events are delivered only in the ready
    states in which a WebSocket raises them.  Between the start of the
    closing handshake and the close event the socket is CLOSING and no
    handler has run yet.  A socket that [connectWebSocket] replaced while it
    was closing still raises its error and close events, at the handlers it
    was given. *)
Definition step (e : Event) (s : State) : State :=
  match e with
  | EvOpen =>
      match websocketRef s with
      | Some CONNECTING => onopen (setWebsocketRef (Some OPEN) s)
      | _ => s
      end
  | EvMessage d =>
      match websocketRef s with
      | Some OPEN => onmessage d s
      | _ => s
      end
  | EvClose code =>
      match websocketRef s with
      | None | Some CLOSED => s
      | Some _ => onclose code (setWebsocketRef (Some CLOSED) s)
      end
  | EvError =>
      match websocketRef s with
      | None | Some CLOSED => s
      | Some _ => onerror s
      end
  | EvType v => typeInput v s
  | EvKey key shiftKey => pressKey key shiftKey s
  | EvClickSend => clickSend s
  | EvSuggestion n => clickSuggestion n s
  | EvClearChat => clickClearChat s
  | EvReconnect => clickReconnect s
  | EvAdvance dt => advance dt s
  | EvClosing =>
      match websocketRef s with
      | Some OPEN => setWebsocketRef (Some CLOSING) s
      | _ => s
      end
  | EvReplacedError =>
      match replacedSockets s with
      | O => s
      | S _ => onerror s
      end
  | EvReplacedClose code =>
      match replacedSockets s with
      | O => s
      | S n => onclose code (setReplacedSockets n s)
      end
  end.

Definition run (evs : list Event) (s : State) : State :=
  fold_left (fun s e => step e s) evs s.

(** ** Frames and predicates used in the statements *)

Definition frame (ty : string) : WebSocketMessage :=
  {| ws_type := Some ty; ws_message := None; ws_answer := None; ws_error := None;
     ws_results_count := None; ws_data := None; ws_extra := [] |}.

Definition hasType (ty : string) (data : WebSocketMessage) : Prop :=
  ws_type data = Some ty.

(** A result or an error frame. *)
Definition isTerminalFrame (data : WebSocketMessage) : bool :=
  match ws_type data with
  | Some ty => ((ty =? "result") || (ty =? "error"))%string
  | None => false
  end.

(** A frame kind the router acts on. *)
Definition recognizedType (ty : string) : bool :=
  ((ty =? "connection") || (ty =? "status") || (ty =? "intermediate")
   || (ty =? "result") || (ty =? "error"))%string.

(** Status and Intermediate are the provisional roles. *)
Definition provisional (m : Message) : bool :=
  match type m with
  | status | intermediate => true
  | user | assistant => false
  end.

Definition countType (ty : MessageType) (l : list Message) : nat :=
  List.length (filter (fun m => MessageType_eqb (type m) ty) l).

(** The flag [isProcessing] is set exactly on the provisional roles. *)
Definition historyOk (l : list Message) : bool :=
  forallb (fun m => Bool.eqb (processing m) (provisional m)) l.

Definition isTimedOutTurn (m : Message) : bool :=
  MessageType_eqb (type m) assistant && (content m =? timedOutText)%string.

Definition timedOutTurns (l : list Message) : nat :=
  List.length (filter isTimedOutTurn l).

Definition loadingTimers (s : State) : list Timer :=
  filter (fun t => Task_eqb (task t) LoadingTimeoutTask) (timers s).

Definition reconnectTimers (s : State) : list Timer :=
  filter (fun t => Task_eqb (task t) ReconnectTask) (timers s).

(** * Vocabulary of the statements *)

(** Reduction of the state projections through the setters, and nothing else. *)
Ltac st_simpl :=
  cbn [messages inputValue isLoading connectionStatus userEmail websocketRef
       reconnectTimeoutRef loadingTimeoutRef reconnectAttempts timers
       nextTimerId now toasts console sent replacedSockets
       setMessages setInputValue setIsLoading setConnectionStatus
       setWebsocketRef setReconnectTimeoutRef setLoadingTimeoutRef
       setReconnectAttempts setTimers setNextTimerId setNow toast consoleWrite
       setReplacedSockets wsSend setTimeout clearTimeout clearIfSet fst snd negb andb orb] in *.

Definition lostToast : Toast :=
  {| title := "Connection Lost";
     description := "WebSocket connection was lost. Attempting to reconnect...";
     destructive := true; duration := 3000 |}.

Definition failedToast : Toast :=
  {| title := "Connection Failed";
     description := "Could not reconnect to the server. Please refresh the page or try again later.";
     destructive := true; duration := 10000 |}.

Definition statusTurn (data : WebSocketMessage) (s : State) : Message :=
  {| id := numToString (now s); type := status;
     content := orElse (ws_message data) "Processing...";
     timestamp := now s; isProcessing := Some true |}.

Definition intermediateTurn (data : WebSocketMessage) (s : State) : Message :=
  {| id := numToString (now s); type := intermediate;
     content := intermediateMessage data;
     timestamp := now s; isProcessing := Some true |}.

Definition resultTurn (data : WebSocketMessage) (s : State) : Message :=
  {| id := numToString (now s); type := assistant;
     content := resultMessage data;
     timestamp := now s; isProcessing := None |}.

Definition errorTurn (data : WebSocketMessage) (s : State) : Message :=
  {| id := numToString (now s); type := assistant;
     content := ("Sorry, I encountered an error: " ++ errorMessage data
                 ++ ". Please try again.")%string;
     timestamp := now s; isProcessing := None |}.

Definition notIntermediate (m : Message) : bool :=
  negb (MessageType_eqb (type m) intermediate).

Definition notProcessing (m : Message) : bool := negb (processing m).

(** The text as the specification words it: the count when [results_count]
    is present, else the message, else the string "Processing...". *)
Definition specIntermediateText (data : WebSocketMessage) : string :=
  match ws_results_count data with
  | Some n => ("Found " ++ numToString n ++ " matching receipts")%string
  | None => orElse (ws_message data) "Processing..."
  end.

(** The same frame with other values in the fields the router never reads. *)
Definition withUnknownFields (d : option string) (extra : list (string * string))
    (data : WebSocketMessage) : WebSocketMessage :=
  {| ws_type := ws_type data; ws_message := ws_message data;
     ws_answer := ws_answer data; ws_error := ws_error data;
     ws_results_count := ws_results_count data;
     ws_data := d; ws_extra := extra |}.

Definition zeroCountFrame : WebSocketMessage :=
  {| ws_type := Some "intermediate"; ws_message := Some "Searching";
     ws_answer := None; ws_error := None; ws_results_count := Some 0;
     ws_data := None; ws_extra := [] |}.

Definition countFrame : WebSocketMessage :=
  {| ws_type := Some "intermediate"; ws_message := Some "Searching";
     ws_answer := None; ws_error := None; ws_results_count := Some 12;
     ws_data := None; ws_extra := [("trace_id", "abc")] |}.

(** The event data the router drops: unparseable text, a parsed value that
    is not an object, an object without a truthy [type], and an object whose
    [type] is none of the five kinds. *)
Definition dropped (d : MessageEventData) : bool :=
  match d with
  | ParseError => true
  | Parsed (JObject data) =>
      match ws_type data with
      | Some ty => negb (recognizedType ty)
      | None => true
      end
  | Parsed _ => true
  end.

(** The history starts with a greeting: an Assistant turn that is not a
    timeout notice. *)
Definition headOk (l : list Message) : bool :=
  match l with
  | m :: _ => MessageType_eqb (type m) assistant && negb (processing m)
              && negb (isTimedOutTurn m)
  | [] => false
  end.

Definition isLoadingTimer (t : Timer) : bool := Task_eqb (task t) LoadingTimeoutTask.

Definition otherThan (i : nat) (t : Timer) : bool := negb (tid t =? i)%nat.

(** The discipline of the timer list: every pending timeout timer is the one
    [loadingTimeoutRef] names, handles are fresh, and no handle is pending
    twice. *)
Definition TimersOk (tms : list Timer) (ref : option nat) (nid : nat) : Prop :=
  (forall t, In t tms -> isLoadingTimer t = true -> ref = Some (tid t))
  /\ (forall t, In t tms -> (tid t < nid)%nat)
  /\ NoDup (map tid tms).

(** The timer-independent part of the invariant and the in-flight link. *)
Record WInv (s : State) : Prop := {
  inv_history : historyOk (messages s) = true;
  inv_head : headOk (messages s) = true;
  inv_timers : TimersOk (timers s) (loadingTimeoutRef s) (nextTimerId s);
  inv_inflight : isLoading s = true -> loadingTimers s <> []
}.

(** Every pending timer is due in the future. *)
Definition Due (s : State) : Prop :=
  forall t, In t (timers s) -> now s < due t.

Definition Inv (s : State) : Prop := WInv s /\ Due s.

Ltac inv_simpl := unfold Due, loadingTimers in *; st_simpl.

(** Handlers that leave the history, the timers and the clock alone. *)
Definition sameCore (s s' : State) : Prop :=
  messages s' = messages s /\ timers s' = timers s
  /\ loadingTimeoutRef s' = loadingTimeoutRef s
  /\ nextTimerId s' = nextTimerId s
  /\ isLoading s' = isLoading s /\ now s' = now s.

Definition fireAll (l : list Timer) (s : State) : State :=
  fold_left (fun s x => fireTimer x s) l s.

Definition sampleTrace : list Event :=
  [EvOpen; EvType "Show me all expenses"; EvClickSend; EvAdvance 150;
   EvMessage (Parsed (JObject (frame "status")));
   EvMessage (Parsed (JObject (frame "intermediate")))].

Definition resultFrame : WebSocketMessage :=
  {| ws_type := Some "result"; ws_message := None;
     ws_answer := Some "You spent 500"; ws_error := None;
     ws_results_count := None; ws_data := None; ws_extra := [] |}.

(** The timer is still pending and no timeout turn was added. *)
Definition Waiting (tm : Timer) (c : nat) (s : State) : Prop :=
  In tm (timers s) /\ timedOutTurns (messages s) = c.

(** No timeout timer is pending and the history holds [n] timeout turns. *)
Definition Settled (d : Z) (n : nat) (s : State) : Prop :=
  loadingTimers s = [] /\ timedOutTurns (messages s) = n
  /\ isLoading s = false /\ d <= now s.

Definition Tracked (tm : Timer) (c : nat) (s : State) : Prop :=
  Waiting tm c s \/ Settled (due tm) (S c) s.

Definition isSubmit (e : Event) : bool :=
  match e with
  | EvClickSend => true
  | EvKey key shiftKey => (key =? "Enter")%string && negb shiftKey
  | _ => false
  end.

Definition isTerminalEvent (e : Event) : bool :=
  match e with
  | EvMessage (Parsed (JObject data)) => isTerminalFrame data
  | _ => false
  end.

(** An event that neither submits a query nor delivers a terminal frame. *)
Definition quiet (e : Event) : bool := negb (isSubmit e) && negb (isTerminalEvent e).

(** What a quiet event other than the passing of time may do: keep the
    number of timeout turns, keep the timers or add one that is not a query
    timeout, keep the loading flag or clear it, keep the clock. *)
Definition calm (s s' : State) : Prop :=
  timedOutTurns (messages s') = timedOutTurns (messages s)
  /\ (timers s' = timers s
      \/ exists t, timers s' = timers s ++ [t] /\ isLoadingTimer t = false)
  /\ (isLoading s' = isLoading s \/ isLoading s' = false)
  /\ now s' = now s.

Definition userTurn (s : State) : Message :=
  {| id := numToString (now s); type := user; content := inputValue s;
     timestamp := now s; isProcessing := None |}.

(** The timer [handleSendMessage] sets for the query it sends. *)
Definition queryTimer (s : State) : Timer :=
  {| tid := nextTimerId s; due := now s + 30000; task := LoadingTimeoutTask |}.

(** The guard of [handleSendMessage] lets the call through. *)
Definition canSend (s : State) : bool :=
  negb ((trim (inputValue s) =? "")%string
        || negb (ConnectionStatus_eqb (connectionStatus s) connected)
        || negb (isUserAuthenticated s)).

(** [send] does not throw: the socket is not in the connecting state. *)
Definition sendSucceeds (s : State) : bool :=
  match websocketRef s with
  | Some CONNECTING => false
  | _ => true
  end.

Definition readyTrace : list Event := [EvOpen; EvType "Show me all expenses"].

Definition waitingTrace : list Event :=
  [EvAdvance 100; EvMessage (Parsed (JObject (frame "status")));
   EvAdvance 20000; EvClose 1006; EvAdvance 5000; EvAdvance 5000; EvAdvance 60000].

(** The socket opens, a query is typed, and the closing handshake starts. *)
Definition closingTrace : list Event :=
  [EvOpen; EvType "Show me all expenses"; EvClosing].

Definition inFlightTrace : list Event :=
  [EvOpen; EvType "Show me all expenses"; EvClickSend; EvAdvance 150].

Definition afterCloseTrace : list Event :=
  [EvAdvance 1000; EvOpen; EvAdvance 40000].

(** The turns that are neither Status nor Intermediate, in order. *)
Definition nonProvisional (l : list Message) : list Message :=
  filter (fun m => negb (provisional m)) l.

(** How one event may change the history: some turns are filtered out, but
    never a User or Assistant turn, and turns with text are appended. *)
Definition Evolves (l l' : list Message) : Prop :=
  exists p app,
    l' = filter p l ++ app
    /\ (forall m, In m l -> provisional m = false -> p m = true)
    /\ (forall m, In m app -> content m <> "").

Definition isClearChat (e : Event) : bool :=
  match e with
  | EvClearChat => true
  | _ => false
  end.

(** The first turn is one of the two greetings, under the id "1". *)
Definition isGreetingTurn (m : Message) : Prop :=
  id m = "1" /\ type m = assistant
  /\ (content m = greeting \/ content m = clearedGreeting).

Definition greetingOnTop (l : list Message) : Prop :=
  exists m rest, l = m :: rest /\ isGreetingTurn m.

(** While a query is in flight the input is empty and the history holds at
    least two turns that are neither Status nor Intermediate. *)
Definition Gate (s : State) : Prop :=
  isLoading s = true ->
  inputValue s = "" /\ (2 <= List.length (nonProvisional (messages s)))%nat.

(** A session without an authenticated user: no socket, nothing sent, no
    timer, no query, one turn. *)
Definition Inert (s : State) : Prop :=
  isUserAuthenticated s = false /\ websocketRef s = None /\ sent s = []
  /\ timers s = [] /\ isLoading s = false
  /\ connectionStatus s = disconnected
  /\ List.length (messages s) = 1%nat
  /\ replacedSockets s = 0%nat.

(** The socket has opened and its close event has not been delivered. *)
Definition socketUp (s : State) : bool :=
  match websocketRef s with
  | Some OPEN | Some CLOSING => true
  | _ => false
  end.

(** The link between the session and its socket for the user [e]: the
    identity is fixed, the status "connected" is shown only over a socket
    that is open or closing, and every frame sent carries [e]. *)
Definition Link (e : string) (s : State) : Prop :=
  userEmail s = Some e
  /\ (connectionStatus s = connected -> socketUp s = true)
  /\ (forall f, In f (sent s) -> out_user_id f = e).

(** Case analysis on every [match] and [if] of a handler. *)
Ltac break_handler :=
  st_simpl;
  repeat (match goal with
          | |- context [clearIfSet ?r _] => destruct r eqn:?
          | |- context [match ?x with _ => _ end] => destruct x eqn:?
          end; st_simpl).

(** One failed connection: the socket closes with [code], then the time the
    policy asks for passes. *)
Definition failureCycle (code : Z) (s : State) : State :=
  advance (reconnectDelay (reconnectAttempts s)) (step (EvClose code) s).

Fixpoint failures (k : nat) (code : Z) (s : State) : State :=
  match k with
  | O => s
  | S k' => failures k' code (failureCycle code s)
  end.

(** The socket exists and has not closed. *)
Definition socketLive (s : State) : bool :=
  match websocketRef s with
  | Some OPEN | Some CONNECTING => true
  | _ => false
  end.

(** Every pending query timeout is due within 30000 ms. *)
Definition LoadDue (s : State) : Prop :=
  forall t, In t (timers s) -> isLoadingTimer t = true -> due t <= now s + 30000.

Fixpoint allWhiteSpace (s : string) : bool :=
  match s with
  | EmptyString => true
  | String c r => isWhiteSpace c && allWhiteSpace r
  end.

(** Every character is in the ASCII range. *)
Fixpoint isAsciiText (s : string) : bool :=
  match s with
  | EmptyString => true
  | String c r => (nat_of_ascii c <? 128)%nat && isAsciiText r
  end.

(** Some byte is an ASCII character other than white space. *)
Fixpoint hasPlain (s : string) : bool :=
  match s with
  | EmptyString => false
  | String c r =>
      ((nat_of_ascii c <? 128)%nat && negb (isWhiteSpace c)) || hasPlain r
  end.

Definition allText (l : list Message) : Prop := forall m, In m l -> content m <> "".

Definition emptyResultFrame : WebSocketMessage :=
  {| ws_type := Some "result"; ws_message := Some ""; ws_answer := Some "";
     ws_error := None; ws_results_count := None; ws_data := None; ws_extra := [] |}.

Definition firstRetry (s : State) : Timer :=
  {| tid := nextTimerId s; due := now s + 1000; task := ReconnectTask |}.

Fixpoint delaySum (attempt k : nat) : Z :=
  match k with
  | O => 0
  | S k' => reconnectDelay attempt + delaySum (S attempt) k'
  end.

Definition blankInputState : State :=
  setInputValue "   " (run [EvOpen] (mount (Some "u@example.com") 0)).

(** * The data service behind the page: a read-through cache over [localStorage]

    [getUserSummary], which the page calls for its statistics, and its
    siblings share one scheme: answer from [localStorage] while the entry is
    younger than five minutes, else ask the API, store the answer with a
    time stamp, and fall back to the stored entry or to an empty value when
    the request fails.

    Conventions.  [localStorage] is an association list.  The outcome of the
    request is an input ([FetchResult]); [JSON.parse] and [JSON.stringify]
    are parameters of the functions that use them.  [Date.now()] is passed
    in: once for the staleness test, once for the time stamp.  Storage is
    unbounded ([setItem] does not throw). *)

Module DataService.

#[local] Unset Elimination Schemes.

Inductive Json :=
| JNull
| JBool (b : bool)
| JNum (n : Z)
| JStr (s : string)
| JArr (l : list Json)
| JObj (fields : list (string * Json)).

#[local] Set Elimination Schemes.

(** Truthiness of a parsed value. *)
Definition truthy (j : Json) : bool :=
  match j with
  | JNull => false
  | JBool b => b
  | JNum n => negb (n =? 0)
  | JStr s => negb (s =? "")%string
  | JArr _ | JObj _ => true
  end.

Definition Storage := list (string * string).

Fixpoint getItem (key : string) (st : Storage) : option string :=
  match st with
  | [] => None
  | (k, v) :: r => if (k =? key)%string then Some v else getItem key r
  end.

Fixpoint setItem (key value : string) (st : Storage) : Storage :=
  match st with
  | [] => [(key, value)]
  | (k, v) :: r =>
      if (k =? key)%string then (key, value) :: r else (k, v) :: setItem key value r
  end.

Definition removeItem (key : string) (st : Storage) : Storage :=
  filter (fun kv => negb (fst kv =? key)%string) st.

(** The browser around the service. *)
Record Env := {
  storage : Storage;
  log : list LogEntry;
  updates : nat;        (* 'localStorageUpdated' events dispatched *)
  requests : nat        (* calls of [fetch] *)
}.

Definition setStorage (st : Storage) (e : Env) : Env :=
  {| storage := st; log := log e; updates := updates e; requests := requests e |}.

Definition logWrite (l : Level) (t : string) (e : Env) : Env :=
  {| storage := storage e; log := log e ++ [{| level := l; text := t |}];
     updates := updates e; requests := requests e |}.

Definition dispatchUpdate (e : Env) : Env :=
  {| storage := storage e; log := log e; updates := S (updates e);
     requests := requests e |}.

Definition countRequest (e : Env) : Env :=
  {| storage := storage e; log := log e; updates := updates e;
     requests := S (requests e) |}.

(** ** [parseInt] *)

Definition digitValue (c : ascii) : option Z :=
  let n := nat_of_ascii c in
  if ((48 <=? n) && (n <=? 57))%nat then Some (Z.of_nat (n - 48))
  else if ((97 <=? n) && (n <=? 102))%nat then Some (Z.of_nat (n - 87))
  else if ((65 <=? n) && (n <=? 70))%nat then Some (Z.of_nat (n - 55))
  else None.

(** The longest prefix of digits of the radix, as a number; [None] (NaN)
    when there is no digit. *)
Fixpoint parseDigits (radix : Z) (s : string) (acc : Z) (seen : bool) : option Z :=
  match s with
  | EmptyString => if seen then Some acc else None
  | String c r =>
      match digitValue c with
      | Some d =>
          if d <? radix then parseDigits radix r (acc * radix + d) true
          else if seen then Some acc else None
      | None => if seen then Some acc else None
      end
  end.

Definition isX (c : ascii) : bool :=
  let n := nat_of_ascii c in ((n =? 120) || (n =? 88))%nat.

(** [parseInt(s)] without a radix: white space (the characters [trim]
    strips), a sign, an optional [0x] prefix, then digits.  The value is the
    exact integer, as in JavaScript up to [2^53]. *)
Definition parseInt (s : string) : option Z :=
  let s := trimStart s in
  let (sign, s) :=
    match s with
    | String c r =>
        if (nat_of_ascii c =? 45)%nat then (-1, r)
        else if (nat_of_ascii c =? 43)%nat then (1, r)
        else (1, s)
    | EmptyString => (1, s)
    end in
  let magnitude :=
    match s with
    | String z (String x r) =>
        if (nat_of_ascii z =? 48)%nat && isX x then parseDigits 16 r 0 false
        else parseDigits 10 s 0 false
    | _ => parseDigits 10 s 0 false
    end in
  match magnitude with
  | Some n => Some (sign * n)
  | None => None
  end.

(** ** The cache *)

Definition CACHE_DURATION : Z := 5 * 60 * 1000.

Definition timestampKey (key : string) : string := (key ++ "_timestamp")%string.

Definition isDataStale (key : string) (t : Z) (e : Env) : bool :=
  match getItem (timestampKey key) (storage e) with
  | None => true
  | Some lastFetch =>
      if (lastFetch =? "")%string then true
      else
        match parseInt lastFetch with
        | Some n => CACHE_DURATION <? t - n
        | None => false          (* NaN > CACHE_DURATION *)
        end
  end.

Section Json.

Variable parse : string -> option Json.      (* [None]: [JSON.parse] throws *)
Variable stringify : Json -> string.

Definition setDataWithTimestamp (key : string) (data : Json) (t : Z) (e : Env) : Env :=
  let e := setStorage (setItem key (stringify data) (storage e)) e in
  let e := setStorage (setItem (timestampKey key) (numToString t) (storage e)) e in
  dispatchUpdate e.

Definition getDataFromStorage (key : string) (e : Env) : option Json * Env :=
  match getItem key (storage e) with
  | None => (None, e)
  | Some data =>
      if (data =? "")%string then (None, e)
      else
        match parse data with
        | Some j => (Some j, e)
        | None =>
            (None, logWrite LError
                     ("Error parsing data from storage for key " ++ key ++ ":") e)
        end
  end.

(** What [fetchWithAuth] and [response.json()] deliver. *)
Inductive FetchResult :=
| FetchOk (data : Json)
| FetchFailed.        (* the request, the status check or the body parse throws *)

(** The texts and the empty value that tell the five getters apart.
    [receiptText] is the log line of [getUserData] that reads
    [data.receipts?.[0]] from the answer. *)
Record Getter := {
  cachedText : string;
  fetchingText : string;
  rawTexts : list string;
  receiptText : option string;
  fetchedText : string;
  errorText : string;
  fallbackText : string;
  emptyValue : Json
}.

(** Reading the answer throws: [data.receipts] is evaluated and [data] is
    [null] (a property of any other value can be read). *)
Definition readThrows (g : Getter) (data : Json) : bool :=
  match receiptText g, data with
  | Some _, JNull => true
  | _, _ => false
  end.

(** The catch block the getters share: the stored value if there is a truthy
    one, else the empty value. *)
Definition caught (g : Getter) (cacheKey : string) (e : Env) : Json * Env :=
  let e := logWrite LError (errorText g) e in
  let (cachedData, e) := getDataFromStorage cacheKey e in
  match cachedData with
  | Some j =>
      if truthy j then (j, logWrite LLog (fallbackText g) e)
      else (emptyValue g, e)
  | None => (emptyValue g, e)
  end.

(** The try block: ask the API, log the answer, store it.  Whatever is thrown
    on the way ends in the catch block. *)
Definition fetched (g : Getter) (cacheKey : string) (tStore : Z)
    (r : FetchResult) (e : Env) : Json * Env :=
  let e := logWrite LLog (fetchingText g) e in
  let e := countRequest e in
  match r with
  | FetchOk data =>
      let e := fold_left (fun e t => logWrite LLog t e) (rawTexts g) e in
      if readThrows g data then caught g cacheKey e
      else
        let e :=
          match receiptText g with
          | Some t => logWrite LLog t e
          | None => e
          end in
        let e := setDataWithTimestamp cacheKey data tStore e in
        (data, logWrite LLog (fetchedText g) e)
  | FetchFailed => caught g cacheKey e
  end.

(** The body the getters share. *)
Definition cachedFetch (g : Getter) (cacheKey : string) (forceRefresh : bool)
    (tCheck tStore : Z) (r : FetchResult) (e : Env) : Json * Env :=
  if negb forceRefresh && negb (isDataStale cacheKey tCheck e) then
    let (cachedData, e) := getDataFromStorage cacheKey e in
    match cachedData with
    | Some j =>
        if truthy j then (j, logWrite LLog (cachedText g) e)
        else fetched g cacheKey tStore r e
    | None => fetched g cacheKey tStore r e
    end
  else fetched g cacheKey tStore r e.

Definition STORAGE_KEYS : list string :=
  [ "raseed_user_data"; "raseed_user_analytics"; "raseed_user_summary";
    "raseed_wallet_passes"; "raseed_categories"; "raseed_last_fetch" ].

Definition userKey (key userId : string) : string := (key ++ "_" ++ userId)%string.

Definition userDataGetter : Getter :=
  {| cachedText := "Returning cached user data";
     fetchingText := "Fetching user data from API for user:";
     rawTexts := ["Raw API response:"];
     receiptText := Some "First receipt structure:";
     fetchedText := "User data fetched and cached:";
     errorText := "Error fetching user data:";
     fallbackText := "API failed, returning cached data";
     emptyValue := JObj [("receipts", JArr []); ("total_receipts", JNum 0);
                         ("total_amount", JNum 0); ("categories", JArr [])] |}.

Definition analyticsGetter : Getter :=
  {| cachedText := "Returning cached analytics data";
     fetchingText := "Fetching user analytics from API for user:";
     rawTexts := [];
     receiptText := None;
     fetchedText := "User analytics fetched and cached:";
     errorText := "Error fetching user analytics:";
     fallbackText := "API failed, returning cached analytics";
     emptyValue := JObj [("total_receipts", JNum 0); ("total_spent", JNum 0);
                         ("average_spending", JNum 0);
                         ("categories_breakdown", JArr []);
                         ("monthly_trends", JArr []); ("top_vendors", JArr [])] |}.

Definition summaryGetter : Getter :=
  {| cachedText := "Returning cached summary data";
     fetchingText := "Fetching user summary from API for user:";
     rawTexts := [];
     receiptText := None;
     fetchedText := "User summary fetched and cached:";
     errorText := "Error fetching user summary:";
     fallbackText := "API failed, returning cached summary";
     emptyValue := JObj [("total_receipts", JNum 0); ("total_spent", JNum 0);
                         ("categories_count", JNum 0);
                         ("average_per_receipt", JNum 0);
                         ("last_receipt_date", JStr "")] |}.

Definition walletPassesGetter : Getter :=
  {| cachedText := "Returning cached wallet passes";
     fetchingText := "Fetching user wallet passes from API for user:";
     rawTexts := [];
     receiptText := None;
     fetchedText := "Wallet passes fetched and cached:";
     errorText := "Error fetching wallet passes:";
     fallbackText := "API failed, returning cached wallet passes";
     emptyValue := JArr [] |}.

Definition categoriesGetter : Getter :=
  {| cachedText := "Returning cached categories";
     fetchingText := "Fetching categories from API";
     rawTexts := [];
     receiptText := None;
     fetchedText := "Categories fetched and cached:";
     errorText := "Error fetching categories:";
     fallbackText := "API failed, returning cached categories";
     emptyValue := JArr (map JStr
       [ "Electronics"; "Food & Dining"; "Transportation"; "Shopping";
         "Entertainment"; "Bills & Utilities"; "Healthcare"; "Education";
         "Travel"; "Groceries"; "Other" ]) |}.

Definition getUserData (userId : string) :=
  cachedFetch userDataGetter (userKey "raseed_user_data" userId).

Definition getUserAnalytics (userId : string) :=
  cachedFetch analyticsGetter (userKey "raseed_user_analytics" userId).

Definition getUserSummary (userId : string) :=
  cachedFetch summaryGetter (userKey "raseed_user_summary" userId).

Definition getUserWalletPasses (userId : string) :=
  cachedFetch walletPassesGetter (userKey "raseed_wallet_passes" userId).

Definition getCategories := cachedFetch categoriesGetter "raseed_categories".

End Json.

(** [clearUserCache]: for every storage key, the user's entry and its time
    stamp are removed. *)
Definition clearUserCache (userId : string) (e : Env) : Env :=
  let st :=
    fold_left (fun st key =>
                 let userSpecificKey := userKey key userId in
                 removeItem (timestampKey userSpecificKey)
                   (removeItem userSpecificKey st))
              STORAGE_KEYS (storage e) in
  logWrite LLog "User cache cleared for:" (setStorage st e).

End DataService.

(** The cached value a getter can use: present, parseable and truthy. *)
Definition usable (parse : string -> option DataService.Json) (key : string)
    (e : DataService.Env) : option DataService.Json :=
  match DataService.getItem key (DataService.storage e) with
  | Some data =>
      if (data =? "")%string then None
      else match parse data with
           | Some j => if DataService.truthy j then Some j else None
           | None => None
           end
  | None => None
  end.

(** A getter has to ask the API: the call is forced or the entry is stale. *)
Definition mustFetch (key : string) (forceRefresh : bool) (t : Z)
    (e : DataService.Env) : bool :=
  forceRefresh || DataService.isDataStale key t e.

(** What reaches the code behind the request: the answer, unless the request
    fails or reading the answer throws. *)
Definition delivered (g : DataService.Getter) (r : DataService.FetchResult)
    : option DataService.Json :=
  match r with
  | DataService.FetchOk data =>
      if DataService.readThrows g data then None else Some data
  | DataService.FetchFailed => None
  end.

(** A codec for the examples: strings stand for themselves. *)
Definition plainStringify (j : DataService.Json) : string :=
  match j with
  | DataService.JStr s => s
  | _ => "null"
  end.

Definition plainParse (s : string) : option DataService.Json :=
  Some (DataService.JStr s).

Definition emptyEnv : DataService.Env :=
  {| DataService.storage := []; DataService.log := [];
     DataService.updates := 0; DataService.requests := 0 |}.

(** The keys [clearUserCache] removes for a user. *)
Definition clearedKey (userId k : string) : bool :=
  existsb (fun key =>
             (DataService.userKey key userId =? k)%string
             || (DataService.timestampKey (DataService.userKey key userId) =? k)%string)
          DataService.STORAGE_KEYS.

Definition brokenStampEnv : DataService.Env :=
  {| DataService.storage := [("k", "summary"); ("k_timestamp", "yesterday")];
     DataService.log := []; DataService.updates := 0; DataService.requests := 0 |}.

Definition twoUsersEnv : DataService.Env :=
  {| DataService.storage :=
       [("raseed_user_summary_a@x.y", "A"); ("raseed_user_summary_a@x.y_timestamp", "5");
        ("raseed_user_summary_b@x.y", "B"); ("raseed_categories", "C")];
     DataService.log := []; DataService.updates := 0; DataService.requests := 0 |}.

Definition isCloseEvent (e : Event) : bool :=
  match e with
  | EvClose _ | EvReplacedClose _ => true
  | _ => false
  end.

(** The back-off is at rest: the attempt counter is 0 and no reconnect
    timer is pending. *)
Definition Rested (s : State) : Prop :=
  reconnectAttempts s = 0%nat /\ reconnectTimers s = [].

(** What a handler may do to the back-off: keep the counter or reset it, and
    leave no reconnect timer pending that was not pending before. *)
Definition keepsBackoff (s s' : State) : Prop :=
  (reconnectAttempts s' = reconnectAttempts s \/ reconnectAttempts s' = 0%nat)
  /\ (forall t, In t (timers s') -> task t = ReconnectTask -> In t (timers s)).

(** A close, a manual reconnect and an open while the retry timer of the
    close is still pending; then that timer comes due. *)
Definition staleRetryTrace : list Event :=
  [EvOpen; EvClose 1006; EvReconnect; EvOpen; EvAdvance 1000].

(** A signed-in session whose URL the constructor rejects: no socket, nothing
    sent, no timer, no query, and the status "error". *)
Definition Refused (s : State) : Prop :=
  isUserAuthenticated s = true /\ webSocketAccepts (wsUrl s) = false
  /\ websocketRef s = None /\ replacedSockets s = 0%nat
  /\ sent s = [] /\ timers s = [] /\ isLoading s = false
  /\ connectionStatus s = error.

(** The string of the bytes [p]. *)
Definition bytes (p : list nat) : string :=
  fold_right (fun n s => String (ascii_of_nat n) s) "" p.

(** One white space character: a byte of white space or one of the wider
    characters. *)
Definition isWhiteChar (c : string) : bool :=
  match c with
  | String a EmptyString => isWhiteSpace a
  | _ => false
  end
  || existsb (fun p => (c =? bytes p)%string) wideWhiteSpace.

(** A state whose input is a no-break space, an ideographic space and a tab. *)
Definition wideBlankState : State :=
  setInputValue (String.concat "" [bytes [194; 160]%nat; bytes [227; 128; 128]%nat;
                                   bytes [9]%nat])
    (run [EvOpen] (mount (Some "u@example.com") 0)).

(** * Properties *)

(** ** The reconnection policy *)

Lemma reconnectDelay_pos : forall a, 0 < reconnectDelay a.
Proof.
  intro a. unfold reconnectDelay.
  assert (0 < 2 ^ Z.of_nat a) by (apply Z.pow_pos_nonneg; lia).
  lia.
Qed.

(** An abnormal close below the attempt ceiling sets one reconnect timer. *)
Lemma onclose_schedules : forall code s,
  code <> 1000 -> (reconnectAttempts s < maxReconnectAttempts)%nat ->
  timers (onclose code s) =
    timers s ++ [{| tid := nextTimerId s;
                    due := now s + reconnectDelay (reconnectAttempts s);
                    task := ReconnectTask |}]
  /\ reconnectTimeoutRef (onclose code s) = Some (nextTimerId s)
  /\ toasts (onclose code s) = toasts s ++ [lostToast].
Proof.
  intros code s Hc Ha. unfold onclose.
  apply Z.eqb_neq in Hc. apply Nat.ltb_lt in Ha.
  st_simpl. rewrite Hc. st_simpl. rewrite Ha. st_simpl. auto.
Qed.

(** At the attempt ceiling nothing is scheduled and the failure is shown. *)
Lemma onclose_exhausted : forall code s,
  (maxReconnectAttempts <= reconnectAttempts s)%nat ->
  timers (onclose code s) = timers s
  /\ reconnectTimeoutRef (onclose code s) = reconnectTimeoutRef s
  /\ exists shown, toasts (onclose code s) = shown ++ [failedToast].
Proof.
  intros code s Ha. unfold onclose.
  assert (Hlt : (reconnectAttempts s <? maxReconnectAttempts)%nat = false)
    by (apply Nat.ltb_ge; exact Ha).
  apply Nat.leb_le in Ha.
  st_simpl. destruct (code =? 1000); st_simpl; try rewrite Hlt; st_simpl;
    rewrite Ha; st_simpl.
  - repeat split; auto. exists (toasts s). reflexivity.
  - repeat split; auto. exists (toasts s ++ [lostToast]). reflexivity.
Qed.

(** A normal closure never touches the timers. *)
Lemma onclose_normal : forall s,
  timers (onclose 1000 s) = timers s
  /\ nextTimerId (onclose 1000 s) = nextTimerId s
  /\ reconnectTimeoutRef (onclose 1000 s) = reconnectTimeoutRef s.
Proof.
  intro s. unfold onclose. rewrite Z.eqb_refl. st_simpl.
  destruct (maxReconnectAttempts <=? reconnectAttempts s)%nat; st_simpl; auto.
Qed.

(** C3: the retry delay is [min(1000 * 2^attempt, 30000)], that is 1000,
    2000, 4000, 8000, 16000, 30000, 30000 for attempts 0 to 6; the close
    handler uses it for the timer it sets while fewer than five attempts
    were made, and from five attempts on it sets no timer and shows the
    "Connection Failed" notification. *)
Theorem reconnect_backoff_policy :
  (forall attempt, reconnectDelay attempt = Z.min (1000 * 2 ^ Z.of_nat attempt) 30000)
  /\ map reconnectDelay [0; 1; 2; 3; 4; 5; 6]%nat
     = [1000; 2000; 4000; 8000; 16000; 30000; 30000]
  /\ (forall code s, code <> 1000 -> (reconnectAttempts s < 5)%nat ->
        timers (onclose code s) =
          timers s ++ [{| tid := nextTimerId s;
                          due := now s + reconnectDelay (reconnectAttempts s);
                          task := ReconnectTask |}])
  /\ (forall code s, (5 <= reconnectAttempts s)%nat ->
        timers (onclose code s) = timers s
        /\ exists shown, toasts (onclose code s) = shown ++ [failedToast]).
Proof.
  split; [reflexivity|]. split; [reflexivity|]. split.
  - intros code s Hc Ha. apply (onclose_schedules code s Hc Ha).
  - intros code s Ha. destruct (onclose_exhausted code s Ha) as (Ht & _ & Hf).
    split; assumption.
Qed.

(** C6: a close with code 1000 leaves the pending timers and the reconnect
    handle as they were, whatever the attempt counter; a close with any
    other code runs the policy: a reconnect timer below five attempts, the
    failure notification and no timer from five on. *)
Theorem normal_close_never_reconnects :
  (forall s, timers (onclose 1000 s) = timers s
             /\ reconnectTimers (onclose 1000 s) = reconnectTimers s
             /\ reconnectTimeoutRef (onclose 1000 s) = reconnectTimeoutRef s)
  /\ (forall code s, code <> 1000 ->
        if (reconnectAttempts s <? maxReconnectAttempts)%nat then
          reconnectTimers (onclose code s) =
            reconnectTimers s ++
              [{| tid := nextTimerId s;
                  due := now s + reconnectDelay (reconnectAttempts s);
                  task := ReconnectTask |}]
        else
          reconnectTimers (onclose code s) = reconnectTimers s
          /\ exists shown, toasts (onclose code s) = shown ++ [failedToast]).
Proof.
  split.
  - intro s. destruct (onclose_normal s) as (Ht & _ & Hr).
    unfold reconnectTimers. rewrite Ht. auto.
  - intros code s Hc.
    destruct (reconnectAttempts s <? maxReconnectAttempts)%nat eqn:Ha.
    + apply Nat.ltb_lt in Ha.
      destruct (onclose_schedules code s Hc Ha) as (Ht & _).
      unfold reconnectTimers. rewrite Ht, filter_app. reflexivity.
    + apply Nat.ltb_ge in Ha.
      destruct (onclose_exhausted code s Ha) as (Ht & _ & Hf).
      unfold reconnectTimers. rewrite Ht. auto.
Qed.

Lemma reconnect_backoff_policy_witness :
  timers (onclose 1006 (mount (Some "u@example.com") 0)) =
    [{| tid := 1%nat; due := 1000; task := ReconnectTask |}].
Proof.
  destruct reconnect_backoff_policy as (_ & _ & H & _).
  rewrite (H 1006 (mount (Some "u@example.com") 0)).
  - reflexivity.
  - lia.
  - simpl. lia.
Defined.

Lemma normal_close_never_reconnects_witness :
  reconnectTimers (onclose 1006 (mount (Some "u@example.com") 0)) =
    [{| tid := 1%nat; due := 1000; task := ReconnectTask |}].
Proof.
  destruct normal_close_never_reconnects as (_ & H).
  assert (Hc : 1006 <> 1000) by lia.
  specialize (H 1006 (mount (Some "u@example.com") 0) Hc).
  simpl in H. exact H.
Defined.

(** ** The router, case by case *)

Lemma route_status : forall data s,
  hasType "status" data ->
  messages (handleWebSocketMessage (JObject data) s) = messages s ++ [statusTurn data s]
  /\ isLoading (handleWebSocketMessage (JObject data) s) = isLoading s
  /\ timers (handleWebSocketMessage (JObject data) s) = timers s.
Proof.
  intros data s H. unfold handleWebSocketMessage, hasType in *. rewrite H.
  cbn [String.eqb Ascii.eqb Bool.eqb]. st_simpl. auto.
Qed.

Lemma route_intermediate : forall data s,
  hasType "intermediate" data ->
  messages (handleWebSocketMessage (JObject data) s)
    = filter notIntermediate (messages s) ++ [intermediateTurn data s]
  /\ isLoading (handleWebSocketMessage (JObject data) s) = isLoading s
  /\ timers (handleWebSocketMessage (JObject data) s) = timers s.
Proof.
  intros data s H. unfold handleWebSocketMessage, hasType in *. rewrite H.
  cbn [String.eqb Ascii.eqb Bool.eqb]. st_simpl. auto.
Qed.

Lemma route_result : forall data s,
  hasType "result" data ->
  messages (handleWebSocketMessage (JObject data) s)
    = filter notProcessing (messages s) ++ [resultTurn data s]
  /\ isLoading (handleWebSocketMessage (JObject data) s) = false
  /\ timers (handleWebSocketMessage (JObject data) s)
     = timers (clearIfSet (loadingTimeoutRef s) s).
Proof.
  intros data s H. unfold handleWebSocketMessage, hasType in *. rewrite H.
  cbn [String.eqb Ascii.eqb Bool.eqb]. st_simpl.
  destruct (loadingTimeoutRef s); st_simpl; auto.
Qed.

Lemma route_error : forall data s,
  hasType "error" data ->
  messages (handleWebSocketMessage (JObject data) s)
    = filter notProcessing (messages s) ++ [errorTurn data s]
  /\ isLoading (handleWebSocketMessage (JObject data) s) = false
  /\ timers (handleWebSocketMessage (JObject data) s)
     = timers (clearIfSet (loadingTimeoutRef s) s).
Proof.
  intros data s H. unfold handleWebSocketMessage, hasType in *. rewrite H.
  cbn [String.eqb Ascii.eqb Bool.eqb]. st_simpl.
  destruct (loadingTimeoutRef s); st_simpl; auto.
Qed.

(** ** Counting turns of one role *)

Lemma countType_app : forall ty l1 l2,
  countType ty (l1 ++ l2) = (countType ty l1 + countType ty l2)%nat.
Proof.
  intros. unfold countType. rewrite filter_app, length_app. reflexivity.
Qed.

Lemma countType_filtered_out : forall l,
  countType intermediate (filter notIntermediate l) = 0%nat.
Proof.
  induction l as [|m l IH]; [reflexivity|].
  unfold countType in *. cbn [filter]. unfold notIntermediate at 1.
  destruct (MessageType_eqb (type m) intermediate) eqn:E; cbn [negb].
  - exact IH.
  - cbn [filter]. rewrite E. exact IH.
Qed.

Lemma filter_notIntermediate_twice : forall l m,
  type m = intermediate ->
  filter notIntermediate (filter notIntermediate l ++ [m]) = filter notIntermediate l.
Proof.
  intros l m Hm. rewrite filter_app.
  assert (H : filter notIntermediate [m] = []).
  { cbn [filter]. unfold notIntermediate. rewrite Hm. reflexivity. }
  rewrite H, app_nil_r.
  induction l as [|x l IH]; [reflexivity|].
  cbn [filter]. destruct (notIntermediate x) eqn:E; [|exact IH].
  cbn [filter]. rewrite E. f_equal. exact IH.
Qed.

(** C4: after two consecutive intermediate frames the history holds exactly
    one Intermediate turn, the second frame's, behind every turn of another
    role that was there before; a status frame appends one Status turn and
    keeps every earlier turn. *)
Theorem intermediate_replaces_status_accumulates :
  forall (s : State) (f1 f2 g : WebSocketMessage),
    hasType "intermediate" f1 -> hasType "intermediate" f2 -> hasType "status" g ->
    let s2 := onmessage (Parsed (JObject f2)) (onmessage (Parsed (JObject f1)) s) in
    let s' := onmessage (Parsed (JObject g)) s in
    countType intermediate (messages s2) = 1%nat
    /\ messages s2 = filter notIntermediate (messages s)
                     ++ [intermediateTurn f2 (onmessage (Parsed (JObject f1)) s)]
    /\ messages s' = messages s ++ [statusTurn g s]
    /\ countType status (messages s') = S (countType status (messages s)).
Proof.
  intros s f1 f2 g H1 H2 Hg s2 s'. subst s2 s'. unfold onmessage.
  destruct (route_intermediate f1 s H1) as (M1 & _).
  destruct (route_intermediate f2 (handleWebSocketMessage (JObject f1) s) H2)
    as (M2 & _).
  destruct (route_status g s Hg) as (Mg & _).
  rewrite M2, M1, Mg.
  rewrite (filter_notIntermediate_twice (messages s) (intermediateTurn f1 s)
             eq_refl).
  repeat split.
  - rewrite countType_app, countType_filtered_out. reflexivity.
  - rewrite countType_app. cbn. lia.
Qed.

Lemma intermediate_replaces_status_accumulates_witness :
  countType intermediate
    (messages (onmessage (Parsed (JObject (frame "intermediate")))
                 (onmessage (Parsed (JObject (frame "intermediate")))
                    (mount (Some "u@example.com") 0)))) = 1%nat.
Proof.
  exact (proj1 (intermediate_replaces_status_accumulates
                  (mount (Some "u@example.com") 0)
                  (frame "intermediate") (frame "intermediate") (frame "status")
                  eq_refl eq_refl eq_refl)).
Defined.

(** ** The text of an intermediate turn *)

(** C7, as stated, fails: an intermediate frame with neither count nor
    message yields "Processing your request...", not "Processing...", and a
    frame whose [results_count] is 0 yields its message, not a count. *)
Lemma intermediate_text_counterexample :
  map content
    (messages (onmessage (Parsed (JObject (frame "intermediate")))
                 (mount (Some "u@example.com") 0)))
    = [greeting; "Processing your request..."]
  /\ intermediateMessage (frame "intermediate")
     <> specIntermediateText (frame "intermediate")
  /\ map content
       (messages (onmessage (Parsed (JObject zeroCountFrame))
                    (mount (Some "u@example.com") 0)))
     = [greeting; "Searching"]
  /\ intermediateMessage zeroCountFrame <> specIntermediateText zeroCountFrame.
Proof.
  split; [reflexivity|]. split; [intro H; vm_compute in H; discriminate|].
  split; [reflexivity|]. intro H; vm_compute in H; discriminate.
Qed.

Lemma handle_ignores_unknown_fields : forall d extra data s,
  handleWebSocketMessage (JObject (withUnknownFields d extra data)) s
  = handleWebSocketMessage (JObject data) s.
Proof. reflexivity. Qed.

(** C7 (amended): an intermediate frame appends one Intermediate turn whose
    text does not depend on the fields the router does not read; with a
    [results_count] other than 0 the text is "Found N matching receipts";
    without [results_count] it is the frame's message when that is a
    non-empty string and "Processing your request..." otherwise. *)
Theorem intermediate_text :
  forall (s : State) (data : WebSocketMessage),
    hasType "intermediate" data ->
    messages (onmessage (Parsed (JObject data)) s)
      = filter notIntermediate (messages s) ++ [intermediateTurn data s]
    /\ (forall d extra,
          onmessage (Parsed (JObject (withUnknownFields d extra data))) s
          = onmessage (Parsed (JObject data)) s)
    /\ (forall n, ws_results_count data = Some n -> n <> 0 ->
          content (intermediateTurn data s)
          = ("Found " ++ numToString n ++ " matching receipts")%string)
    /\ (ws_results_count data = None ->
          content (intermediateTurn data s)
          = orElse (ws_message data) "Processing your request...").
Proof.
  intros s data H. split; [|split; [|split]].
  - apply (route_intermediate data s H).
  - intros d extra. apply handle_ignores_unknown_fields.
  - intros n Hn Hz. cbn [intermediateTurn content]. unfold intermediateMessage.
    rewrite Hn. apply Z.eqb_neq in Hz. rewrite Hz. reflexivity.
  - intros Hn. cbn [intermediateTurn content]. unfold intermediateMessage.
    rewrite Hn. reflexivity.
Qed.

Lemma intermediate_text_witness :
  content (intermediateTurn countFrame (mount (Some "u@example.com") 0))
  = "Found 12 matching receipts".
Proof.
  assert (Hz : 12 <> 0) by lia.
  exact (proj1 (proj2 (proj2 (intermediate_text (mount (Some "u@example.com") 0)
                                countFrame eq_refl))) 12 eq_refl Hz).
Defined.

(** ** Dropped frames *)

(** C8: a dropped frame leaves the history, the loading flag, the pending
    timers and the timeout handle as they were and adds at least one console
    entry; [onmessage] is a total function, so it returns on every input. *)
Theorem malformed_frames_dropped :
  forall (s : State) (d : MessageEventData),
    dropped d = true ->
    messages (onmessage d s) = messages s
    /\ isLoading (onmessage d s) = isLoading s
    /\ timers (onmessage d s) = timers s
    /\ loadingTimeoutRef (onmessage d s) = loadingTimeoutRef s
    /\ exists e entries, console (onmessage d s) = console s ++ e :: entries.
Proof.
  intros s d H. destruct d as [|v]; [|destruct v as [| | |data]].
  - cbn. repeat split; try reflexivity. eexists; eexists.
    rewrite <- app_assoc. reflexivity.
  - cbn. repeat split; try reflexivity. eexists; eexists.
    rewrite <- app_assoc. reflexivity.
  - cbn. repeat split; try reflexivity. eexists; eexists.
    rewrite <- app_assoc. reflexivity.
  - cbn. repeat split; try reflexivity. eexists; eexists.
    rewrite <- app_assoc. reflexivity.
  - cbn [dropped] in H. unfold onmessage, handleWebSocketMessage.
    destruct (ws_type data) as [ty|].
    + unfold recognizedType in H. apply negb_true_iff in H.
      repeat (apply orb_false_iff in H; destruct H as [H ?]).
      destruct (ty =? "")%string.
      * st_simpl. repeat split; try reflexivity. eexists; eexists.
        rewrite <- app_assoc. reflexivity.
      * repeat match goal with
               | E : (ty =? _)%string = false |- _ => rewrite E; clear E
               end.
        st_simpl. repeat split; try reflexivity. eexists; eexists.
        rewrite <- app_assoc. reflexivity.
    + st_simpl. repeat split; try reflexivity. eexists; eexists.
      rewrite <- app_assoc. reflexivity.
Qed.

Lemma malformed_frames_dropped_witness :
  messages (onmessage (Parsed (JObject (frame "progress")))
              (mount (Some "u@example.com") 0))
  = messages (mount (Some "u@example.com") 0).
Proof.
  exact (proj1 (malformed_frames_dropped (mount (Some "u@example.com") 0)
                  (Parsed (JObject (frame "progress"))) eq_refl)).
Defined.

(** ** Invariants of the session *)

Lemma historyOk_app : forall l m,
  historyOk (l ++ [m]) = historyOk l && Bool.eqb (processing m) (provisional m).
Proof.
  intros. unfold historyOk. rewrite forallb_app. cbn [forallb].
  rewrite andb_true_r. reflexivity.
Qed.

Lemma historyOk_filter : forall p l,
  historyOk l = true -> historyOk (filter p l) = true.
Proof.
  intros p l H. unfold historyOk in *. rewrite forallb_forall in *.
  intros x Hx. apply filter_In in Hx. apply H. tauto.
Qed.

Lemma headOk_app : forall l l', headOk l = true -> headOk (l ++ l') = true.
Proof. intros [|m l] l' H; [discriminate|exact H]. Qed.

Lemma headOk_notProcessing : forall l,
  headOk l = true -> headOk (filter notProcessing l) = true.
Proof.
  intros [|m l] H; [discriminate|]. cbn [filter]. cbn [headOk] in H.
  apply andb_true_iff in H. destruct H as [H1 H3].
  apply andb_true_iff in H1. destruct H1 as [H1 H2].
  unfold notProcessing at 1. rewrite H2. cbn [headOk]. rewrite H1, H2, H3.
  reflexivity.
Qed.

Lemma headOk_notIntermediate : forall l,
  headOk l = true -> headOk (filter notIntermediate l) = true.
Proof.
  intros [|m l] H; [discriminate|]. cbn [filter]. pose proof H as H'.
  cbn [headOk] in H. apply andb_true_iff in H. destruct H as [H1 H3].
  apply andb_true_iff in H1. destruct H1 as [H1 H2].
  unfold notIntermediate at 1.
  destruct (type m); try discriminate. cbn. exact H'.
Qed.

Lemma NoDup_map_filter : forall (p : Timer -> bool) l,
  NoDup (map tid l) -> NoDup (map tid (filter p l)).
Proof.
  intros p l. induction l as [|x l IH]; intros H; [constructor|].
  cbn [map] in H. inversion H as [|? ? Hn Hd]; subst.
  cbn [filter]. destruct (p x); [|auto].
  cbn [map]. constructor; [|auto].
  intro Hin. apply Hn. apply in_map_iff in Hin. destruct Hin as (y & Hy & Hin).
  apply filter_In in Hin. apply in_map_iff. exists y. tauto.
Qed.

Lemma TimersOk_filter : forall p tms ref nid,
  TimersOk tms ref nid -> TimersOk (filter p tms) ref nid.
Proof.
  intros p tms ref nid (H1 & H2 & H3). repeat split.
  - intros t Ht. apply filter_In in Ht. apply H1. tauto.
  - intros t Ht. apply filter_In in Ht. apply H2. tauto.
  - apply NoDup_map_filter. exact H3.
Qed.

Lemma NoDup_map_snoc : forall l t,
  NoDup (map tid l) -> (forall x, In x l -> (tid x < tid t)%nat) ->
  NoDup (map tid (l ++ [t])).
Proof.
  induction l as [|x l IH]; intros t Hd Hlt.
  - cbn. constructor; [tauto|constructor].
  - cbn [map app] in *. inversion Hd as [|? ? Hn Hd']; subst. constructor.
    + intro Hin. rewrite map_app in Hin. apply in_app_or in Hin.
      destruct Hin as [Hin|Hin]; [tauto|].
      cbn in Hin. destruct Hin as [Hin|[]].
      specialize (Hlt x (or_introl eq_refl)). lia.
    + apply IH; [exact Hd'|]. intros y Hy. apply Hlt. right. exact Hy.
Qed.

Lemma TimersOk_add_other : forall tms ref nid d k,
  TimersOk tms ref nid -> k <> LoadingTimeoutTask ->
  TimersOk (tms ++ [{| tid := nid; due := d; task := k |}]) ref (S nid).
Proof.
  intros tms ref nid d k (H1 & H2 & H3) Hk. repeat split.
  - intros t Ht Hl. apply in_app_or in Ht. destruct Ht as [Ht|[Ht|[]]].
    + apply H1; assumption.
    + subst t. unfold isLoadingTimer in Hl. cbn in Hl.
      destruct k; try discriminate. congruence.
  - intros t Ht. apply in_app_or in Ht. destruct Ht as [Ht|[Ht|[]]].
    + specialize (H2 t Ht). lia.
    + subst t. cbn. lia.
  - apply NoDup_map_snoc; [exact H3|]. intros x Hx. cbn. apply H2. exact Hx.
Qed.

(** What [handleSendMessage] does to the timers: the timer named by the old
    handle goes, a new timeout timer comes, and the handle names it. *)
Lemma TimersOk_replace_loading : forall tms ref nid d,
  TimersOk tms ref nid ->
  TimersOk (match ref with
            | Some old => filter (otherThan old) tms
            | None => tms
            end ++ [{| tid := nid; due := d; task := LoadingTimeoutTask |}])
           (Some nid) (S nid).
Proof.
  intros tms ref nid d (H1 & H2 & H3).
  assert (Hnl : forall t,
            In t (match ref with
                  | Some old => filter (otherThan old) tms
                  | None => tms
                  end) -> In t tms /\ isLoadingTimer t = false).
  { intros t Ht. destruct ref as [old|].
    - apply filter_In in Ht. destruct Ht as [Ht Ho]. split; [exact Ht|].
      destruct (isLoadingTimer t) eqn:E; [|reflexivity].
      specialize (H1 t Ht E). injection H1 as H1. subst old.
      unfold otherThan in Ho. rewrite Nat.eqb_refl in Ho. discriminate.
    - split; [exact Ht|]. destruct (isLoadingTimer t) eqn:E; [|reflexivity].
      specialize (H1 t Ht E). discriminate. }
  repeat split.
  - intros t Ht Hl. apply in_app_or in Ht. destruct Ht as [Ht|[Ht|[]]].
    + apply Hnl in Ht. destruct Ht as [_ Ht]. congruence.
    + subst t. reflexivity.
  - intros t Ht. apply in_app_or in Ht. destruct Ht as [Ht|[Ht|[]]].
    + apply Hnl in Ht. destruct Ht as [Ht _]. specialize (H2 t Ht). lia.
    + subst t. cbn. lia.
  - apply NoDup_map_snoc.
    + destruct ref; [apply NoDup_map_filter|]; exact H3.
    + intros x Hx. apply Hnl in Hx. cbn. apply H2. tauto.
Qed.

Lemma sameCore_refl : forall s, sameCore s s.
Proof. intro s. repeat split. Qed.

Lemma sameCore_Inv : forall s s', sameCore s s' -> Inv s -> Inv s'.
Proof.
  intros s s' (Hm & Ht & Hr & Hn & Hl & Hc) [[Hh Hd Htm Hf] Hdue]. split.
  - constructor.
    + rewrite Hm. exact Hh.
    + rewrite Hm. exact Hd.
    + rewrite Ht, Hr, Hn. exact Htm.
    + unfold loadingTimers. rewrite Hl, Ht. exact Hf.
  - unfold Due. rewrite Ht, Hc. exact Hdue.
Qed.

(** The URL depends on the signed-in user only. *)
Lemma wsUrl_email : forall s s', userEmail s' = userEmail s -> wsUrl s' = wsUrl s.
Proof. intros s s' H. unfold wsUrl, USER_ID. rewrite H. reflexivity. Qed.

Lemma connectWebSocket_core : forall s, sameCore s (connectWebSocket s).
Proof.
  intro s. unfold connectWebSocket.
  destruct (negb (isUserAuthenticated s)); [repeat split|].
  destruct (websocketRef s) as [[| | |]|]; st_simpl;
    try destruct (webSocketAccepts _); repeat split.
Qed.

Lemma onopen_core : forall s, sameCore s (onopen s).
Proof. intro s. repeat split. Qed.

Lemma onerror_core : forall s, sameCore s (onerror s).
Proof. intro s. repeat split. Qed.

Lemma typeInput_core : forall v s, sameCore s (typeInput v s).
Proof. intros v s. unfold typeInput. destruct (inputDisabled s); repeat split. Qed.

Lemma clickSuggestion_core : forall n s, sameCore s (clickSuggestion n s).
Proof.
  intros n s. unfold clickSuggestion. destruct (suggestionsShown s); [|repeat split].
  destruct (nth_error suggestedQueries n); repeat split.
Qed.

Lemma clickReconnect_core : forall s, sameCore s (clickReconnect s).
Proof.
  intro s. unfold clickReconnect. destruct (reconnectShown s); [|repeat split].
  destruct (connectWebSocket_core (setReconnectAttempts 0%nat s))
    as (H1 & H2 & H3 & H4 & H5 & H6).
  repeat split; assumption.
Qed.

Lemma Due_snoc : forall (tms : list Timer) (t : Timer) (c : Z),
  (forall x, In x tms -> c < due x) -> c < due t ->
  forall x, In x (tms ++ [t]) -> c < due x.
Proof.
  intros tms t c H Ht x Hx. apply in_app_or in Hx.
  destruct Hx as [Hx|[Hx|[]]]; [auto|subst; exact Ht].
Qed.

Lemma Due_filter : forall (p : Timer -> bool) (tms : list Timer) (c : Z),
  (forall x, In x tms -> c < due x) ->
  forall x, In x (filter p tms) -> c < due x.
Proof. intros p tms c H x Hx. apply filter_In in Hx. apply H. tauto. Qed.

Lemma loadingTimers_snoc_other : forall tms t,
  isLoadingTimer t = false ->
  filter isLoadingTimer (tms ++ [t]) = filter isLoadingTimer tms.
Proof.
  intros tms t H. rewrite filter_app. cbn [filter]. rewrite H.
  apply app_nil_r.
Qed.

Lemma onclose_Inv : forall code s, Inv s -> Inv (onclose code s).
Proof.
  intros code s [[Hh Hd Htm Hf] Hdue]. unfold onclose.
  destruct (negb (code =? 1000)); st_simpl.
  - destruct (reconnectAttempts s <? maxReconnectAttempts)%nat; st_simpl.
    + split; [constructor|]; inv_simpl.
      * apply historyOk_filter. exact Hh.
      * apply headOk_notProcessing. exact Hd.
      * apply TimersOk_add_other; [exact Htm|discriminate].
      * discriminate.
      * apply Due_snoc; [exact Hdue|]. cbn [due].
        pose proof (reconnectDelay_pos (reconnectAttempts s)). lia.
    + destruct (maxReconnectAttempts <=? reconnectAttempts s)%nat; st_simpl;
        (split; [constructor|]; inv_simpl;
         [apply historyOk_filter; exact Hh
         |apply headOk_notProcessing; exact Hd
         |exact Htm|discriminate|exact Hdue]).
  - destruct (maxReconnectAttempts <=? reconnectAttempts s)%nat; st_simpl;
      (split; [constructor|]; inv_simpl;
       [apply historyOk_filter; exact Hh
       |apply headOk_notProcessing; exact Hd
       |exact Htm|discriminate|exact Hdue]).
Qed.

(** Removing the timer the handle names removes every timeout timer. *)
Lemma cleared_no_loading : forall tms ref nid,
  TimersOk tms ref nid ->
  filter isLoadingTimer
    (match ref with Some i => filter (otherThan i) tms | None => tms end) = [].
Proof.
  intros tms ref nid (H1 & _ & _).
  induction tms as [|x tms IH]; [destruct ref; reflexivity|].
  assert (IH' : filter isLoadingTimer
                  (match ref with Some i => filter (otherThan i) tms | None => tms end) = []).
  { apply IH. intros t Ht. apply H1. right. exact Ht. }
  clear IH. specialize (H1 x (or_introl eq_refl)).
  destruct ref as [i|].
  - cbn [filter]. destruct (otherThan i x) eqn:Eo; [|exact IH'].
    cbn [filter]. destruct (isLoadingTimer x) eqn:El; [|exact IH'].
    specialize (H1 eq_refl). injection H1 as H1. subst i.
    unfold otherThan in Eo. rewrite Nat.eqb_refl in Eo. discriminate.
  - cbn [filter]. destruct (isLoadingTimer x) eqn:El; [|exact IH'].
    specialize (H1 eq_refl). discriminate.
Qed.

Lemma clearIfSet_timers : forall ref s,
  timers (clearIfSet ref s)
  = match ref with Some i => filter (otherThan i) (timers s) | None => timers s end.
Proof. intros [i|] s; reflexivity. Qed.

(** A terminal frame: the effect shared by the result and the error case. *)
Lemma terminal_Inv : forall s s' m,
  Inv s ->
  messages s' = filter notProcessing (messages s) ++ [m] ->
  type m = assistant -> isProcessing m = None ->
  isLoading s' = false ->
  timers s' = timers (clearIfSet (loadingTimeoutRef s) s) ->
  loadingTimeoutRef s' = loadingTimeoutRef s ->
  nextTimerId s' = nextTimerId s -> now s' = now s ->
  Inv s'.
Proof.
  intros s s' m [[Hh Hd Htm Hf] Hdue] Hm Hty Hip Hl Ht Hr Hn Hc.
  rewrite clearIfSet_timers in Ht. split; [constructor|].
  - rewrite Hm, historyOk_app. rewrite (historyOk_filter _ _ Hh).
    unfold processing, provisional. rewrite Hty, Hip. reflexivity.
  - rewrite Hm. apply headOk_app, headOk_notProcessing, Hd.
  - rewrite Ht, Hr, Hn. destruct (loadingTimeoutRef s); [|exact Htm].
    apply TimersOk_filter. exact Htm.
  - rewrite Hl. discriminate.
  - unfold Due. rewrite Ht, Hc. destruct (loadingTimeoutRef s); [|exact Hdue].
    apply Due_filter. exact Hdue.
Qed.

Lemma handleWebSocketMessage_Inv : forall v s,
  Inv s -> Inv (handleWebSocketMessage v s).
Proof.
  intros v s HI. pose proof HI as [[Hh Hd Htm Hf] Hdue].
  unfold handleWebSocketMessage.
  destruct v as [| | |data];
    try solve [apply (sameCore_Inv s); [repeat split; reflexivity|exact HI]].
  destruct (ws_type data) as [ty|];
    [|apply (sameCore_Inv s); [repeat split|exact HI]].
  destruct (ty =? "")%string;
    [apply (sameCore_Inv s); [repeat split|exact HI]|].
  destruct (ty =? "connection")%string;
    [apply (sameCore_Inv s); [repeat split|exact HI]|].
  destruct (ty =? "status")%string.
  { split; [constructor|]; inv_simpl.
    - rewrite historyOk_app, Hh. reflexivity.
    - apply headOk_app, Hd.
    - exact Htm.
    - exact Hf.
    - exact Hdue. }
  destruct (ty =? "intermediate")%string.
  { split; [constructor|]; inv_simpl.
    - rewrite historyOk_app. rewrite (historyOk_filter _ _ Hh). reflexivity.
    - apply headOk_app. apply (headOk_notIntermediate _ Hd).
    - exact Htm.
    - exact Hf.
    - exact Hdue. }
  destruct (ty =? "result")%string.
  { eapply (terminal_Inv s _ (resultTurn data
              (consoleWrite LLog "Received WebSocket message:" s)) HI);
      try reflexivity; st_simpl;
      destruct (loadingTimeoutRef s) eqn:E; st_simpl; rewrite ?E; reflexivity. }
  destruct (ty =? "error")%string.
  { eapply (terminal_Inv s _ (errorTurn data
              (consoleWrite LLog "Received WebSocket message:" s)) HI);
      try reflexivity; st_simpl;
      destruct (loadingTimeoutRef s) eqn:E; st_simpl; rewrite ?E; reflexivity. }
  apply (sameCore_Inv s); [repeat split|exact HI].
Qed.

Lemma onmessage_Inv : forall d s, Inv s -> Inv (onmessage d s).
Proof.
  intros [|v] s HI; [|apply handleWebSocketMessage_Inv; exact HI].
  apply (sameCore_Inv s); [repeat split|exact HI].
Qed.

Lemma filter_nonempty : forall (p : Timer -> bool) l t,
  In t l -> p t = true -> filter p l <> [].
Proof.
  intros p l t Hin Hp H.
  assert (Hf : In t (filter p l)) by (apply filter_In; tauto).
  rewrite H in Hf. exact Hf.
Qed.

Lemma handleSendMessage_Inv : forall s, Inv s -> Inv (handleSendMessage s).
Proof.
  intros s HI. pose proof HI as [[Hh Hd Htm Hf] Hdue]. unfold handleSendMessage.
  destruct ((trim (inputValue s) =? "")%string
            || negb (ConnectionStatus_eqb (connectionStatus s) connected)
            || negb (isUserAuthenticated s)); [exact HI|].
  st_simpl.
  pose proof (TimersOk_replace_loading (timers s) (loadingTimeoutRef s)
                (nextTimerId s) (now s + 30000) Htm) as Hnew.
  assert (Hdue' : forall x,
            In x (match loadingTimeoutRef s with
                  | Some old => filter (otherThan old) (timers s)
                  | None => timers s
                  end ++ [{| tid := nextTimerId s; due := now s + 30000;
                             task := LoadingTimeoutTask |}]) ->
            now s < due x).
  { apply Due_snoc; [|cbn; lia].
    destruct (loadingTimeoutRef s); [apply Due_filter|]; exact Hdue. }
  assert (Hmsg : historyOk (messages s ++
                   [{| id := numToString (now s); type := user;
                       content := inputValue s; timestamp := now s;
                       isProcessing := None |}]) = true)
    by (rewrite historyOk_app, Hh; reflexivity).
  destruct (loadingTimeoutRef s) as [old|] eqn:E; st_simpl;
    destruct (websocketRef s) as [[| | |]|]; st_simpl;
    (split; [constructor|]; inv_simpl;
     [ exact Hmsg
     | apply headOk_app, Hd
     | first [ apply TimersOk_add_other; [exact Hnew|discriminate]
             | apply TimersOk_filter; exact Hnew ]
     | first [ discriminate
             | intros _; eapply filter_nonempty;
               [apply in_or_app; left; apply in_or_app; right; left; reflexivity
               |reflexivity] ]
     | first [ apply Due_snoc; [exact Hdue'|cbn; lia]
             | apply Due_filter; exact Hdue' ] ]).
Qed.

Lemma clickSend_Inv : forall s, Inv s -> Inv (clickSend s).
Proof.
  intros s H. unfold clickSend. destruct (sendDisabled s); [exact H|].
  apply handleSendMessage_Inv, H.
Qed.

Lemma pressKey_Inv : forall key shiftKey s, Inv s -> Inv (pressKey key shiftKey s).
Proof.
  intros key shiftKey s H. unfold pressKey, handleKeyPress.
  destruct (inputDisabled s); [exact H|].
  destruct ((key =? "Enter")%string && negb shiftKey); [|exact H].
  apply handleSendMessage_Inv, H.
Qed.

Lemma clickClearChat_Inv : forall s, Inv s -> Inv (clickClearChat s).
Proof.
  intros s HI. pose proof HI as [[Hh Hd Htm Hf] Hdue]. unfold clickClearChat.
  destruct (suggestionsShown s); [|exact HI].
  split; [constructor|]; inv_simpl; auto.
Qed.

(** ** Timers firing *)

Lemma runTask_timers : forall k s,
  timers (runTask k s) = timers s
  /\ loadingTimeoutRef (runTask k s) = loadingTimeoutRef s
  /\ nextTimerId (runTask k s) = nextTimerId s
  /\ now (runTask k s) = now s.
Proof.
  intros [| |] s; cbn [runTask]; try (repeat split; reflexivity).
  unfold reconnectFired.
  destruct (connectWebSocket_core (setReconnectAttempts (S (reconnectAttempts s)) s))
    as (_ & H2 & H3 & H4 & _ & H6).
  repeat split; assumption.
Qed.

Lemma fireTimer_timers : forall x s,
  timers (fireTimer x s) = filter (otherThan (tid x)) (timers s)
  /\ loadingTimeoutRef (fireTimer x s) = loadingTimeoutRef s
  /\ nextTimerId (fireTimer x s) = nextTimerId s.
Proof.
  intros x s. unfold fireTimer. destruct (pending (tid x) s) eqn:E.
  - destruct (runTask_timers (task x)
                (setNow (Z.max (now s) (due x)) (clearTimeout (tid x) s)))
      as (H1 & H2 & H3 & _).
    rewrite H1, H2, H3. repeat split.
  - repeat split. symmetry. apply forallb_filter_id.
    unfold pending in E. apply forallb_forall. intros y Hy.
    unfold otherThan. destruct (tid y =? tid x)%nat eqn:Ey; [|reflexivity].
    assert (Hex : existsb (fun z => (tid z =? tid x)%nat) (timers s) = true)
      by (apply existsb_exists; exists y; tauto).
    congruence.
Qed.

Lemma tid_injective : forall (l : list Timer) a b,
  NoDup (map tid l) -> In a l -> In b l -> tid a = tid b -> a = b.
Proof.
  induction l as [|x l IH]; intros a b Hd Ha Hb Hab; [destruct Ha|].
  cbn [map] in Hd. inversion Hd as [|? ? Hn Hd']; subst.
  destruct Ha as [Ha|Ha]; destruct Hb as [Hb|Hb]; subst.
  - reflexivity.
  - exfalso. apply Hn. rewrite Hab. apply in_map. exact Hb.
  - exfalso. apply Hn. rewrite <- Hab. apply in_map. exact Ha.
  - apply IH; assumption.
Qed.

Lemma pending_In : forall (T0 : list Timer) x s,
  NoDup (map tid T0) -> In x T0 -> incl (timers s) T0 ->
  pending (tid x) s = true -> In x (timers s).
Proof.
  intros T0 x s Hd Hx Hincl Hp. unfold pending in Hp.
  apply existsb_exists in Hp. destruct Hp as (y & Hy & Hxy).
  apply Nat.eqb_eq in Hxy.
  assert (y = x) by (apply (tid_injective T0); auto).
  subst y. exact Hy.
Qed.

Lemma In_pending : forall x s, In x (timers s) -> pending (tid x) s = true.
Proof.
  intros x s H. unfold pending. apply existsb_exists. exists x.
  split; [exact H|apply Nat.eqb_refl].
Qed.

(** A timer that is not the timeout timer leaves the timeout timers alone
    when it is removed. *)
Lemma loading_survives : forall tms ref nid x t,
  TimersOk tms ref nid -> In x tms -> isLoadingTimer x = false ->
  In t tms -> isLoadingTimer t = true ->
  In t (filter (otherThan (tid x)) tms).
Proof.
  intros tms ref nid x t (_ & _ & Hd) Hx Hxl Ht Htl.
  apply filter_In. split; [exact Ht|].
  unfold otherThan. destruct (tid t =? tid x)%nat eqn:E; [|reflexivity].
  apply Nat.eqb_eq in E.
  assert (t = x) by (apply (tid_injective tms); auto). subst t. congruence.
Qed.

Lemma nonempty_In : forall (p : Timer -> bool) l,
  filter p l <> [] -> exists t, In t l /\ p t = true.
Proof.
  intros p l H. destruct (filter p l) as [|t r] eqn:E; [congruence|].
  exists t. apply filter_In. rewrite E. left. reflexivity.
Qed.

Lemma fireTimer_WInv : forall x s,
  WInv s -> In x (timers s) -> WInv (fireTimer x s).
Proof.
  intros x s [Hh Hd Htm Hf] Hx. unfold fireTimer.
  rewrite (In_pending x s Hx).
  destruct (task x) eqn:Ek; cbn [runTask].
  - (* reconnect *)
    unfold reconnectFired.
    destruct (connectWebSocket_core
                (setReconnectAttempts
                   (S (reconnectAttempts
                         (setNow (Z.max (now s) (due x)) (clearTimeout (tid x) s))))
                   (setNow (Z.max (now s) (due x)) (clearTimeout (tid x) s))))
      as (H1 & H2 & H3 & H4 & H5 & _).
    constructor; unfold loadingTimers; rewrite ?H1, ?H2, ?H3, ?H4, ?H5; st_simpl.
    + exact Hh.
    + exact Hd.
    + apply TimersOk_filter. exact Htm.
    + intro Hl. destruct (nonempty_In _ _ (Hf Hl)) as (t & Ht & Htl).
      apply (filter_nonempty _ _ t); [|exact Htl].
      apply (loading_survives _ _ _ x t Htm Hx); auto.
      unfold isLoadingTimer. rewrite Ek. reflexivity.
  - (* the query timeout *)
    unfold loadingTimeoutFired. constructor; inv_simpl.
    + rewrite historyOk_app. rewrite (historyOk_filter _ _ Hh). reflexivity.
    + apply headOk_app. apply (headOk_notProcessing _ Hd).
    + apply TimersOk_filter. exact Htm.
    + discriminate.
  - (* the first status turn *)
    unfold initialStatusFired. constructor; inv_simpl.
    + rewrite historyOk_app, Hh. reflexivity.
    + apply headOk_app. exact Hd.
    + apply TimersOk_filter. exact Htm.
    + intro Hl. destruct (nonempty_In _ _ (Hf Hl)) as (t & Ht & Htl).
      apply (filter_nonempty _ _ t); [|exact Htl].
      apply (loading_survives _ _ _ x t Htm Hx); auto.
      unfold isLoadingTimer. rewrite Ek. reflexivity.
Qed.

Lemma fireTimer_now : forall x s,
  now s <= now (fireTimer x s) /\ now (fireTimer x s) <= Z.max (now s) (due x).
Proof.
  intros x s. unfold fireTimer. destruct (pending (tid x) s); [|lia].
  destruct (runTask_timers (task x)
              (setNow (Z.max (now s) (due x)) (clearTimeout (tid x) s)))
    as (_ & _ & _ & H).
  rewrite H. st_simpl. lia.
Qed.

(** Induction over the timers that fire during one [advance]. *)
Lemma fireAll_ind : forall (T0 : list Timer) (P : State -> Prop) (l : list Timer),
  NoDup (map tid T0) -> incl l T0 ->
  (forall x s, In x l -> WInv s -> incl (timers s) T0 -> P s ->
               P (fireTimer x s)) ->
  forall s, WInv s -> incl (timers s) T0 -> P s ->
  WInv (fireAll l s) /\ incl (timers (fireAll l s)) T0 /\ P (fireAll l s).
Proof.
  intros T0 P l Hd. induction l as [|x l IH]; intros Hl Hstep s HW Hincl HP.
  - cbn. auto.
  - cbn [fireAll fold_left].
    assert (Hx : In x T0) by (apply Hl; left; reflexivity).
    apply IH.
    + intros y Hy. apply Hl. right. exact Hy.
    + intros y s' Hy. apply Hstep. right. exact Hy.
    + destruct (pending (tid x) s) eqn:Ep.
      * apply fireTimer_WInv; [exact HW|].
        apply (pending_In T0); assumption.
      * unfold fireTimer. rewrite Ep. exact HW.
    + destruct (fireTimer_timers x s) as (Ht & _). rewrite Ht.
      intros y Hy. apply filter_In in Hy. apply Hincl. tauto.
    + apply Hstep; auto. left. reflexivity.
Qed.

Lemma fireAll_timers : forall l s y,
  In y (timers (fireAll l s)) ->
  In y (timers s) /\ forall x, In x l -> tid y <> tid x.
Proof.
  induction l as [|x l IH]; intros s y Hy.
  - cbn in Hy. split; [exact Hy|]. intros x [].
  - cbn [fireAll fold_left] in Hy. apply IH in Hy. destruct Hy as [Hy Hn].
    destruct (fireTimer_timers x s) as (Ht & _). rewrite Ht in Hy.
    apply filter_In in Hy. destruct Hy as [Hy Ho]. split; [exact Hy|].
    intros z [Hz|Hz].
    + subst z. unfold otherThan in Ho. intro E. rewrite E, Nat.eqb_refl in Ho.
      discriminate.
    + apply Hn. exact Hz.
Qed.

Lemma insertTimer_In : forall t l x, In x (insertTimer t l) <-> x = t \/ In x l.
Proof.
  intros t l x. induction l as [|y l IH]; cbn [insertTimer].
  - cbn. intuition.
  - destruct (due t <=? due y); cbn [In] in *; [intuition|].
    rewrite IH. intuition.
Qed.

Lemma sortByDue_In : forall l x, In x (sortByDue l) <-> In x l.
Proof.
  induction l as [|y l IH]; intro x; [reflexivity|].
  cbn [sortByDue fold_right]. rewrite insertTimer_In.
  fold (sortByDue l). rewrite IH. cbn [In]. intuition.
Qed.

Lemma dueTimers_In : forall t s x,
  In x (dueTimers t s) <-> In x (timers s) /\ due x <= t.
Proof.
  intros t s x. unfold dueTimers. rewrite sortByDue_In, filter_In.
  rewrite Z.leb_le. reflexivity.
Qed.

(** After [advance] nothing that was due is left pending. *)
Lemma advance_Inv_with : forall (P : State -> Prop) dt s,
  Inv s -> P s ->
  (forall x s', In x (dueTimers (now s + Z.max 0 dt) s) -> WInv s' ->
                incl (timers s') (timers s) -> P s' -> P (fireTimer x s')) ->
  (forall s' t, P s' -> now s' <= t -> P (setNow t s')) ->
  Inv (advance dt s) /\ P (advance dt s).
Proof.
  intros P dt s [HW Hdue] HP Hstep Hnow.
  set (t := now s + Z.max 0 dt) in *.
  pose proof HW as [_ _ (_ & _ & Hnd) _].
  destruct (fireAll_ind (timers s)
              (fun s' => P s' /\ now s' <= t) (dueTimers t s) Hnd) with (s := s)
    as (HW' & Hincl & HP' & Hle).
  - intros x Hx. apply dueTimers_In in Hx. tauto.
  - intros x s' Hx HWs Hi [HPs Hls]. split; [apply Hstep; auto|].
    destruct (fireTimer_now x s') as [_ Hup].
    apply dueTimers_In in Hx. lia.
  - exact HW.
  - apply incl_refl.
  - split; [exact HP|]. subst t. lia.
  - unfold advance. fold t. fold (fireAll (dueTimers t s) s).
    split; [split|].
    + destruct HW' as [Hh Hd Htm Hf]. constructor; inv_simpl; assumption.
    + unfold Due. st_simpl. intros y Hy.
      apply fireAll_timers in Hy. destruct Hy as [Hy Hn].
      destruct (Z.le_gt_cases (due y) t) as [Hdy|Hdy]; [|lia].
      exfalso. apply (Hn y); [|reflexivity].
      apply dueTimers_In. tauto.
    + apply Hnow; assumption.
Qed.

Lemma advance_Inv : forall dt s, Inv s -> Inv (advance dt s).
Proof.
  intros dt s H.
  apply (advance_Inv_with (fun _ => True) dt s H I); auto.
Qed.

Theorem step_Inv : forall e s, Inv s -> Inv (step e s).
Proof.
  intros e s H. destruct e; cbn [step].
  - destruct (websocketRef s) as [[| | |]|]; try exact H.
    apply (sameCore_Inv s); [repeat split|exact H].
  - destruct (websocketRef s) as [[| | |]|]; try exact H.
    apply onmessage_Inv, H.
  - destruct (websocketRef s) as [[| | |]|]; try exact H;
      (apply onclose_Inv; apply (sameCore_Inv s); [repeat split|exact H]).
  - destruct (websocketRef s) as [[| | |]|]; try exact H;
      (apply (sameCore_Inv s); [apply onerror_core|exact H]).
  - apply (sameCore_Inv s); [apply typeInput_core|exact H].
  - apply pressKey_Inv, H.
  - apply clickSend_Inv, H.
  - apply (sameCore_Inv s); [apply clickSuggestion_core|exact H].
  - apply clickClearChat_Inv, H.
  - apply (sameCore_Inv s); [apply clickReconnect_core|exact H].
  - apply advance_Inv, H.
  - destruct (websocketRef s) as [[| | |]|]; try exact H.
    apply (sameCore_Inv s); [repeat split|exact H].
  - destruct (replacedSockets s); [exact H|].
    apply (sameCore_Inv s); [apply onerror_core|exact H].
  - destruct (replacedSockets s); [exact H|].
    apply onclose_Inv. apply (sameCore_Inv s); [repeat split|exact H].
Qed.

Lemma mount_Inv : forall email t0, Inv (mount email t0).
Proof.
  intros email t0.
  assert (H0 : Inv (initialState email t0)).
  { split; [constructor|]; inv_simpl; cbn.
    - reflexivity.
    - reflexivity.
    - repeat split; [intros t []|intros t []|constructor].
    - discriminate.
    - intros t []. }
  unfold mount, effect. destruct (isUserAuthenticated (initialState email t0)).
  - apply (sameCore_Inv (initialState email t0)); [apply connectWebSocket_core|exact H0].
  - apply (sameCore_Inv (initialState email t0)); [repeat split|exact H0].
Qed.

Lemma run_Inv : forall evs s, Inv s -> Inv (run evs s).
Proof.
  induction evs as [|e evs IH]; intros s H; [exact H|].
  cbn [run fold_left]. apply IH. apply step_Inv, H.
Qed.

Lemma reachable_Inv : forall email t0 evs, Inv (run evs (mount email t0)).
Proof. intros. apply run_Inv, mount_Inv. Qed.

(** ** The provisional flag *)

Lemma historyOk_In : forall l m,
  historyOk l = true -> In m l -> processing m = provisional m.
Proof.
  intros l m H Hm. unfold historyOk in H. rewrite forallb_forall in H.
  apply Bool.eqb_prop. apply H. exact Hm.
Qed.

Lemma filter_notProcessing_provisional : forall l,
  historyOk l = true ->
  filter notProcessing l = filter (fun m => negb (provisional m)) l.
Proof.
  intros l H. apply filter_ext_in. intros m Hm. unfold notProcessing.
  rewrite (historyOk_In l m H Hm). reflexivity.
Qed.

Lemma provisional_iff : forall m,
  provisional m = true <-> type m = status \/ type m = intermediate.
Proof.
  intro m. unfold provisional. destruct (type m); split; intro H;
    try discriminate; auto; destruct H; discriminate.
Qed.

Lemma processing_iff : forall m, processing m = true <-> isProcessing m = Some true.
Proof.
  intro m. unfold processing. destruct (isProcessing m) as [[|]|]; split;
    intro H; try discriminate; auto.
Qed.

(** C9: in every history the component can reach, a turn has
    [isProcessing = true] exactly when its role is Status or Intermediate, so
    the filter on the flag that the terminal handlers apply keeps exactly the
    turns of the other two roles; this holds after every sequence of events,
    hence is preserved by each of them. *)
Theorem isProcessing_marks_provisional :
  forall (email : option string) (t0 : Z) (evs : list Event),
    historyOk (messages (run evs (mount email t0))) = true
    /\ (forall m, In m (messages (run evs (mount email t0))) ->
          (isProcessing m = Some true <-> type m = status \/ type m = intermediate))
    /\ filter notProcessing (messages (run evs (mount email t0)))
       = filter (fun m => negb (provisional m)) (messages (run evs (mount email t0)))
    /\ (forall e, historyOk (messages (step e (run evs (mount email t0)))) = true).
Proof.
  intros email t0 evs.
  destruct (reachable_Inv email t0 evs) as [[Hh _ _ _] _].
  split; [exact Hh|]. split; [|split].
  - intros m Hm. rewrite <- processing_iff, <- provisional_iff.
    rewrite (historyOk_In _ m Hh Hm). reflexivity.
  - apply filter_notProcessing_provisional. exact Hh.
  - intro e. destruct (step_Inv e _ (reachable_Inv email t0 evs)) as [[H _ _ _] _].
    exact H.
Qed.

Lemma isProcessing_marks_provisional_witness :
  isProcessing (statusTurn (frame "status") (setNow 150 (initialState None 0)))
    = Some true
  <-> type (statusTurn (frame "status") (setNow 150 (initialState None 0))) = status
      \/ type (statusTurn (frame "status") (setNow 150 (initialState None 0)))
         = intermediate.
Proof.
  apply (proj1 (proj2 (isProcessing_marks_provisional
                         (Some "u@example.com") 0 sampleTrace))).
  vm_compute. right. right. right. left. reflexivity.
Defined.

(** ** Terminal frames *)

Lemma isTerminalFrame_cases : forall data,
  isTerminalFrame data = true -> hasType "result" data \/ hasType "error" data.
Proof.
  intros data H. unfold isTerminalFrame, hasType in *.
  destruct (ws_type data) as [ty|]; [|discriminate].
  apply orb_true_iff in H. destruct H as [H|H]; apply String.eqb_eq in H;
    subst ty; auto.
Qed.

Lemma filter_provisional_none : forall l m,
  provisional m = false ->
  filter provisional (filter (fun x => negb (provisional x)) l ++ [m]) = [].
Proof.
  intros l m Hm. rewrite filter_app. cbn [filter]. rewrite Hm, app_nil_r.
  induction l as [|x l IH]; [reflexivity|].
  cbn [filter]. destruct (provisional x) eqn:E; cbn [negb]; [exact IH|].
  cbn [filter]. rewrite E. exact IH.
Qed.

Lemma countType_assistant_kept : forall l,
  countType assistant (filter (fun x => negb (provisional x)) l)
  = countType assistant l.
Proof.
  induction l as [|x l IH]; [reflexivity|].
  unfold countType in *. cbn [filter]. unfold provisional at 1.
  destruct (type x) eqn:E; cbn [negb filter]; rewrite ?E;
    cbn [MessageType_eqb List.length]; rewrite ?IH; reflexivity.
Qed.

(** C2: in every state the component can reach, whatever frames came
    before, a result or error frame leaves the history without Status and
    Intermediate turns, appends exactly one Assistant turn behind the kept
    ones, clears the loading flag and leaves no query-timeout timer pending. *)
Theorem terminal_frame_settles_query :
  forall (email : option string) (t0 : Z) (evs : list Event)
         (data : WebSocketMessage),
    isTerminalFrame data = true ->
    exists m,
      messages (onmessage (Parsed (JObject data)) (run evs (mount email t0)))
        = filter (fun x => negb (provisional x)) (messages (run evs (mount email t0)))
          ++ [m]
      /\ type m = assistant
      /\ (hasType "result" data -> content m = resultMessage data)
      /\ filter provisional
           (messages (onmessage (Parsed (JObject data)) (run evs (mount email t0))))
         = []
      /\ countType assistant
           (messages (onmessage (Parsed (JObject data)) (run evs (mount email t0))))
         = S (countType assistant (messages (run evs (mount email t0))))
      /\ isLoading (onmessage (Parsed (JObject data)) (run evs (mount email t0)))
         = false
      /\ loadingTimers (onmessage (Parsed (JObject data)) (run evs (mount email t0)))
         = [].
Proof.
  intros email t0 evs data Hterm.
  set (s := run evs (mount email t0)).
  destruct (reachable_Inv email t0 evs) as [[Hh _ Htm _] _]. fold s in Hh, Htm.
  assert (Hshape : exists m,
            messages (handleWebSocketMessage (JObject data) s)
              = filter notProcessing (messages s) ++ [m]
            /\ type m = assistant
            /\ (hasType "result" data -> content m = resultMessage data)
            /\ isLoading (handleWebSocketMessage (JObject data) s) = false
            /\ timers (handleWebSocketMessage (JObject data) s)
               = timers (clearIfSet (loadingTimeoutRef s) s)).
  { destruct (isTerminalFrame_cases data Hterm) as [H|H].
    - destruct (route_result data s H) as (M & L & T).
      exists (resultTurn data s). repeat split; auto.
    - destruct (route_error data s H) as (M & L & T).
      exists (errorTurn data s). repeat split; auto.
      intro H'. unfold hasType in *. congruence. }
  destruct Hshape as (m & M & Hty & Hc & L & T). exists m.
  unfold onmessage. rewrite M, (filter_notProcessing_provisional _ Hh).
  assert (Hp : provisional m = false) by (unfold provisional; rewrite Hty; reflexivity).
  repeat split; auto.
  - apply filter_provisional_none. exact Hp.
  - rewrite countType_app, countType_assistant_kept.
    unfold countType at 2. cbn [filter]. rewrite Hty. cbn. lia.
  - unfold loadingTimers. rewrite T, clearIfSet_timers.
    apply (cleared_no_loading _ _ _ Htm).
Qed.

Lemma terminal_frame_settles_query_witness :
  exists m,
    messages (onmessage (Parsed (JObject resultFrame))
                (run sampleTrace (mount (Some "u@example.com") 0)))
      = filter (fun x => negb (provisional x))
          (messages (run sampleTrace (mount (Some "u@example.com") 0))) ++ [m]
    /\ type m = assistant.
Proof.
  destruct (terminal_frame_settles_query (Some "u@example.com") 0 sampleTrace
              resultFrame eq_refl) as (m & H1 & H2 & _).
  exists m. split; assumption.
Defined.

(** ** Counting the synthesized timeout turns *)

Lemma timedOutTurns_snoc : forall l m,
  timedOutTurns (l ++ [m])
  = (timedOutTurns l + if isTimedOutTurn m then 1 else 0)%nat.
Proof.
  intros l m. unfold timedOutTurns. rewrite filter_app, length_app.
  cbn [filter]. destruct (isTimedOutTurn m); reflexivity.
Qed.

Lemma timedOutTurns_notProcessing : forall l,
  historyOk l = true ->
  timedOutTurns (filter notProcessing l) = timedOutTurns l.
Proof.
  induction l as [|x l IH]; intro H; [reflexivity|].
  unfold historyOk in H. cbn [forallb] in H. apply andb_true_iff in H.
  destruct H as [Hx Hl]. specialize (IH Hl).
  unfold timedOutTurns in *. cbn [filter].
  unfold notProcessing at 1. destruct (processing x) eqn:E; cbn [negb].
  - apply Bool.eqb_prop in Hx. unfold isTimedOutTurn at 2.
    unfold provisional in Hx. destruct (type x); try discriminate;
      cbn [MessageType_eqb andb]; exact IH.
  - cbn [filter]. destruct (isTimedOutTurn x); cbn [List.length]; rewrite IH;
      reflexivity.
Qed.

Lemma timedOutTurns_notIntermediate : forall l,
  timedOutTurns (filter notIntermediate l) = timedOutTurns l.
Proof.
  induction l as [|x l IH]; [reflexivity|].
  unfold timedOutTurns in *. cbn [filter].
  unfold notIntermediate at 1, isTimedOutTurn at 2.
  destruct (type x) eqn:E; cbn [MessageType_eqb negb andb filter];
    unfold isTimedOutTurn at 1; rewrite ?E; cbn [MessageType_eqb andb];
    try exact IH.
  destruct (content x =? timedOutText)%string; cbn [List.length]; rewrite IH;
    reflexivity.
Qed.

Lemma timedOutTurns_single : forall l,
  headOk l = true -> List.length l = 1%nat -> timedOutTurns l = 0%nat.
Proof.
  intros [|m [|m' l]] H Hlen; try discriminate.
  cbn [headOk] in H. apply andb_true_iff in H. destruct H as [_ H].
  apply negb_true_iff in H. unfold timedOutTurns. cbn [filter]. rewrite H.
  reflexivity.
Qed.

Lemma filter_filter_nil : forall (p q : Timer -> bool) l,
  filter p l = [] -> filter p (filter q l) = [].
Proof.
  intros p q l H. induction l as [|x l IH]; [reflexivity|].
  cbn [filter] in *. destruct (p x) eqn:Ep; [discriminate|].
  destruct (q x); cbn [filter]; rewrite ?Ep; auto.
Qed.

Lemma nil_not_In : forall (p : Timer -> bool) l x,
  filter p l = [] -> In x l -> p x = false.
Proof.
  intros p l x H Hx. destruct (p x) eqn:E; [|reflexivity].
  assert (Hf : In x (filter p l)) by (apply filter_In; tauto).
  rewrite H in Hf. destruct Hf.
Qed.

(** ** Following one query timeout through the events *)

Lemma fireTimer_other : forall x s,
  In x (timers s) -> isLoadingTimer x = false ->
  timedOutTurns (messages (fireTimer x s)) = timedOutTurns (messages s)
  /\ isLoading (fireTimer x s) = isLoading s
  /\ now (fireTimer x s) = Z.max (now s) (due x).
Proof.
  intros x s Hx Hl. unfold fireTimer. rewrite (In_pending x s Hx).
  unfold isLoadingTimer in Hl. destruct (task x); try discriminate;
    cbn [runTask].
  - unfold reconnectFired.
    destruct (connectWebSocket_core
                (setReconnectAttempts
                   (S (reconnectAttempts
                         (setNow (Z.max (now s) (due x)) (clearTimeout (tid x) s))))
                   (setNow (Z.max (now s) (due x)) (clearTimeout (tid x) s))))
      as (H1 & _ & _ & _ & H5 & H6).
    rewrite H1, H5, H6. repeat split.
  - unfold initialStatusFired. st_simpl. rewrite timedOutTurns_snoc.
    repeat split. cbn. lia.
Qed.

Lemma fireTimer_loading : forall x s,
  In x (timers s) -> isLoadingTimer x = true -> historyOk (messages s) = true ->
  timedOutTurns (messages (fireTimer x s)) = S (timedOutTurns (messages s))
  /\ isLoading (fireTimer x s) = false
  /\ now (fireTimer x s) = Z.max (now s) (due x).
Proof.
  intros x s Hx Hl Hh. unfold fireTimer. rewrite (In_pending x s Hx).
  unfold isLoadingTimer in Hl. destruct (task x); try discriminate.
  cbn [runTask]. unfold loadingTimeoutFired. st_simpl.
  change (fun msg : Message => negb (processing msg)) with notProcessing.
  rewrite timedOutTurns_snoc, (timedOutTurns_notProcessing _ Hh).
  repeat split. cbn. lia.
Qed.

Lemma fireTimer_Settled : forall d n x s,
  (pending (tid x) s = true -> In x (timers s)) ->
  Settled d n s -> Settled d n (fireTimer x s).
Proof.
  intros d n x s Hp (Hl & Hc & Hld & Hd).
  destruct (pending (tid x) s) eqn:Ep;
    [|unfold fireTimer; rewrite Ep; repeat split; assumption].
  specialize (Hp eq_refl).
  assert (Hxl : isLoadingTimer x = false) by (apply (nil_not_In _ _ _ Hl Hp)).
  destruct (fireTimer_other x s Hp Hxl) as (H1 & H2 & H3).
  destruct (fireTimer_timers x s) as (Ht & _).
  unfold Settled, loadingTimers. rewrite Ht, H1, H2, H3. repeat split.
  - apply filter_filter_nil. exact Hl.
  - exact Hc.
  - exact Hld.
  - lia.
Qed.

Lemma fireTimer_Tracked : forall tm c x s,
  WInv s -> (pending (tid x) s = true -> In x (timers s)) ->
  isLoadingTimer tm = true ->
  Tracked tm c s -> Tracked tm c (fireTimer x s).
Proof.
  intros tm c x s HW Hp Htm [(Hin & Hc)|Hs];
    [|right; apply fireTimer_Settled; assumption].
  destruct (pending (tid x) s) eqn:Ep;
    [|left; unfold fireTimer; rewrite Ep; split; assumption].
  specialize (Hp eq_refl). destruct HW as [Hh _ Hok _].
  pose proof Hok as (Href & _ & Hnd).
  destruct (fireTimer_timers x s) as (Ht & _).
  destruct (Nat.eq_dec (tid x) (tid tm)) as [E|E].
  - assert (x = tm) by (apply (tid_injective (timers s)); auto). subst x.
    destruct (fireTimer_loading tm s Hin Htm Hh) as (H1 & H2 & H3).
    right. unfold Settled, loadingTimers. rewrite Ht, H1, H2, H3.
    repeat split; [|congruence|lia].
    pose proof (cleared_no_loading _ _ _ Hok) as Hclr.
    rewrite (Href tm Hin Htm) in Hclr. exact Hclr.
  - assert (Hxl : isLoadingTimer x = false).
    { destruct (isLoadingTimer x) eqn:Ex; [|reflexivity].
      pose proof (Href x Hp Ex) as R1. pose proof (Href tm Hin Htm) as R2.
      congruence. }
    destruct (fireTimer_other x s Hp Hxl) as (H1 & _).
    left. unfold Waiting. rewrite Ht, H1. split; [|exact Hc].
    apply filter_In. split; [exact Hin|].
    unfold otherThan. apply negb_true_iff. apply Nat.eqb_neq. congruence.
Qed.

Lemma sameCore_calm : forall s s', sameCore s s' -> calm s s'.
Proof.
  intros s s' (Hm & Ht & _ & _ & Hl & Hc). unfold calm.
  rewrite Hm. repeat split; auto.
Qed.

Lemma calm_Settled : forall d n s s', calm s s' -> Settled d n s -> Settled d n s'.
Proof.
  intros d n s s' (Hc & Ht & Hl & Hn) (S1 & S2 & S3 & S4).
  unfold Settled, loadingTimers. rewrite Hc, Hn. repeat split; auto; [|intuition congruence].
  destruct Ht as [Ht|(t & Ht & Htl)]; rewrite Ht; [exact S1|].
  rewrite loadingTimers_snoc_other; assumption.
Qed.

Lemma calm_Tracked : forall tm c s s', calm s s' -> Tracked tm c s -> Tracked tm c s'.
Proof.
  intros tm c s s' Hcalm [(Hin & Hc)|Hs]; [|right; apply (calm_Settled _ _ s); assumption].
  destruct Hcalm as (Hc' & Ht & _ & _). left. split; [|congruence].
  destruct Ht as [Ht|(t & Ht & _)]; rewrite Ht; [exact Hin|].
  apply in_or_app. left. exact Hin.
Qed.

Lemma handleWebSocketMessage_calm : forall v s,
  isTerminalEvent (EvMessage (Parsed v)) = false ->
  calm s (handleWebSocketMessage v s).
Proof.
  intros v s Hq. unfold handleWebSocketMessage.
  destruct v as [| | |data]; try solve [apply sameCore_calm; repeat split; reflexivity].
  cbn [isTerminalEvent] in Hq. unfold isTerminalFrame in Hq.
  destruct (ws_type data) as [ty|];
    [|apply sameCore_calm; repeat split; reflexivity].
  apply orb_false_iff in Hq. destruct Hq as [Hr He].
  destruct (ty =? "")%string;
    [apply sameCore_calm; repeat split; reflexivity|].
  destruct (ty =? "connection")%string;
    [apply sameCore_calm; repeat split; reflexivity|].
  destruct (ty =? "status")%string.
  { unfold calm. st_simpl. rewrite timedOutTurns_snoc. cbn. repeat split; auto. }
  destruct (ty =? "intermediate")%string.
  { unfold calm. st_simpl.
    change (fun msg : Message => negb (MessageType_eqb (type msg) intermediate))
      with notIntermediate.
    rewrite timedOutTurns_snoc, timedOutTurns_notIntermediate. cbn.
    repeat split; auto. }
  rewrite Hr, He. apply sameCore_calm; repeat split; reflexivity.
Qed.

Lemma onclose_calm : forall code s,
  historyOk (messages s) = true -> calm s (onclose code s).
Proof.
  intros code s Hh. unfold onclose, calm.
  destruct (negb (code =? 1000)); st_simpl;
    [destruct (reconnectAttempts s <? maxReconnectAttempts)%nat; st_simpl|];
    try (destruct (maxReconnectAttempts <=? reconnectAttempts s)%nat; st_simpl);
    change (fun msg : Message => negb (processing msg)) with notProcessing;
    rewrite (timedOutTurns_notProcessing _ Hh); repeat split; auto;
    right; eexists; split; reflexivity.
Qed.

Lemma clickClearChat_calm : forall s,
  headOk (messages s) = true -> calm s (clickClearChat s).
Proof.
  intros s Hd. unfold clickClearChat, suggestionsShown.
  destruct (List.length (messages s) =? 1)%nat eqn:E;
    [|apply sameCore_calm, sameCore_refl].
  apply Nat.eqb_eq in E. unfold calm, clearChat. st_simpl.
  rewrite (timedOutTurns_single _ Hd E). repeat split; auto.
Qed.

(** Every quiet event except the passing of time is calm. *)
Lemma quiet_step_calm : forall e s,
  quiet e = true -> (forall dt, e <> EvAdvance dt) -> Inv s -> calm s (step e s).
Proof.
  intros e s Hq Hna [[Hh Hd _ _] _]. unfold quiet in Hq.
  apply andb_true_iff in Hq. destruct Hq as [Hsub Hterm].
  apply negb_true_iff in Hsub. apply negb_true_iff in Hterm.
  destruct e; cbn [step].
  - destruct (websocketRef s) as [[| | |]|]; apply sameCore_calm; repeat split.
  - destruct (websocketRef s) as [[| | |]|]; try apply sameCore_calm, sameCore_refl.
    destruct d as [|v]; [apply sameCore_calm; repeat split|].
    apply handleWebSocketMessage_calm. exact Hterm.
  - destruct (websocketRef s) as [[| | |]|]; try apply sameCore_calm, sameCore_refl;
      exact (onclose_calm code (setWebsocketRef (Some CLOSED) s) Hh).
  - destruct (websocketRef s) as [[| | |]|]; apply sameCore_calm; repeat split.
  - apply sameCore_calm, typeInput_core.
  - cbn [isSubmit] in Hsub. unfold pressKey, handleKeyPress. rewrite Hsub.
    destruct (inputDisabled s); apply sameCore_calm, sameCore_refl.
  - discriminate.
  - apply sameCore_calm, clickSuggestion_core.
  - apply clickClearChat_calm. exact Hd.
  - apply sameCore_calm, clickReconnect_core.
  - exfalso. apply (Hna dt). reflexivity.
  - destruct (websocketRef s) as [[| | |]|]; apply sameCore_calm; repeat split.
  - destruct (replacedSockets s); apply sameCore_calm; repeat split.
  - destruct (replacedSockets s) as [|n]; [apply sameCore_calm, sameCore_refl|].
    exact (onclose_calm code (setReplacedSockets n s) Hh).
Qed.

Lemma advance_Settled : forall d n dt s,
  Inv s -> Settled d n s -> Settled d n (advance dt s).
Proof.
  intros d n dt s HI HS. pose proof HI as [[_ _ (_ & _ & Hnd) _] _].
  apply (advance_Inv_with (Settled d n) dt s HI HS).
  - intros x s' Hx HW Hincl HS'. apply fireTimer_Settled; [|exact HS'].
    apply dueTimers_In in Hx. apply (pending_In (timers s)); tauto.
  - intros s' t (S1 & S2 & S3 & S4) Ht. repeat split; auto. st_simpl. lia.
Qed.

Lemma advance_Tracked : forall tm c dt s,
  Inv s -> isLoadingTimer tm = true ->
  Tracked tm c s -> Tracked tm c (advance dt s).
Proof.
  intros tm c dt s HI Htm HT. pose proof HI as [[_ _ (_ & _ & Hnd) _] _].
  apply (advance_Inv_with (Tracked tm c) dt s HI HT).
  - intros x s' Hx HW Hincl HT'. apply fireTimer_Tracked; auto.
    apply dueTimers_In in Hx. apply (pending_In (timers s)); tauto.
  - intros s' t [(W1 & W2)|(S1 & S2 & S3 & S4)] Ht.
    + left. split; assumption.
    + right. repeat split; auto. st_simpl. lia.
Qed.

Lemma advance_dec : forall e, (exists dt, e = EvAdvance dt) \/ forall dt, e <> EvAdvance dt.
Proof. destruct e; try (right; discriminate). left. eauto. Qed.

Lemma quiet_step_Settled : forall d n e s,
  quiet e = true -> Inv s -> Settled d n s -> Settled d n (step e s).
Proof.
  intros d n e s Hq HI HS. destruct (advance_dec e) as [(dt & ->)|Hna].
  - apply advance_Settled; assumption.
  - apply (calm_Settled d n s); [|exact HS]. apply quiet_step_calm; assumption.
Qed.

Lemma quiet_step_Tracked : forall tm c e s,
  quiet e = true -> Inv s -> isLoadingTimer tm = true ->
  Tracked tm c s -> Tracked tm c (step e s).
Proof.
  intros tm c e s Hq HI Htm HT. destruct (advance_dec e) as [(dt & ->)|Hna].
  - apply advance_Tracked; assumption.
  - apply (calm_Tracked tm c s); [|exact HT]. apply quiet_step_calm; assumption.
Qed.

Lemma quiet_run_Settled : forall d n evs s,
  forallb quiet evs = true -> Inv s -> Settled d n s -> Settled d n (run evs s).
Proof.
  intros d n evs. induction evs as [|e evs IH]; intros s Hq HI HS; [exact HS|].
  cbn [forallb] in Hq. apply andb_true_iff in Hq. destruct Hq as [He Hq].
  cbn [run fold_left]. apply IH; [exact Hq|apply step_Inv, HI|].
  apply quiet_step_Settled; assumption.
Qed.

Lemma quiet_run_Tracked : forall tm c evs s,
  forallb quiet evs = true -> Inv s -> isLoadingTimer tm = true ->
  Tracked tm c s -> Tracked tm c (run evs s).
Proof.
  intros tm c evs. induction evs as [|e evs IH]; intros s Hq HI Htm HT; [exact HT|].
  cbn [forallb] in Hq. apply andb_true_iff in Hq. destruct Hq as [He Hq].
  cbn [run fold_left]. apply IH; [exact Hq|apply step_Inv, HI|exact Htm|].
  apply quiet_step_Tracked; assumption.
Qed.

(** What tracking says once the clock is known. *)
Lemma Tracked_outcome : forall tm c s,
  Inv s -> Tracked tm c s ->
  (now s < due tm -> In tm (timers s) /\ timedOutTurns (messages s) = c)
  /\ (due tm <= now s ->
        loadingTimers s = [] /\ timedOutTurns (messages s) = S c
        /\ isLoading s = false).
Proof.
  intros tm c s [_ Hdue] [(Hin & Hc)|(S1 & S2 & S3 & S4)]; split; intro H.
  - auto.
  - specialize (Hdue tm Hin). lia.
  - lia.
  - auto.
Qed.

(** ** Submitting a query *)

Lemma handleSendMessage_sends : forall s,
  Inv s -> canSend s = true -> sendSucceeds s = true ->
  messages (handleSendMessage s) = messages s ++ [userTurn s]
  /\ isLoading (handleSendMessage s) = true
  /\ loadingTimers (handleSendMessage s) = [queryTimer s]
  /\ In (queryTimer s) (timers (handleSendMessage s))
  /\ now (handleSendMessage s) = now s.
Proof.
  intros s [[_ _ Htm _] _] Hg Hs. unfold canSend in Hg.
  apply negb_true_iff in Hg. unfold handleSendMessage. rewrite Hg.
  pose proof (cleared_no_loading _ _ _ Htm) as Hclr.
  unfold sendSucceeds in Hs. st_simpl.
  destruct (loadingTimeoutRef s) as [old|]; st_simpl;
    destruct (websocketRef s) as [[| | |]|]; try discriminate; inv_simpl;
    try change (fun t : Timer => negb (tid t =? old)%nat) with (otherThan old);
    change (fun t : Timer => Task_eqb (task t) LoadingTimeoutTask) with isLoadingTimer;
    rewrite !filter_app, Hclr; cbn [filter app];
    (repeat split;
     apply in_or_app; left; apply in_or_app; right; left; reflexivity).
Qed.

Lemma filter_user_free : forall s,
  timedOutTurns (messages s ++ [userTurn s]) = timedOutTurns (messages s).
Proof. intro s. rewrite timedOutTurns_snoc. cbn. lia. Qed.

(** A terminal frame leaves no query timeout pending and clears the flag. *)
Lemma terminal_cancels : forall data s,
  Inv s -> isTerminalFrame data = true ->
  loadingTimers (onmessage (Parsed (JObject data)) s) = []
  /\ isLoading (onmessage (Parsed (JObject data)) s) = false.
Proof.
  intros data s [[_ _ Htm _] _] Hterm. unfold onmessage, loadingTimers.
  destruct (isTerminalFrame_cases data Hterm) as [H|H];
    [destruct (route_result data s H) as (_ & L & T)
    |destruct (route_error data s H) as (_ & L & T)];
    rewrite T, clearIfSet_timers; split; auto;
    apply (cleared_no_loading _ _ _ Htm).
Qed.

(** C5: a query is sent from a reachable state and only quiet events follow
    (no terminal frame, no further submit).  The one timeout timer set for it
    is due 30000 ms after the send; while the clock is before that the timer
    stays pending and no timeout turn is added; once the clock has reached
    it, however much later and however often time advanced, the history holds
    exactly one more "Request timed out" Assistant turn, the loading flag is
    clear and no timeout timer is pending.  A terminal frame at any moment
    leaves no timeout timer pending, and no timeout turn is added after it. *)
Theorem query_timeout_fires_once :
  forall (email : option string) (t0 : Z) (evs later : list Event),
    canSend (run evs (mount email t0)) = true ->
    sendSucceeds (run evs (mount email t0)) = true ->
    forallb quiet later = true ->
    let s := run evs (mount email t0) in
    let s2 := run later (handleSendMessage s) in
    loadingTimers (handleSendMessage s) = [queryTimer s]
    /\ isLoading (handleSendMessage s) = true
    /\ (now s2 < now s + 30000 ->
          In (queryTimer s) (timers s2)
          /\ timedOutTurns (messages s2) = timedOutTurns (messages s))
    /\ (now s + 30000 <= now s2 ->
          timedOutTurns (messages s2) = S (timedOutTurns (messages s))
          /\ isLoading s2 = false /\ loadingTimers s2 = [])
    /\ (forall data after,
          isTerminalFrame data = true -> forallb quiet after = true ->
          loadingTimers (onmessage (Parsed (JObject data)) s2) = []
          /\ timedOutTurns (messages (run after (onmessage (Parsed (JObject data)) s2)))
             = timedOutTurns (messages (onmessage (Parsed (JObject data)) s2))).
Proof.
  intros email t0 evs later Hg Hs Hq s s2.
  pose proof (reachable_Inv email t0 evs) as HI. fold s in HI, Hg, Hs.
  destruct (handleSendMessage_sends s HI Hg Hs) as (Hm & Hl & Hlt & Hin & Hn).
  pose proof (handleSendMessage_Inv s HI) as HI1.
  assert (HT : Tracked (queryTimer s) (timedOutTurns (messages s))
                 (handleSendMessage s)).
  { left. split; [exact Hin|]. rewrite Hm. apply filter_user_free. }
  pose proof (quiet_run_Tracked (queryTimer s) _ later _ Hq HI1 eq_refl HT) as HT2.
  pose proof (run_Inv later _ HI1) as HI2. fold s2 in HT2, HI2.
  destruct (Tracked_outcome _ _ _ HI2 HT2) as [Hbefore Hafter].
  cbn [queryTimer due] in Hbefore, Hafter.
  split; [exact Hlt|]. split; [exact Hl|]. split; [exact Hbefore|]. split.
  - intro H. destruct (Hafter H) as (A & B & C). auto.
  - intros data after Hterm Hqa.
    destruct (terminal_cancels data s2 HI2 Hterm) as [Hnone Hload].
    split; [exact Hnone|].
    pose proof (onmessage_Inv (Parsed (JObject data)) s2 HI2) as HI3.
    assert (HS : Settled (now (onmessage (Parsed (JObject data)) s2))
                   (timedOutTurns (messages (onmessage (Parsed (JObject data)) s2)))
                   (onmessage (Parsed (JObject data)) s2)).
    { repeat split; auto. lia. }
    destruct (quiet_run_Settled _ _ after _ Hqa HI3 HS) as (_ & Hc & _).
    exact Hc.
Qed.

Lemma query_timeout_fires_once_witness :
  timedOutTurns
    (messages (run waitingTrace
                 (handleSendMessage (run readyTrace (mount (Some "u@example.com") 0)))))
  = 1%nat.
Proof.
  assert (H : 0 + 30000 <= 90100) by lia.
  exact (proj1 (proj1 (proj2 (proj2 (proj2
           (query_timeout_fires_once (Some "u@example.com") 0 readyTrace
              waitingTrace eq_refl eq_refl eq_refl)))) H)).
Defined.

(** ** At most one query timeout *)

Lemma loadingTimers_at_most_one : forall s,
  Inv s -> (List.length (loadingTimers s) <= 1)%nat.
Proof.
  intros s [[_ _ (Href & _ & Hnd) _] _]. unfold loadingTimers.
  change (fun t : Timer => Task_eqb (task t) LoadingTimeoutTask) with isLoadingTimer.
  destruct (filter isLoadingTimer (timers s)) as [|a [|b r]] eqn:E;
    [cbn; lia|cbn; lia|exfalso].
  assert (Ha : In a (timers s) /\ isLoadingTimer a = true)
    by (apply filter_In; rewrite E; left; reflexivity).
  assert (Hb : In b (timers s) /\ isLoadingTimer b = true)
    by (apply filter_In; rewrite E; right; left; reflexivity).
  destruct Ha as [Ha Hal]. destruct Hb as [Hb Hbl].
  assert (Hdup : NoDup (map tid (filter isLoadingTimer (timers s))))
    by (apply NoDup_map_filter; exact Hnd).
  rewrite E in Hdup. cbn [map] in Hdup. inversion Hdup as [|? ? Hn _].
  apply Hn. left.
  pose proof (Href a Ha Hal). pose proof (Href b Hb Hbl). congruence.
Qed.

(** The effect cleanup, which ends the session, does cancel the timeout. *)
Lemma cleanup_cancels_timeout : forall s,
  Inv s -> loadingTimers (cleanup s) = [].
Proof.
  intros s [[_ _ Htm _] _]. unfold cleanup, loadingTimers.
  destruct (reconnectTimeoutRef s) as [r|]; st_simpl.
  - pose proof (cleared_no_loading _ _ _
                  (TimersOk_filter (otherThan r) _ _ _ Htm)) as H.
    destruct (loadingTimeoutRef s); exact H.
  - pose proof (cleared_no_loading _ _ _ Htm) as H.
    destruct (loadingTimeoutRef s); exact H.
Qed.

(** ** The connection closes while a query is in flight *)

(** C10: in a reachable state with the loading flag set, a timeout timer is
    pending; the close handler clears the flag and removes every provisional
    turn but leaves that timer pending under its handle; if only quiet events
    follow, the timer is still pending while the clock is before its due
    time, and once the clock has reached it the history holds one more
    "Request timed out" Assistant turn than at the close. *)
Theorem close_keeps_query_timeout :
  forall (email : option string) (t0 : Z) (evs later : list Event) (code : Z),
    isLoading (run evs (mount email t0)) = true ->
    forallb quiet later = true ->
    let s := run evs (mount email t0) in
    let s1 := onclose code s in
    let s2 := run later s1 in
    exists tm,
      loadingTimers s = [tm]
      /\ isLoading s1 = false
      /\ filter provisional (messages s1) = []
      /\ loadingTimers s1 = [tm]
      /\ loadingTimeoutRef s1 = Some (tid tm)
      /\ (now s2 < due tm ->
            In tm (timers s2)
            /\ timedOutTurns (messages s2) = timedOutTurns (messages s))
      /\ (due tm <= now s2 ->
            timedOutTurns (messages s2) = S (timedOutTurns (messages s))
            /\ loadingTimers s2 = []).
Proof.
  intros email t0 evs later code Hload Hq s s1 s2.
  pose proof (reachable_Inv email t0 evs) as HI. fold s in HI, Hload.
  pose proof HI as [[Hh _ Htm Hf] _].
  pose proof Htm as (Href & _ & Hnd).
  (* the pending timeout timer *)
  assert (Hone : exists tm, loadingTimers s = [tm]).
  { specialize (Hf Hload). pose proof (loadingTimers_at_most_one s HI) as Hle.
    destruct (loadingTimers s) as [|a [|b r]]; [congruence|eauto|].
    cbn in Hle. lia. }
  destruct Hone as (tm & Hone). exists tm.
  assert (Hin : In tm (timers s) /\ isLoadingTimer tm = true).
  { apply filter_In. unfold loadingTimers in Hone.
    change isLoadingTimer with (fun t : Timer => Task_eqb (task t) LoadingTimeoutTask).
    rewrite Hone. left. reflexivity. }
  destruct Hin as [Hin Hl].
  destruct (onclose_calm code s Hh) as (Hc & Ht & _ & Hn). fold s1 in Hc, Ht, Hn.
  pose proof (onclose_Inv code s HI) as HI1. fold s1 in HI1.
  assert (Hin1 : In tm (timers s1)).
  { destruct Ht as [Ht|(t & Ht & _)]; rewrite Ht; [exact Hin|].
    apply in_or_app. left. exact Hin. }
  assert (Hlt1 : loadingTimers s1 = [tm]).
  { unfold loadingTimers in *. destruct Ht as [Ht|(t & Ht & Htl)]; rewrite Ht;
      [exact Hone|].
    change (fun t : Timer => Task_eqb (task t) LoadingTimeoutTask) with isLoadingTimer.
    rewrite loadingTimers_snoc_other; [exact Hone|exact Htl]. }
  assert (HT : Tracked tm (timedOutTurns (messages s)) s1)
    by (left; split; [exact Hin1|exact Hc]).
  pose proof (quiet_run_Tracked _ _ later _ Hq HI1 Hl HT) as HT2.
  pose proof (run_Inv later _ HI1) as HI2. fold s2 in HT2, HI2.
  destruct (Tracked_outcome _ _ _ HI2 HT2) as [Hbefore Hafter].
  assert (Hmsg : messages s1 = filter notProcessing (messages s)).
  { subst s1. unfold onclose.
    destruct (negb (code =? 1000)); st_simpl;
      [destruct (reconnectAttempts s <? maxReconnectAttempts)%nat; st_simpl|];
      try (destruct (maxReconnectAttempts <=? reconnectAttempts s)%nat; st_simpl);
      reflexivity. }
  assert (Hflag : isLoading s1 = false /\ loadingTimeoutRef s1 = loadingTimeoutRef s).
  { subst s1. unfold onclose.
    destruct (negb (code =? 1000)); st_simpl;
      [destruct (reconnectAttempts s <? maxReconnectAttempts)%nat; st_simpl|];
      try (destruct (maxReconnectAttempts <=? reconnectAttempts s)%nat; st_simpl);
      split; reflexivity. }
  destruct Hflag as [Hflag Hr].
  split; [exact Hone|]. split; [exact Hflag|]. split.
  { rewrite Hmsg, (filter_notProcessing_provisional _ Hh).
    clear. induction (messages s) as [|x l IH]; [reflexivity|].
    cbn [filter]. destruct (provisional x) eqn:E; cbn [negb]; [exact IH|].
    cbn [filter]. rewrite E. exact IH. }
  split; [exact Hlt1|]. split; [rewrite Hr; apply (Href tm Hin Hl)|].
  split; [exact Hbefore|].
  intro H. destruct (Hafter H) as (A & B & _). auto.
Qed.

Lemma close_keeps_query_timeout_witness :
  exists tm,
    loadingTimers (run inFlightTrace (mount (Some "u@example.com") 0)) = [tm]
    /\ isLoading (onclose 1006 (run inFlightTrace (mount (Some "u@example.com") 0)))
       = false.
Proof.
  destruct (close_keeps_query_timeout (Some "u@example.com") 0 inFlightTrace
              afterCloseTrace 1006 eq_refl eq_refl) as (tm & H1 & H2 & _).
  exists tm. split; assumption.
Defined.

(** ** The gate on submission *)

Lemma trim_empty : trim "" = "".
Proof. reflexivity. Qed.

Lemma handleSendMessage_blocked : forall s,
  canSend s = false -> handleSendMessage s = s.
Proof.
  intros s H. unfold canSend in H. apply negb_false_iff in H.
  unfold handleSendMessage. rewrite H. reflexivity.
Qed.

Lemma handleSendMessage_clears_input : forall s,
  canSend s = true -> inputValue (handleSendMessage s) = "".
Proof.
  intros s H. unfold canSend in H. apply negb_true_iff in H.
  unfold handleSendMessage. rewrite H. st_simpl.
  destruct (loadingTimeoutRef s); st_simpl;
    destruct (websocketRef s) as [[| | |]|]; reflexivity.
Qed.

(** A call that goes through empties the input, so the next one returns at
    the guard. *)
Lemma handleSendMessage_twice : forall s,
  handleSendMessage (handleSendMessage s) = handleSendMessage s.
Proof.
  intro s. destruct (canSend s) eqn:E.
  - apply handleSendMessage_blocked. unfold canSend.
    rewrite (handleSendMessage_clears_input s E), trim_empty. reflexivity.
  - rewrite (handleSendMessage_blocked s E). apply handleSendMessage_blocked, E.
Qed.

(** * Further properties of the component *)

(** ** How the history evolves *)

Lemma filter_all : forall (l : list Message), filter (fun _ => true) l = l.
Proof. induction l as [|x l IH]; [reflexivity|]. cbn. rewrite IH. reflexivity. Qed.

Lemma Evolves_refl : forall l, Evolves l l.
Proof.
  intro l. exists (fun _ => true), []. rewrite app_nil_r, filter_all.
  repeat split; auto; intros ? [].
Qed.

Lemma Evolves_snoc : forall l m, content m <> "" -> Evolves l (l ++ [m]).
Proof.
  intros l m H. exists (fun _ => true), [m]. rewrite filter_all.
  repeat split; auto; intros x [Hx|[]]; subst x; exact H.
Qed.

Lemma Evolves_filter_snoc : forall p l m,
  (forall x, In x l -> provisional x = false -> p x = true) ->
  content m <> "" -> Evolves l (filter p l ++ [m]).
Proof.
  intros p l m Hp H. exists p, [m]. repeat split; auto.
  intros x [Hx|[]]. subst x. exact H.
Qed.

Lemma Evolves_filter : forall p l,
  (forall x, In x l -> provisional x = false -> p x = true) ->
  Evolves l (filter p l).
Proof.
  intros p l Hp. exists p, []. rewrite app_nil_r. repeat split; auto;
    intros ? [].
Qed.

Lemma filter_filter_and : forall (p q : Message -> bool) l,
  filter q (filter p l) = filter (fun m => p m && q m) l.
Proof.
  intros p q l. induction l as [|x l IH]; [reflexivity|].
  cbn [filter]. destruct (p x); cbn [andb filter]; [|exact IH].
  destruct (q x); rewrite IH; reflexivity.
Qed.

Lemma Evolves_trans : forall l1 l2 l3,
  Evolves l1 l2 -> Evolves l2 l3 -> Evolves l1 l3.
Proof.
  intros l1 l2 l3 (p & a & E1 & K1 & C1) (q & b & E2 & K2 & C2).
  exists (fun m => p m && q m), (filter q a ++ b). subst l2 l3.
  rewrite filter_app, filter_filter_and, app_assoc. repeat split.
  - intros m Hm Hn. rewrite (K1 m Hm Hn). cbn.
    apply K2; [|exact Hn]. apply in_or_app. left. apply filter_In.
    split; [exact Hm|apply K1; assumption].
  - intros m Hm. apply in_app_or in Hm. destruct Hm as [Hm|Hm].
    + apply filter_In in Hm. apply C1. tauto.
    + apply C2. exact Hm.
Qed.

Lemma notProcessing_keeps : forall l,
  historyOk l = true ->
  forall x, In x l -> provisional x = false -> notProcessing x = true.
Proof.
  intros l H x Hx Hp. unfold notProcessing.
  rewrite (historyOk_In l x H Hx), Hp. reflexivity.
Qed.

Lemma notIntermediate_keeps : forall (l : list Message) x,
  In x l -> provisional x = false -> notIntermediate x = true.
Proof.
  intros l x _ Hp. unfold notIntermediate, provisional in *.
  destruct (type x); try discriminate; reflexivity.
Qed.

Lemma orElse_nonempty : forall x d, d <> "" -> orElse x d <> "".
Proof.
  intros [s|] d Hd; cbn; [|exact Hd].
  destruct (s =? "")%string eqn:E; [exact Hd|].
  apply String.eqb_neq. exact E.
Qed.

Lemma intermediateMessage_nonempty : forall data, intermediateMessage data <> "".
Proof.
  intro data. unfold intermediateMessage.
  destruct (ws_results_count data) as [n|];
    [destruct (n =? 0)|]; try (apply orElse_nonempty; discriminate).
  cbn. discriminate.
Qed.

Lemma trim_nonempty : forall s, (trim s =? "")%string = false -> s <> "".
Proof. intros s H E. subst s. cbn in H. discriminate. Qed.

Lemma handleWebSocketMessage_Evolves : forall v s,
  historyOk (messages s) = true ->
  Evolves (messages s) (messages (handleWebSocketMessage v s)).
Proof.
  intros v s Hh. unfold handleWebSocketMessage.
  destruct v as [| | |data]; try apply Evolves_refl.
  destruct (ws_type data) as [ty|]; [|apply Evolves_refl].
  destruct (ty =? "")%string; [apply Evolves_refl|].
  destruct (ty =? "connection")%string; [apply Evolves_refl|].
  destruct (ty =? "status")%string.
  { st_simpl. apply Evolves_snoc. cbn. apply orElse_nonempty. discriminate. }
  destruct (ty =? "intermediate")%string.
  { st_simpl. apply (Evolves_filter_snoc notIntermediate).
    - apply notIntermediate_keeps.
    - cbn. apply intermediateMessage_nonempty. }
  destruct (ty =? "result")%string.
  { st_simpl. destruct (loadingTimeoutRef s); st_simpl;
      (apply (Evolves_filter_snoc notProcessing);
       [apply notProcessing_keeps; exact Hh
       |cbn; apply orElse_nonempty; discriminate]). }
  destruct (ty =? "error")%string.
  { st_simpl. destruct (loadingTimeoutRef s); st_simpl;
      (apply (Evolves_filter_snoc notProcessing);
       [apply notProcessing_keeps; exact Hh|cbn; discriminate]). }
  apply Evolves_refl.
Qed.

Lemma onclose_messages : forall code s,
  messages (onclose code s) = filter notProcessing (messages s).
Proof.
  intros code s. unfold onclose.
  destruct (negb (code =? 1000)); st_simpl;
    [destruct (reconnectAttempts s <? maxReconnectAttempts)%nat; st_simpl|];
    try (destruct (maxReconnectAttempts <=? reconnectAttempts s)%nat; st_simpl);
    reflexivity.
Qed.

Lemma handleSendMessage_messages : forall s,
  messages (handleSendMessage s)
  = if canSend s then messages s ++ [userTurn s] else messages s.
Proof.
  intro s. unfold canSend, handleSendMessage.
  destruct ((trim (inputValue s) =? "")%string
            || negb (ConnectionStatus_eqb (connectionStatus s) connected)
            || negb (isUserAuthenticated s)); cbn [negb]; [reflexivity|].
  st_simpl. destruct (loadingTimeoutRef s); st_simpl;
    destruct (websocketRef s) as [[| | |]|]; reflexivity.
Qed.

Lemma canSend_nonblank : forall s,
  canSend s = true -> (trim (inputValue s) =? "")%string = false.
Proof.
  intros s H. unfold canSend in H. apply negb_true_iff in H.
  apply orb_false_iff in H. destruct H as [H _].
  apply orb_false_iff in H. tauto.
Qed.

Lemma handleSendMessage_Evolves : forall s,
  Evolves (messages s) (messages (handleSendMessage s)).
Proof.
  intro s. rewrite handleSendMessage_messages.
  destruct (canSend s) eqn:E; [|apply Evolves_refl].
  apply Evolves_snoc. cbn. apply trim_nonempty, canSend_nonblank, E.
Qed.

Lemma fireTimer_Evolves : forall x s,
  historyOk (messages s) = true ->
  Evolves (messages s) (messages (fireTimer x s)).
Proof.
  intros x s Hh. unfold fireTimer.
  destruct (pending (tid x) s); [|apply Evolves_refl].
  destruct (task x); cbn [runTask].
  - unfold reconnectFired.
    destruct (connectWebSocket_core
                (setReconnectAttempts
                   (S (reconnectAttempts
                         (setNow (Z.max (now s) (due x)) (clearTimeout (tid x) s))))
                   (setNow (Z.max (now s) (due x)) (clearTimeout (tid x) s))))
      as (H1 & _).
    rewrite H1. st_simpl. apply Evolves_refl.
  - unfold loadingTimeoutFired. st_simpl.
    apply (Evolves_filter_snoc notProcessing);
      [apply notProcessing_keeps; exact Hh|cbn; discriminate].
  - unfold initialStatusFired. st_simpl. apply Evolves_snoc. cbn. discriminate.
Qed.

Lemma advance_Evolves : forall dt s,
  Inv s -> Evolves (messages s) (messages (advance dt s)).
Proof.
  intros dt s HI.
  apply (advance_Inv_with (fun s' => Evolves (messages s) (messages s')) dt s HI).
  - apply Evolves_refl.
  - intros x s' _ [Hh _ _ _] _ HE.
    apply (Evolves_trans _ (messages s')); [exact HE|].
    apply fireTimer_Evolves. exact Hh.
  - intros s' t HE _. exact HE.
Qed.

Lemma step_Evolves : forall e s,
  Inv s -> isClearChat e = false ->
  Evolves (messages s) (messages (step e s)).
Proof.
  intros e s HI Hc. pose proof HI as [[Hh _ _ _] _]. destruct e; cbn [step].
  - destruct (websocketRef s) as [[| | |]|]; apply Evolves_refl.
  - destruct (websocketRef s) as [[| | |]|]; try apply Evolves_refl.
    destruct d as [|v]; [apply Evolves_refl|].
    apply handleWebSocketMessage_Evolves. exact Hh.
  - destruct (websocketRef s) as [[| | |]|]; try apply Evolves_refl;
      rewrite onclose_messages; apply Evolves_filter;
      apply notProcessing_keeps; exact Hh.
  - destruct (websocketRef s) as [[| | |]|]; apply Evolves_refl.
  - destruct (typeInput_core v s) as (H & _). rewrite H. apply Evolves_refl.
  - unfold pressKey, handleKeyPress. destruct (inputDisabled s); [apply Evolves_refl|].
    destruct ((key =? "Enter")%string && negb shiftKey); [|apply Evolves_refl].
    apply handleSendMessage_Evolves.
  - unfold clickSend. destruct (sendDisabled s); [apply Evolves_refl|].
    apply handleSendMessage_Evolves.
  - destruct (clickSuggestion_core n s) as (H & _). rewrite H. apply Evolves_refl.
  - discriminate.
  - destruct (clickReconnect_core s) as (H & _). rewrite H. apply Evolves_refl.
  - apply advance_Evolves. exact HI.
  - destruct (websocketRef s) as [[| | |]|]; apply Evolves_refl.
  - destruct (replacedSockets s); apply Evolves_refl.
  - destruct (replacedSockets s); [apply Evolves_refl|].
    rewrite onclose_messages. apply Evolves_filter.
    apply notProcessing_keeps. exact Hh.
Qed.

Lemma run_Evolves : forall evs s,
  Inv s -> forallb (fun e => negb (isClearChat e)) evs = true ->
  Evolves (messages s) (messages (run evs s)).
Proof.
  induction evs as [|e evs IH]; intros s HI Hc; [apply Evolves_refl|].
  cbn [forallb] in Hc. apply andb_true_iff in Hc. destruct Hc as [He Hc].
  apply negb_true_iff in He. cbn [run fold_left].
  apply (Evolves_trans _ (messages (step e s))).
  - apply step_Evolves; assumption.
  - apply IH; [apply step_Inv, HI|exact Hc].
Qed.

Lemma nonProvisional_filter : forall p l,
  (forall m, In m l -> provisional m = false -> p m = true) ->
  nonProvisional (filter p l) = nonProvisional l.
Proof.
  intros p l H. unfold nonProvisional. induction l as [|x l IH]; [reflexivity|].
  assert (IH' : filter (fun m => negb (provisional m)) (filter p l)
                = filter (fun m => negb (provisional m)) l).
  { apply IH. intros m Hm. apply H. right. exact Hm. }
  cbn [filter]. destruct (provisional x) eqn:E; cbn [negb].
  - destruct (p x); cbn [filter]; rewrite ?E; cbn [negb]; exact IH'.
  - rewrite (H x (or_introl eq_refl) E). cbn [filter]. rewrite E. cbn [negb].
    rewrite IH'. reflexivity.
Qed.

(** X1: the User and Assistant turns are append-only.  Along any events
    from a reachable state that do not include a click on "Clear Chat", the
    turns that are neither Status nor Intermediate keep their order and
    none is removed: the later list is the earlier one followed by new
    turns. *)
Theorem history_append_only :
  forall (email : option string) (t0 : Z) (evs later : list Event),
    forallb (fun e => negb (isClearChat e)) later = true ->
    exists added,
      nonProvisional (messages (run later (run evs (mount email t0))))
      = nonProvisional (messages (run evs (mount email t0))) ++ added.
Proof.
  intros email t0 evs later Hc.
  destruct (run_Evolves later _ (reachable_Inv email t0 evs) Hc)
    as (p & app & E & K & _).
  exists (nonProvisional app). rewrite E. unfold nonProvisional at 1.
  rewrite filter_app. fold (nonProvisional (filter p (messages (run evs (mount email t0))))).
  rewrite (nonProvisional_filter p _ K). reflexivity.
Qed.

Lemma history_append_only_witness :
  exists added,
    nonProvisional (messages (run afterCloseTrace
                                (run inFlightTrace (mount (Some "u@example.com") 0))))
    = nonProvisional (messages (run inFlightTrace (mount (Some "u@example.com") 0)))
      ++ added.
Proof.
  exact (history_append_only (Some "u@example.com") 0 inFlightTrace
           afterCloseTrace eq_refl).
Defined.

(** ** Turns always carry text *)

Lemma Evolves_allText : forall l l', Evolves l l' -> allText l -> allText l'.
Proof.
  intros l l' (p & app & E & _ & C) H m Hm. subst l'.
  apply in_app_or in Hm. destruct Hm as [Hm|Hm].
  - apply filter_In in Hm. apply H. tauto.
  - apply C. exact Hm.
Qed.

Lemma clickClearChat_messages : forall s,
  messages (clickClearChat s) = messages s
  \/ messages (clickClearChat s)
     = [{| id := "1"; type := assistant; content := clearedGreeting;
           timestamp := now s; isProcessing := None |}].
Proof.
  intro s. unfold clickClearChat. destruct (suggestionsShown s); [right|left];
    reflexivity.
Qed.

Lemma step_allText : forall e s,
  Inv s -> allText (messages s) -> allText (messages (step e s)).
Proof.
  intros e s HI H. destruct (isClearChat e) eqn:E.
  - destruct e; try discriminate. cbn [step].
    destruct (clickClearChat_messages s) as [R|R]; rewrite R; [exact H|].
    intros m [Hm|[]]. subst m. cbn. discriminate.
  - apply (Evolves_allText (messages s)); [|exact H].
    apply step_Evolves; assumption.
Qed.

(** X2: no turn of a reachable history has empty text, whatever the frames
    carried: missing or empty frame fields fall back to fixed texts and blank
    input is never submitted. *)
Theorem turns_never_empty :
  forall (email : option string) (t0 : Z) (evs : list Event) (m : Message),
    In m (messages (run evs (mount email t0))) -> content m <> "".
Proof.
  intros email t0 evs.
  assert (H : forall evs s, Inv s -> allText (messages s) ->
                            allText (messages (run evs s))).
  { clear. induction evs as [|e evs IH]; intros s HI H; [exact H|].
    cbn [run fold_left]. apply IH; [apply step_Inv, HI|].
    apply step_allText; assumption. }
  apply H; [apply mount_Inv|].
  assert (Hm : messages (mount email t0) = messages (initialState email t0)).
  { unfold mount, effect. destruct (isUserAuthenticated (initialState email t0)).
    - apply connectWebSocket_core.
    - reflexivity. }
  rewrite Hm. intros m [Hm'|[]]. subst m. cbn. discriminate.
Qed.

Lemma turns_never_empty_witness :
  content (resultTurn emptyResultFrame (initialState None 0)) <> "".
Proof.
  apply (turns_never_empty (Some "u@example.com") 0
           [EvOpen; EvMessage (Parsed (JObject emptyResultFrame))]).
  vm_compute. right. left. reflexivity.
Defined.

(** ** The greeting stays on top *)

Lemma Evolves_head : forall m l l',
  Evolves (m :: l) l' -> provisional m = false -> exists rest, l' = m :: rest.
Proof.
  intros m l l' (p & app & E & K & _) Hm. subst l'. cbn [filter].
  rewrite (K m (or_introl eq_refl) Hm). eexists. reflexivity.
Qed.

Lemma step_greetingOnTop : forall e s,
  Inv s -> greetingOnTop (messages s) -> greetingOnTop (messages (step e s)).
Proof.
  intros e s HI (m & rest & E & G). destruct (isClearChat e) eqn:Ec.
  - destruct e; try discriminate. cbn [step].
    destruct (clickClearChat_messages s) as [R|R]; rewrite R.
    + exists m, rest. split; assumption.
    + eexists. exists []. split; [reflexivity|].
      repeat split. right. reflexivity.
  - pose proof (step_Evolves e s HI Ec) as HE. rewrite E in HE.
    destruct G as (G1 & G2 & G3).
    destruct (Evolves_head m rest _ HE) as (rest' & R).
    + unfold provisional. rewrite G2. reflexivity.
    + exists m, rest'. repeat split; assumption.
Qed.

(** X3: every reachable history is non-empty and its first turn is a
    greeting: the Assistant turn with id "1" whose text is the initial
    greeting or, after "Clear Chat", the shorter one.  No frame, timeout or
    close ever removes or replaces it. *)
Theorem greeting_stays_on_top :
  forall (email : option string) (t0 : Z) (evs : list Event),
    greetingOnTop (messages (run evs (mount email t0))).
Proof.
  intros email t0 evs.
  assert (H : forall evs s, Inv s -> greetingOnTop (messages s) ->
                            greetingOnTop (messages (run evs s))).
  { clear. induction evs as [|e evs IH]; intros s HI H; [exact H|].
    cbn [run fold_left]. apply IH; [apply step_Inv, HI|].
    apply step_greetingOnTop; assumption. }
  apply H; [apply mount_Inv|].
  assert (Hm : messages (mount email t0) = messages (initialState email t0)).
  { unfold mount, effect. destruct (isUserAuthenticated (initialState email t0)).
    - apply connectWebSocket_core.
    - reflexivity. }
  rewrite Hm. eexists. exists []. split; [reflexivity|].
  repeat split. left. reflexivity.
Qed.

(** ** No second submission while a query is in flight *)

Lemma nonProvisional_app : forall l1 l2,
  nonProvisional (l1 ++ l2) = nonProvisional l1 ++ nonProvisional l2.
Proof. intros. unfold nonProvisional. apply filter_app. Qed.

Lemma Evolves_count : forall l l',
  Evolves l l' ->
  (List.length (nonProvisional l) <= List.length (nonProvisional l'))%nat.
Proof.
  intros l l' (p & app & E & K & _). subst l'.
  rewrite nonProvisional_app, (nonProvisional_filter p l K), length_app. lia.
Qed.

Lemma nonProvisional_length : forall l,
  (List.length (nonProvisional l) <= List.length l)%nat.
Proof. intro l. unfold nonProvisional. apply filter_length_le. Qed.

Lemma headOk_count : forall l,
  headOk l = true -> (1 <= List.length (nonProvisional l))%nat.
Proof.
  intros [|m l] H; [discriminate|]. cbn [headOk] in H.
  apply andb_true_iff in H. destruct H as [H _].
  apply andb_true_iff in H. destruct H as [H _].
  unfold nonProvisional. cbn [filter]. unfold provisional at 1.
  destruct (type m); try discriminate. cbn. lia.
Qed.

Lemma Gate_hidden : forall s,
  Gate s -> isLoading s = true -> suggestionsShown s = false.
Proof.
  intros s G H. destruct (G H) as [_ Hc]. unfold suggestionsShown.
  apply Nat.eqb_neq. pose proof (nonProvisional_length (messages s)). lia.
Qed.

Lemma connectWebSocket_input : forall s,
  inputValue (connectWebSocket s) = inputValue s.
Proof.
  intro s. unfold connectWebSocket.
  destruct (negb (isUserAuthenticated s)); [reflexivity|].
  destruct (websocketRef s) as [[| | |]|]; st_simpl;
    try destruct (webSocketAccepts _); reflexivity.
Qed.

Lemma handleWebSocketMessage_flags : forall v s,
  inputValue (handleWebSocketMessage v s) = inputValue s
  /\ (isLoading (handleWebSocketMessage v s) = true -> isLoading s = true).
Proof.
  intros v s. unfold handleWebSocketMessage.
  destruct v as [| | |data]; try (split; [reflexivity|auto]).
  destruct (ws_type data) as [ty|]; [|split; [reflexivity|auto]].
  destruct (ty =? "")%string; [split; [reflexivity|auto]|].
  destruct (ty =? "connection")%string; [split; [reflexivity|auto]|].
  destruct (ty =? "status")%string; [split; [reflexivity|auto]|].
  destruct (ty =? "intermediate")%string; [split; [reflexivity|auto]|].
  destruct (ty =? "result")%string.
  { st_simpl. destruct (loadingTimeoutRef s); st_simpl; split;
      try reflexivity; discriminate. }
  destruct (ty =? "error")%string.
  { st_simpl. destruct (loadingTimeoutRef s); st_simpl; split;
      try reflexivity; discriminate. }
  split; [reflexivity|auto].
Qed.

Lemma onclose_isLoading : forall code s, isLoading (onclose code s) = false.
Proof.
  intros code s. unfold onclose.
  destruct (negb (code =? 1000)); st_simpl;
    [destruct (reconnectAttempts s <? maxReconnectAttempts)%nat; st_simpl|];
    try (destruct (maxReconnectAttempts <=? reconnectAttempts s)%nat; st_simpl);
    reflexivity.
Qed.

Lemma handleSendMessage_Gate : forall s,
  Inv s -> Gate s -> Gate (handleSendMessage s).
Proof.
  intros s [[_ Hd _ _] _] G. destruct (canSend s) eqn:E.
  - intros _. split; [apply handleSendMessage_clears_input, E|].
    rewrite handleSendMessage_messages, E, nonProvisional_app, length_app.
    pose proof (headOk_count _ Hd). cbn. lia.
  - rewrite (handleSendMessage_blocked s E). exact G.
Qed.

Lemma fireTimer_Gate : forall x s,
  historyOk (messages s) = true -> Gate s -> Gate (fireTimer x s).
Proof.
  intros x s Hh G. pose proof (fireTimer_Evolves x s Hh) as HE.
  apply Evolves_count in HE. revert HE. unfold fireTimer.
  destruct (pending (tid x) s); [|intros _; exact G].
  destruct (task x); cbn [runTask].
  - unfold reconnectFired.
    destruct (connectWebSocket_core
                (setReconnectAttempts
                   (S (reconnectAttempts
                         (setNow (Z.max (now s) (due x)) (clearTimeout (tid x) s))))
                   (setNow (Z.max (now s) (due x)) (clearTimeout (tid x) s))))
      as (H1 & _ & _ & _ & H5 & _).
    intros HE Hl. unfold Gate in G. rewrite H5 in Hl. st_simpl.
    destruct (G Hl) as [Gi Gc]. rewrite connectWebSocket_input. st_simpl.
    split; [exact Gi|lia].
  - intros _ Hl. unfold loadingTimeoutFired in Hl. st_simpl. discriminate.
  - unfold initialStatusFired, Gate. st_simpl. intros HE Hl.
    destruct (G Hl) as [Gi Gc]. split; [exact Gi|lia].
Qed.

Lemma step_Gate : forall e s, Inv s -> Gate s -> Gate (step e s).
Proof.
  intros e s HI G. pose proof HI as [[Hh Hd _ _] _].
  assert (Keep : forall s',
            Evolves (messages s) (messages s') ->
            inputValue s' = inputValue s ->
            (isLoading s' = true -> isLoading s = true) -> Gate s').
  { intros s' HE Hi Hl H'. destruct (G (Hl H')) as [Gi Gc].
    apply Evolves_count in HE. split; [congruence|lia]. }
  destruct e; cbn [step].
  - destruct (websocketRef s) as [[| | |]|]; exact G.
  - destruct (websocketRef s) as [[| | |]|]; try exact G.
    destruct d as [|v]; [exact G|].
    cbn [onmessage]. destruct (handleWebSocketMessage_flags v s) as [Hi Hl].
    apply Keep; [apply handleWebSocketMessage_Evolves; exact Hh|exact Hi|exact Hl].
  - destruct (websocketRef s) as [[| | |]|]; try exact G;
      (intro H'; rewrite onclose_isLoading in H'; discriminate).
  - destruct (websocketRef s) as [[| | |]|]; exact G.
  - unfold typeInput, inputDisabled. destruct (isLoading s) eqn:El; cbn [orb].
    + exact G.
    + destruct (negb (ConnectionStatus_eqb (connectionStatus s) connected)
                || negb (isUserAuthenticated s)); [exact G|].
      intro H'. st_simpl. congruence.
  - unfold pressKey, handleKeyPress. destruct (inputDisabled s); [exact G|].
    destruct ((key =? "Enter")%string && negb shiftKey); [|exact G].
    apply handleSendMessage_Gate; assumption.
  - unfold clickSend. destruct (sendDisabled s); [exact G|].
    apply handleSendMessage_Gate; assumption.
  - unfold clickSuggestion. destruct (isLoading s) eqn:El.
    + rewrite (Gate_hidden s G El). exact G.
    + destruct (suggestionsShown s); [|exact G].
      destruct (nth_error suggestedQueries n); [|exact G].
      intro H'. unfold handleSuggestedQuery in H'. st_simpl. congruence.
  - unfold clickClearChat. destruct (isLoading s) eqn:El.
    + rewrite (Gate_hidden s G El). exact G.
    + destruct (suggestionsShown s); [|exact G].
      intro H'. unfold clearChat in H'. st_simpl. congruence.
  - destruct (clickReconnect_core s) as (Hm & _ & _ & _ & Hl & _).
    apply Keep; [rewrite Hm; apply Evolves_refl| |rewrite Hl; auto].
    unfold clickReconnect. destruct (reconnectShown s); [|reflexivity].
    rewrite connectWebSocket_input. reflexivity.
  - apply (advance_Inv_with Gate dt s HI G).
    + intros x s' _ [Hh' _ _ _] _ G'. apply fireTimer_Gate; assumption.
    + intros s' t G' _. exact G'.
  - destruct (websocketRef s) as [[| | |]|]; exact G.
  - destruct (replacedSockets s); exact G.
  - destruct (replacedSockets s); [exact G|].
    intro H'. rewrite onclose_isLoading in H'. discriminate.
Qed.

Lemma reachable_Gate : forall email t0 evs, Gate (run evs (mount email t0)).
Proof.
  intros email t0 evs.
  assert (H : forall evs s, Inv s -> Gate s -> Gate (run evs s)).
  { clear. induction evs as [|e evs IH]; intros s HI G; [exact G|].
    cbn [run fold_left]. apply IH; [apply step_Inv, HI|apply step_Gate; assumption]. }
  apply H; [apply mount_Inv|].
  intro Hl. exfalso. revert Hl. unfold mount, effect.
  destruct (isUserAuthenticated (initialState email t0)).
  - destruct (connectWebSocket_core (initialState email t0))
      as (_ & _ & _ & _ & Hl & _).
    rewrite Hl. discriminate.
  - discriminate.
Qed.

(** C1: while a query is pending a further submit is refused.  In every
    state the component can reach with the loading flag set, a call of
    [handleSendMessage] returns without any effect: no User turn is
    appended, nothing is sent and no timer is touched.  The refusal is
    silent (the function returns nothing either way).  In every reachable
    state the direct call does what a click on the send button does, so a
    sequence of submit calls is a sequence of events; exactly one query
    timeout is pending while the flag is set and at most one at any time;
    and any number of calls in a row does what the first of them does. *)
Theorem busy_submit_is_refused :
  forall (email : option string) (t0 : Z) (evs : list Event),
    (isLoading (run evs (mount email t0)) = true ->
       handleSendMessage (run evs (mount email t0)) = run evs (mount email t0)
       /\ countType user (messages (handleSendMessage (run evs (mount email t0))))
          = countType user (messages (run evs (mount email t0)))
       /\ exists tm, loadingTimers (run evs (mount email t0)) = [tm])
    /\ handleSendMessage (run evs (mount email t0))
       = step EvClickSend (run evs (mount email t0))
    /\ (List.length (loadingTimers (run evs (mount email t0))) <= 1)%nat
    /\ (forall n,
          Nat.iter (S n) handleSendMessage (run evs (mount email t0))
          = handleSendMessage (run evs (mount email t0))).
Proof.
  intros email t0 evs. set (s := run evs (mount email t0)).
  pose proof (reachable_Gate email t0 evs) as G. fold s in G.
  pose proof (reachable_Inv email t0 evs) as HI. fold s in HI.
  assert (Hbusy : isLoading s = true -> handleSendMessage s = s).
  { intro Hl. destruct (G Hl) as [Gi _].
    apply handleSendMessage_blocked. unfold canSend. rewrite Gi. reflexivity. }
  split; [|split; [|split]].
  - intro Hl. split; [exact (Hbusy Hl)|]. split; [rewrite (Hbusy Hl); reflexivity|].
    pose proof HI as [[_ _ _ Hf] _]. specialize (Hf Hl).
    pose proof (loadingTimers_at_most_one s HI) as Hle.
    destruct (loadingTimers s) as [|a [|b r]]; [congruence|eauto|].
    cbn in Hle. lia.
  - cbn [step]. unfold clickSend, sendDisabled.
    destruct (isLoading s) eqn:Hl.
    + rewrite orb_true_r. cbn [orb]. exact (Hbusy eq_refl).
    + destruct ((trim (inputValue s) =? "")%string || false
                || negb (ConnectionStatus_eqb (connectionStatus s) connected)
                || negb (isUserAuthenticated s)) eqn:E; [|reflexivity].
      apply handleSendMessage_blocked. unfold canSend.
      rewrite orb_false_r in E. rewrite E. reflexivity.
  - apply loadingTimers_at_most_one, HI.
  - intro n. induction n as [|n IH]; [reflexivity|].
    change (Nat.iter (S (S n)) handleSendMessage s)
      with (handleSendMessage (Nat.iter (S n) handleSendMessage s)).
    rewrite IH. apply handleSendMessage_twice.
Qed.

Lemma busy_submit_is_refused_witness :
  handleSendMessage (run inFlightTrace (mount (Some "u@example.com") 0))
  = run inFlightTrace (mount (Some "u@example.com") 0).
Proof.
  exact (proj1 (proj1 (busy_submit_is_refused (Some "u@example.com") 0 inFlightTrace)
                  eq_refl)).
Defined.

(** X4: through the rendered controls no second query can be submitted.  In
    every reachable state with the loading flag set the input is empty, so
    [handleSendMessage] returns without effect, as do the send button and
    every key press; and the card with the suggestions and "Clear Chat" is
    not rendered. *)
Theorem no_submit_while_in_flight :
  forall (email : option string) (t0 : Z) (evs : list Event),
    isLoading (run evs (mount email t0)) = true ->
    inputValue (run evs (mount email t0)) = ""
    /\ handleSendMessage (run evs (mount email t0)) = run evs (mount email t0)
    /\ step EvClickSend (run evs (mount email t0)) = run evs (mount email t0)
    /\ (forall key shiftKey,
          step (EvKey key shiftKey) (run evs (mount email t0))
          = run evs (mount email t0))
    /\ suggestionsShown (run evs (mount email t0)) = false.
Proof.
  intros email t0 evs Hl. set (s := run evs (mount email t0)) in *.
  pose proof (reachable_Gate email t0 evs) as G. fold s in G.
  destruct (G Hl) as [Gi _].
  assert (Hb : handleSendMessage s = s).
  { apply handleSendMessage_blocked. unfold canSend. rewrite Gi. reflexivity. }
  split; [exact Gi|]. split; [exact Hb|]. split; [|split].
  - cbn [step]. unfold clickSend. destruct (sendDisabled s); [reflexivity|exact Hb].
  - intros key shiftKey. cbn [step]. unfold pressKey, handleKeyPress.
    destruct (inputDisabled s); [reflexivity|].
    destruct ((key =? "Enter")%string && negb shiftKey); [exact Hb|reflexivity].
  - apply Gate_hidden; assumption.
Qed.

Lemma no_submit_while_in_flight_witness :
  handleSendMessage (run inFlightTrace (mount (Some "u@example.com") 0))
  = run inFlightTrace (mount (Some "u@example.com") 0).
Proof.
  exact (proj1 (proj2 (no_submit_while_in_flight (Some "u@example.com") 0
                         inFlightTrace eq_refl))).
Defined.

(** ** A session without an authenticated user *)

Lemma advance_no_timers : forall dt s,
  timers s = [] -> advance dt s = setNow (now s + Z.max 0 dt) s.
Proof.
  intros dt s H. unfold advance, dueTimers. rewrite H. reflexivity.
Qed.

Lemma step_Inert : forall e s, Inert s -> Inert (step e s).
Proof.
  intros e s (Ha & Hw & Hs & Ht & Hl & Hc & Hm & Ho).
  assert (Hin : inputDisabled s = true)
    by (unfold inputDisabled; rewrite Ha, Hl; destruct (ConnectionStatus_eqb _ _); reflexivity).
  assert (Hsd : sendDisabled s = true)
    by (unfold sendDisabled; rewrite Ha, Hl;
        destruct (trim (inputValue s) =? "")%string;
        destruct (ConnectionStatus_eqb _ _); reflexivity).
  assert (Hr : reconnectShown s = false) by (unfold reconnectShown; rewrite Ha; reflexivity).
  destruct e; cbn [step]; rewrite ?Hw, ?Ho; unfold Inert;
    try solve [repeat split; assumption].
  - unfold typeInput. rewrite Hin. repeat split; assumption.
  - unfold pressKey. rewrite Hin. repeat split; assumption.
  - unfold clickSend. rewrite Hsd. repeat split; assumption.
  - unfold clickSuggestion, handleSuggestedQuery.
    destruct (suggestionsShown s); [|repeat split; assumption].
    destruct (nth_error suggestedQueries n); repeat split; assumption.
  - unfold clickClearChat, clearChat.
    destruct (suggestionsShown s); repeat split; assumption.
  - unfold clickReconnect. rewrite Hr. repeat split; assumption.
  - rewrite (advance_no_timers dt s Ht). repeat split; assumption.
Qed.

Lemma unauthenticated_Inert : forall email t0 evs,
  isUserAuthenticated (initialState email t0) = false ->
  Inert (run evs (mount email t0)).
Proof.
  intros email t0 evs Ha.
  assert (H : forall evs s, Inert s -> Inert (run evs s)).
  { clear. induction evs as [|e evs IH]; intros s H; [exact H|].
    cbn [run fold_left]. apply IH, step_Inert, H. }
  apply H. unfold mount, effect. rewrite Ha. repeat split. exact Ha.
Qed.

(** X5: when no user with an e-mail is signed in, the session stays inert
    under every sequence of events: no socket is created, no frame is sent,
    no timer is set, no query is in flight, the status stays "disconnected"
    and the history keeps its single greeting turn. *)
Theorem unauthenticated_session_inert :
  forall (email : option string) (t0 : Z) (evs : list Event),
    isUserAuthenticated (initialState email t0) = false ->
    Inert (run evs (mount email t0)).
Proof.
  intros email t0 evs Ha.
  assert (H : forall evs s, Inert s -> Inert (run evs s)).
  { clear. induction evs as [|e evs IH]; intros s H; [exact H|].
    cbn [run fold_left]. apply IH, step_Inert, H. }
  apply H. unfold mount, effect. rewrite Ha. repeat split. exact Ha.
Qed.

Lemma unauthenticated_session_inert_witness :
  Inert (run [EvSuggestion 0; EvClickSend; EvReconnect; EvOpen; EvAdvance 5000;
              EvKey "Enter" false]
           (mount None 0)).
Proof.
  exact (unauthenticated_session_inert None 0
           [EvSuggestion 0; EvClickSend; EvReconnect; EvOpen; EvAdvance 5000;
            EvKey "Enter" false] eq_refl).
Defined.

(** ** The session and its socket *)

Lemma connectWebSocket_Link : forall e s, Link e s -> Link e (connectWebSocket s).
Proof.
  intros e s (Hu & Hc & Hs). unfold connectWebSocket, Link, socketUp in *.
  destruct (negb (isUserAuthenticated s)); st_simpl.
  - repeat split; auto. intro X; discriminate X.
  - destruct (websocketRef s) as [[| | |]|] eqn:E; st_simpl;
      try destruct (webSocketAccepts _); st_simpl; repeat split; auto;
      intro X; first [discriminate X|rewrite E; exact (Hc X)].
Qed.

Lemma handleWebSocketMessage_link : forall v s,
  userEmail (handleWebSocketMessage v s) = userEmail s
  /\ connectionStatus (handleWebSocketMessage v s) = connectionStatus s
  /\ websocketRef (handleWebSocketMessage v s) = websocketRef s
  /\ sent (handleWebSocketMessage v s) = sent s.
Proof.
  intros v s. unfold handleWebSocketMessage. break_handler; repeat split.
Qed.

Lemma onclose_link : forall code s,
  userEmail (onclose code s) = userEmail s
  /\ connectionStatus (onclose code s) = disconnected
  /\ sent (onclose code s) = sent s.
Proof.
  intros code s. unfold onclose. break_handler; repeat split.
Qed.

Lemma USER_ID_email : forall e s,
  userEmail s = Some e -> isUserAuthenticated s = true -> USER_ID s = e.
Proof.
  intros e s Hu Ha. unfold USER_ID, isUserAuthenticated in *. rewrite Hu in *.
  cbn. apply negb_true_iff in Ha. rewrite Ha. reflexivity.
Qed.

Lemma canSend_authenticated : forall s,
  canSend s = true ->
  isUserAuthenticated s = true /\ connectionStatus s = connected.
Proof.
  intros s H. unfold canSend in H. apply negb_true_iff in H.
  apply orb_false_iff in H. destruct H as [H Ha].
  apply orb_false_iff in H. destruct H as [_ Hc].
  apply negb_false_iff in Ha. apply negb_false_iff in Hc.
  split; [exact Ha|]. destruct (connectionStatus s); try discriminate. reflexivity.
Qed.

(** What an accepted call over an open socket does to the outbox. *)
Lemma handleSendMessage_open : forall s,
  canSend s = true -> websocketRef s = Some OPEN ->
  sent (handleSendMessage s)
    = sent s ++ [{| out_query := inputValue s; out_user_id := USER_ID s |}]
  /\ toasts (handleSendMessage s) = toasts s
  /\ userEmail (handleSendMessage s) = userEmail s
  /\ connectionStatus (handleSendMessage s) = connectionStatus s
  /\ websocketRef (handleSendMessage s) = websocketRef s.
Proof.
  intros s Hg Hw. unfold canSend in Hg. apply negb_true_iff in Hg.
  unfold handleSendMessage. rewrite Hg. st_simpl.
  destruct (loadingTimeoutRef s); st_simpl; rewrite Hw; st_simpl;
    repeat split; assumption.
Qed.

Lemma handleSendMessage_link : forall s,
  userEmail (handleSendMessage s) = userEmail s
  /\ connectionStatus (handleSendMessage s) = connectionStatus s
  /\ websocketRef (handleSendMessage s) = websocketRef s
  /\ (sent (handleSendMessage s) = sent s
      \/ canSend s = true
         /\ sent (handleSendMessage s)
            = sent s ++ [{| out_query := inputValue s; out_user_id := USER_ID s |}]).
Proof.
  intro s. unfold handleSendMessage, canSend. break_handler; repeat split; auto.
Qed.

Lemma handleSendMessage_Link : forall e s, Link e s -> Link e (handleSendMessage s).
Proof.
  intros e s (Hu & Hc & Hs).
  destruct (handleSendMessage_link s) as (S1 & S2 & S3 & S4).
  unfold Link, socketUp in *. rewrite S1, S2, S3. repeat split; auto.
  destruct S4 as [S4|(Hg & S4)]; rewrite S4; [exact Hs|].
  intros f Hf. apply in_app_or in Hf. destruct Hf as [Hf|[Hf|[]]]; [auto|].
  subst f. cbn. apply USER_ID_email; [exact Hu|].
  apply (canSend_authenticated s Hg).
Qed.

Lemma fireTimer_Link : forall e x s, Link e s -> Link e (fireTimer x s).
Proof.
  intros e x s L. unfold fireTimer. destruct (pending (tid x) s); [|exact L].
  destruct (task x); cbn [runTask].
  - unfold reconnectFired. apply connectWebSocket_Link. exact L.
  - exact L.
  - exact L.
Qed.

Lemma step_Link : forall e ev s, Inv s -> Link e s -> Link e (step ev s).
Proof.
  intros e ev s HI L. pose proof L as (Hu & Hc & Hs). destruct ev; cbn [step].
  - destruct (websocketRef s) as [[| | |]|]; try exact L.
    unfold Link, onopen. st_simpl. repeat split; auto.
  - destruct (websocketRef s) as [[| | |]|] eqn:E; try exact L.
    destruct d as [|v]; [exact L|]. cbn [onmessage].
    destruct (handleWebSocketMessage_link v s) as (H1 & H2 & H3 & H4).
    unfold Link, socketUp. rewrite H1, H2, H3, H4, E. repeat split; auto.
  - destruct (websocketRef s) as [[| | |]|]; try exact L;
      match goal with
      | |- Link e (onclose ?c ?s') =>
          destruct (onclose_link c s') as (H1 & H2 & H3);
          unfold Link; rewrite H1, H2, H3; repeat split; auto;
          intro X; discriminate X
      end.
  - destruct (websocketRef s) as [[| | |]|]; try exact L;
      (unfold Link, onerror; st_simpl; repeat split; auto;
       intro X; discriminate X).
  - unfold typeInput. destruct (inputDisabled s); exact L.
  - unfold pressKey, handleKeyPress. destruct (inputDisabled s); [exact L|].
    destruct ((key =? "Enter")%string && negb shiftKey); [|exact L].
    apply handleSendMessage_Link, L.
  - unfold clickSend. destruct (sendDisabled s); [exact L|].
    apply handleSendMessage_Link, L.
  - unfold clickSuggestion. destruct (suggestionsShown s); [|exact L].
    destruct (nth_error suggestedQueries n); exact L.
  - unfold clickClearChat. destruct (suggestionsShown s); exact L.
  - unfold clickReconnect. destruct (reconnectShown s); [|exact L].
    apply connectWebSocket_Link. exact L.
  - apply (advance_Inv_with (Link e) dt s HI L).
    + intros x s' _ _ _ L'. apply fireTimer_Link, L'.
    + intros s' t L' _. exact L'.
  - destruct (websocketRef s) as [[| | |]|]; try exact L.
    unfold Link, socketUp. st_simpl. repeat split; auto.
  - destruct (replacedSockets s); [exact L|].
    unfold Link, onerror. st_simpl. repeat split; auto. intro X; discriminate X.
  - destruct (replacedSockets s) as [|n]; [exact L|].
    destruct (onclose_link code (setReplacedSockets n s)) as (H1 & H2 & H3).
    unfold Link. rewrite H1, H2, H3. repeat split; auto. intro X; discriminate X.
Qed.

Lemma mount_Link : forall e t0, Link e (mount (Some e) t0).
Proof.
  intros e t0. unfold mount, effect.
  destruct (isUserAuthenticated (initialState (Some e) t0)).
  - apply connectWebSocket_Link.
    repeat split; [intro X; discriminate X|intros f []].
  - repeat split; [intro X; discriminate X|intros f []].
Qed.

Lemma reachable_Link : forall e t0 evs, Link e (run evs (mount (Some e) t0)).
Proof.
  intros e t0 evs.
  assert (H : forall evs s, Inv s -> Link e s -> Link e (run evs s)).
  { clear. induction evs as [|ev evs IH]; intros s HI L; [exact L|].
    cbn [run fold_left]. apply IH; [apply step_Inv, HI|apply step_Link; assumption]. }
  apply H; [apply mount_Inv|apply mount_Link].
Qed.

(** X6: every frame the session ever sends carries the signed-in user's
    e-mail as [user_id]; the fallback id "user@example.com" is sent only if
    that is the e-mail. *)
Theorem sent_frames_carry_identity :
  forall (e : string) (t0 : Z) (evs : list Event) (f : OutFrame),
    In f (sent (run evs (mount (Some e) t0))) -> out_user_id f = e.
Proof.
  intros e t0 evs f Hf.
  destruct (reachable_Link e t0 evs) as (_ & _ & H). apply H. exact Hf.
Qed.

Lemma sent_frames_carry_identity_witness :
  out_user_id {| out_query := "Show me all expenses"; out_user_id := "a@b.c" |}
  = "a@b.c".
Proof.
  apply (sent_frames_carry_identity "a@b.c" 0 inFlightTrace).
  vm_compute. left. reflexivity.
Defined.

(** What an accepted call over a closing socket does: [send] discards the
    data without throwing. *)
Lemma handleSendMessage_closing : forall s,
  canSend s = true -> websocketRef s = Some CLOSING ->
  sent (handleSendMessage s) = sent s
  /\ toasts (handleSendMessage s) = toasts s.
Proof.
  intros s Hg Hw. unfold canSend in Hg. apply negb_true_iff in Hg.
  unfold handleSendMessage. rewrite Hg. st_simpl.
  destruct (loadingTimeoutRef s); st_simpl; rewrite Hw; st_simpl;
    repeat split; assumption.
Qed.

(** X7: a call of [handleSendMessage] that passes its guard never runs the
    catch block.  In every reachable state the status "connected" is shown
    only over a socket that is open or closing, so [send] does not throw: no
    "Send Error" notification is shown, the loading flag is set and the one
    query timeout is armed.  Over an open socket exactly one frame goes out,
    with the input as typed and the user's e-mail.  Over a closing socket
    (the handshake has started, the close event is still to come) [send]
    discards the frame: nothing goes out and nothing tells the user. *)
Theorem accepted_submit_by_ready_state :
  forall (e : string) (t0 : Z) (evs : list Event),
    canSend (run evs (mount (Some e) t0)) = true ->
    socketUp (run evs (mount (Some e) t0)) = true
    /\ toasts (handleSendMessage (run evs (mount (Some e) t0)))
       = toasts (run evs (mount (Some e) t0))
    /\ isLoading (handleSendMessage (run evs (mount (Some e) t0))) = true
    /\ loadingTimers (handleSendMessage (run evs (mount (Some e) t0)))
       = [queryTimer (run evs (mount (Some e) t0))]
    /\ (websocketRef (run evs (mount (Some e) t0)) = Some OPEN ->
          sent (handleSendMessage (run evs (mount (Some e) t0)))
          = sent (run evs (mount (Some e) t0))
            ++ [{| out_query := inputValue (run evs (mount (Some e) t0));
                   out_user_id := e |}])
    /\ (websocketRef (run evs (mount (Some e) t0)) = Some CLOSING ->
          sent (handleSendMessage (run evs (mount (Some e) t0)))
          = sent (run evs (mount (Some e) t0))).
Proof.
  intros e t0 evs Hg. set (s := run evs (mount (Some e) t0)) in *.
  destruct (reachable_Link e t0 evs) as (Hu & Hc & _). fold s in Hu, Hc.
  destruct (canSend_authenticated s Hg) as [Ha Hconn].
  pose proof (Hc Hconn) as Hup.
  assert (Hs : sendSucceeds s = true).
  { unfold sendSucceeds, socketUp in *.
    destruct (websocketRef s) as [[| | |]|]; try discriminate; reflexivity. }
  destruct (handleSendMessage_sends s (reachable_Inv (Some e) t0 evs) Hg Hs)
    as (_ & Hl & Ht & _).
  split; [exact Hup|]. split; [|split; [exact Hl|split; [exact Ht|split]]].
  - unfold socketUp in Hup.
    destruct (websocketRef s) as [[| | |]|] eqn:Hw; try discriminate.
    + apply (handleSendMessage_open s Hg Hw).
    + apply (handleSendMessage_closing s Hg Hw).
  - intro Hw. destruct (handleSendMessage_open s Hg Hw) as (S1 & _).
    rewrite (USER_ID_email e s Hu Ha) in S1. exact S1.
  - intro Hw. apply (handleSendMessage_closing s Hg Hw).
Qed.

Lemma accepted_submit_by_ready_state_witness :
  sent (handleSendMessage (run closingTrace (mount (Some "u@example.com") 0))) = []
  /\ isLoading (handleSendMessage (run closingTrace (mount (Some "u@example.com") 0)))
     = true.
Proof.
  destruct (accepted_submit_by_ready_state "u@example.com" 0 closingTrace eq_refl)
    as (_ & _ & Hl & _ & _ & Hc).
  split; [exact (Hc eq_refl)|exact Hl].
Defined.

(** ** Reconnection, end to end *)

(** X9: when a reconnect timer fires for a signed-in user, the attempt
    counter grows by one and the history and the loading flag are untouched;
    over a socket that is open or connecting nothing else happens (no second
    socket); otherwise a new socket starts connecting, or, when the
    constructor rejects the URL, the status becomes "error" and the handle
    stays as it was. *)
Theorem reconnect_timer_firing :
  forall (x : Timer) (s : State),
    In x (timers s) -> task x = ReconnectTask -> isUserAuthenticated s = true ->
    reconnectAttempts (fireTimer x s) = S (reconnectAttempts s)
    /\ messages (fireTimer x s) = messages s
    /\ isLoading (fireTimer x s) = isLoading s
    /\ (socketLive s = true ->
          websocketRef (fireTimer x s) = websocketRef s
          /\ connectionStatus (fireTimer x s) = connectionStatus s)
    /\ (socketLive s = false ->
          if webSocketAccepts (wsUrl s) then
            websocketRef (fireTimer x s) = Some CONNECTING
            /\ connectionStatus (fireTimer x s) = connecting
          else
            websocketRef (fireTimer x s) = websocketRef s
            /\ connectionStatus (fireTimer x s) = error).
Proof.
  intros x s Hx Hk Ha. unfold fireTimer. rewrite (In_pending x s Hx), Hk.
  cbn [runTask]. unfold reconnectFired, connectWebSocket, socketLive.
  assert (Ha' : isUserAuthenticated
                  (setReconnectAttempts
                     (S (reconnectAttempts
                           (setNow (Z.max (now s) (due x)) (clearTimeout (tid x) s))))
                     (setNow (Z.max (now s) (due x)) (clearTimeout (tid x) s)))
                = true) by exact Ha.
  rewrite Ha'. cbn [negb]. st_simpl.
  match goal with
  | |- context [webSocketAccepts ?u] =>
      change (webSocketAccepts u) with (webSocketAccepts (wsUrl s))
  end.
  destruct (websocketRef s) as [[| | |]|] eqn:E; st_simpl; rewrite ?E;
    destruct (webSocketAccepts (wsUrl s)); st_simpl; rewrite ?E;
    repeat split; try reflexivity; intros; discriminate.
Qed.

Lemma reconnect_timer_firing_witness :
  reconnectAttempts
    (fireTimer {| tid := 1%nat; due := 1000; task := ReconnectTask |}
       (onclose 1006 (mount (Some "u@example.com") 0))) = 1%nat.
Proof.
  refine (proj1 (reconnect_timer_firing
                   {| tid := 1%nat; due := 1000; task := ReconnectTask |}
                   (onclose 1006 (mount (Some "u@example.com") 0)) _ eq_refl eq_refl)).
  vm_compute. left. reflexivity.
Defined.

(** One failed connection, step by step. *)
Lemma failureCycle_effect : forall code s,
  code <> 1000 -> isUserAuthenticated s = true -> socketLive s = true ->
  webSocketAccepts (wsUrl s) = true ->
  timers s = [] -> (reconnectAttempts s < maxReconnectAttempts)%nat ->
  reconnectAttempts (failureCycle code s) = S (reconnectAttempts s)
  /\ websocketRef (failureCycle code s) = Some CONNECTING
  /\ connectionStatus (failureCycle code s) = connecting
  /\ timers (failureCycle code s) = []
  /\ now (failureCycle code s) = now s + reconnectDelay (reconnectAttempts s)
  /\ userEmail (failureCycle code s) = userEmail s.
Proof.
  intros code s Hc Ha Hl Hu Ht Hn. unfold failureCycle.
  pose proof (reconnectDelay_pos (reconnectAttempts s)) as Hpos.
  set (d := reconnectDelay (reconnectAttempts s)) in *.
  set (s0 := setWebsocketRef (Some CLOSED) s).
  assert (Hstep : step (EvClose code) s = onclose code s0).
  { cbn [step]. unfold socketLive in Hl.
    destruct (websocketRef s) as [[| | |]|]; try discriminate; reflexivity. }
  rewrite Hstep.
  destruct (onclose_schedules code s0 Hc Hn) as (T1 & _).
  set (s1 := onclose code s0) in *.
  assert (F : userEmail s1 = userEmail s /\ websocketRef s1 = Some CLOSED
              /\ reconnectAttempts s1 = reconnectAttempts s /\ now s1 = now s).
  { subst s1 s0. unfold onclose. break_handler; repeat split. }
  destruct F as (F1 & F2 & F3 & F4).
  change (timers s0) with (timers s) in T1. rewrite Ht in T1. cbn [app] in T1.
  change (nextTimerId s0) with (nextTimerId s) in T1.
  change (now s0) with (now s) in T1.
  change (reconnectAttempts s0) with (reconnectAttempts s) in T1. fold d in T1.
  unfold advance, dueTimers. rewrite T1, F4. cbn [filter due].
  assert (Hle : (now s + d <=? now s + Z.max 0 d) = true) by (apply Z.leb_le; lia).
  rewrite Hle. cbn [sortByDue fold_right insertTimer fold_left].
  unfold fireTimer, pending. rewrite T1. cbn [existsb tid task due].
  rewrite Nat.eqb_refl. cbn [orb runTask]. unfold reconnectFired, connectWebSocket.
  st_simpl.
  assert (Ha1 : isUserAuthenticated
                  (setReconnectAttempts (S (reconnectAttempts s1))
                     (setNow (Z.max (now s1) (now s + d))
                        (clearTimeout (nextTimerId s) s1))) = true).
  { unfold isUserAuthenticated in *. st_simpl. rewrite F1. exact Ha. }
  rewrite Ha1. cbn [negb]. rewrite F2. st_simpl.
  rewrite (wsUrl_email s) by exact F1. rewrite Hu. st_simpl. rewrite T1, F1, F3.
  cbn [filter tid]. rewrite Nat.eqb_refl. cbn [negb].
  repeat split. lia.
Qed.

Lemma failures_effect : forall k code s,
  code <> 1000 -> isUserAuthenticated s = true -> socketLive s = true ->
  webSocketAccepts (wsUrl s) = true ->
  timers s = [] -> (reconnectAttempts s + k <= maxReconnectAttempts)%nat ->
  reconnectAttempts (failures k code s) = (reconnectAttempts s + k)%nat
  /\ socketLive (failures k code s) = true
  /\ timers (failures k code s) = []
  /\ now (failures k code s) = now s + delaySum (reconnectAttempts s) k.
Proof.
  induction k as [|k IH]; intros code s Hc Ha Hl Hu Ht Hn.
  - cbn [failures delaySum]. rewrite Nat.add_0_r, Z.add_0_r. auto.
  - cbn [failures delaySum].
    assert (Hn' : (reconnectAttempts s < maxReconnectAttempts)%nat) by lia.
    destruct (failureCycle_effect code s Hc Ha Hl Hu Ht Hn')
      as (C1 & C2 & C3 & C4 & C5 & C6).
    assert (Hu' : webSocketAccepts (wsUrl (failureCycle code s)) = true)
      by (rewrite (wsUrl_email s) by exact C6; exact Hu).
    assert (Ha' : isUserAuthenticated (failureCycle code s) = true)
      by (unfold isUserAuthenticated in *; rewrite C6; exact Ha).
    assert (Hl' : socketLive (failureCycle code s) = true)
      by (unfold socketLive; rewrite C2; reflexivity).
    assert (Hn'' : (reconnectAttempts (failureCycle code s) + k
                    <= maxReconnectAttempts)%nat) by (rewrite C1; lia).
    destruct (IH code (failureCycle code s) Hc Ha' Hl' Hu' C4 Hn'')
      as (I1 & I2 & I3 & I4).
    rewrite I1, I4, C1, C5. split; [lia|]. split; [exact I2|].
    split; [exact I3|lia].
Qed.

(** A close once the attempts are used up. *)
Lemma close_when_exhausted : forall code s,
  socketLive s = true -> timers s = [] ->
  (maxReconnectAttempts <= reconnectAttempts s)%nat ->
  timers (step (EvClose code) s) = []
  /\ (exists shown, toasts (step (EvClose code) s) = shown ++ [failedToast])
  /\ (forall dt, websocketRef (advance dt (step (EvClose code) s)) = Some CLOSED).
Proof.
  intros code s Hl Ht Hn.
  assert (Hstep : step (EvClose code) s
                  = onclose code (setWebsocketRef (Some CLOSED) s)).
  { cbn [step]. unfold socketLive in Hl.
    destruct (websocketRef s) as [[| | |]|]; try discriminate; reflexivity. }
  rewrite Hstep.
  destruct (onclose_exhausted code (setWebsocketRef (Some CLOSED) s) Hn)
    as (E1 & _ & E3).
  cbn [timers setWebsocketRef] in E1. rewrite Ht in E1.
  split; [exact E1|]. split; [exact E3|].
  intro dt. rewrite (advance_no_timers dt _ E1). cbn [websocketRef setNow].
  unfold onclose. break_handler; reflexivity.
Qed.

(** X10: the back-off, end to end.  From a signed-in session whose socket is
    open or connecting, under a URL the constructor accepts, with no timer
    pending and the counter at 0, five failed connections in a row take
    1000 + 2000 + 4000 + 8000 + 16000 = 31000 ms and leave the counter at 5;
    the close that follows sets no timer and shows "Connection Failed", so
    nothing retries any more. *)
Theorem backoff_runs_out :
  forall (code : Z) (s : State),
    code <> 1000 -> isUserAuthenticated s = true -> socketLive s = true ->
    webSocketAccepts (wsUrl s) = true ->
    timers s = [] -> reconnectAttempts s = 0%nat ->
    reconnectAttempts (failures 5 code s) = 5%nat
    /\ now (failures 5 code s) = now s + 31000
    /\ timers (step (EvClose code) (failures 5 code s)) = []
    /\ (exists shown,
          toasts (step (EvClose code) (failures 5 code s)) = shown ++ [failedToast])
    /\ (forall dt,
          websocketRef (advance dt (step (EvClose code) (failures 5 code s)))
          = Some CLOSED).
Proof.
  intros code s Hc Ha Hl Hu Ht H0.
  destruct (failures_effect 5 code s Hc Ha Hl Hu Ht) as (F1 & F2 & F3 & F4).
  { rewrite H0. unfold maxReconnectAttempts. lia. }
  rewrite H0 in F1, F4.
  split; [exact F1|]. split; [exact F4|].
  apply close_when_exhausted; [exact F2|exact F3|].
  rewrite F1. unfold maxReconnectAttempts. lia.
Qed.

Lemma backoff_runs_out_witness :
  now (failures 5 1006 (onopen (setWebsocketRef (Some OPEN)
                                  (mount (Some "u@example.com") 0)))) = 31000.
Proof.
  assert (Hc : 1006 <> 1000) by lia.
  exact (proj1 (proj2 (backoff_runs_out 1006
           (onopen (setWebsocketRef (Some OPEN) (mount (Some "u@example.com") 0)))
           Hc eq_refl eq_refl eq_refl eq_refl eq_refl))).
Defined.

(** ** The loading flag does not stick *)

Lemma handleWebSocketMessage_timers_incl : forall v s t,
  In t (timers (handleWebSocketMessage v s)) -> In t (timers s).
Proof.
  intros v s t. unfold handleWebSocketMessage. break_handler; auto;
    intro H; apply filter_In in H; tauto.
Qed.

Lemma handleWebSocketMessage_now : forall v s,
  now (handleWebSocketMessage v s) = now s.
Proof. intros v s. unfold handleWebSocketMessage. break_handler; reflexivity. Qed.

Lemma onclose_timers_origin : forall code s t,
  In t (timers (onclose code s)) -> isLoadingTimer t = true -> In t (timers s).
Proof.
  intros code s t. unfold onclose. break_handler; auto;
    (intros H Hl; apply in_app_or in H;
     destruct H as [H|[H|[]]]; [exact H|subst t; discriminate]).
Qed.

Lemma onclose_now : forall code s, now (onclose code s) = now s.
Proof. intros code s. unfold onclose. break_handler; reflexivity. Qed.

Lemma handleSendMessage_timers_origin : forall s t,
  In t (timers (handleSendMessage s)) -> isLoadingTimer t = true ->
  In t (timers s) \/ t = queryTimer s.
Proof.
  intros s t. unfold handleSendMessage, queryTimer. break_handler; auto;
    intros H Hl;
    repeat match goal with
           | H : In _ (_ ++ _) |- _ => apply in_app_or in H; destruct H as [H|H]
           | H : In _ (filter _ _) |- _ => apply filter_In in H; destruct H as [H ?]
           | H : In _ [_] |- _ => destruct H as [H|[]]
           end; subst; auto; discriminate.
Qed.

Lemma handleSendMessage_now : forall s, now (handleSendMessage s) = now s.
Proof. intro s. unfold handleSendMessage. break_handler; reflexivity. Qed.

Lemma LoadDue_keep : forall s s',
  LoadDue s -> now s <= now s' ->
  (forall t, In t (timers s') -> isLoadingTimer t = true ->
             In t (timers s) \/ t = queryTimer s) ->
  LoadDue s'.
Proof.
  intros s s' H Hn Ho t Ht Hl. destruct (Ho t Ht Hl) as [Hin|Heq].
  - specialize (H t Hin Hl). lia.
  - subst t. cbn. lia.
Qed.

Lemma step_LoadDue : forall e s, LoadDue s -> LoadDue (step e s).
Proof.
  intros e s H. destruct e; cbn [step].
  - destruct (websocketRef s) as [[| | |]|]; exact H.
  - destruct (websocketRef s) as [[| | |]|]; try exact H.
    destruct d as [|v]; [exact H|]. cbn [onmessage].
    apply (LoadDue_keep s); [exact H|rewrite handleWebSocketMessage_now; lia|].
    intros t Ht _. left. apply (handleWebSocketMessage_timers_incl v s t Ht).
  - destruct (websocketRef s) as [[| | |]|]; try exact H;
      (apply (LoadDue_keep s); [exact H|rewrite onclose_now; cbn; lia|];
       intros t Ht Hl; left;
       exact (onclose_timers_origin _ _ t Ht Hl)).
  - destruct (websocketRef s) as [[| | |]|]; exact H.
  - unfold typeInput. destruct (inputDisabled s); exact H.
  - unfold pressKey, handleKeyPress. destruct (inputDisabled s); [exact H|].
    destruct ((key =? "Enter")%string && negb shiftKey); [|exact H].
    apply (LoadDue_keep s); [exact H|rewrite handleSendMessage_now; lia|].
    apply handleSendMessage_timers_origin.
  - unfold clickSend. destruct (sendDisabled s); [exact H|].
    apply (LoadDue_keep s); [exact H|rewrite handleSendMessage_now; lia|].
    apply handleSendMessage_timers_origin.
  - unfold clickSuggestion. destruct (suggestionsShown s); [|exact H].
    destruct (nth_error suggestedQueries n); exact H.
  - unfold clickClearChat. destruct (suggestionsShown s); exact H.
  - destruct (clickReconnect_core s) as (_ & Ht & _ & _ & _ & Hn).
    unfold LoadDue. rewrite Ht, Hn. exact H.
  - apply (LoadDue_keep s); [exact H|unfold advance; cbn [now setNow]; lia|].
    intros t Ht _. left. unfold advance in Ht. cbn [timers setNow] in Ht.
    apply (fireAll_timers _ _ _ Ht).
  - destruct (websocketRef s) as [[| | |]|]; exact H.
  - destruct (replacedSockets s); exact H.
  - destruct (replacedSockets s) as [|n]; [exact H|].
    apply (LoadDue_keep s); [exact H|rewrite onclose_now; cbn; lia|].
    intros t Ht Hl. left. exact (onclose_timers_origin _ _ t Ht Hl).
Qed.

Lemma reachable_LoadDue : forall email t0 evs, LoadDue (run evs (mount email t0)).
Proof.
  intros email t0 evs.
  assert (H : forall evs s, LoadDue s -> LoadDue (run evs s)).
  { clear. induction evs as [|e evs IH]; intros s H; [exact H|].
    cbn [run fold_left]. apply IH, step_LoadDue, H. }
  apply H. intros t Ht. exfalso. revert Ht. unfold mount, effect.
  destruct (isUserAuthenticated (initialState email t0)).
  - destruct (connectWebSocket_core (initialState email t0)) as (_ & Ht & _).
    rewrite Ht. intros [].
  - intros [].
Qed.

(** X11: the loading flag cannot stick.  From every reachable state, once
    30000 ms have passed under events that neither submit a query nor
    deliver a terminal frame, the loading flag is clear and no query timeout
    is pending. *)
Theorem loading_flag_clears_within_30s :
  forall (email : option string) (t0 : Z) (evs later : list Event),
    forallb quiet later = true ->
    now (run evs (mount email t0)) + 30000
      <= now (run later (run evs (mount email t0))) ->
    isLoading (run later (run evs (mount email t0))) = false
    /\ loadingTimers (run later (run evs (mount email t0))) = [].
Proof.
  intros email t0 evs later Hq Hlate. set (s := run evs (mount email t0)) in *.
  pose proof (reachable_Inv email t0 evs) as HI. fold s in HI.
  pose proof (reachable_LoadDue email t0 evs) as HD. fold s in HD.
  pose proof HI as [[_ _ _ Hf] _].
  destruct (loadingTimers s) as [|tm rest] eqn:E.
  - (* nothing pending: the flag is already clear *)
    assert (Hl : isLoading s = false).
    { destruct (isLoading s); [|reflexivity]. exfalso. apply Hf; auto. }
    assert (HS : Settled (now s) (timedOutTurns (messages s)) s)
      by (repeat split; auto; lia).
    destruct (quiet_run_Settled _ _ later s Hq HI HS) as (S1 & _ & S3 & _).
    auto.
  - assert (Hin : In tm (timers s) /\ isLoadingTimer tm = true).
    { apply filter_In. unfold loadingTimers in E.
      change isLoadingTimer with (fun t : Timer => Task_eqb (task t) LoadingTimeoutTask).
      rewrite E. left. reflexivity. }
    destruct Hin as [Hin Hl].
    assert (HT : Tracked tm (timedOutTurns (messages s)) s)
      by (left; split; [exact Hin|reflexivity]).
    pose proof (quiet_run_Tracked tm _ later s Hq HI Hl HT) as HT2.
    pose proof (run_Inv later s HI) as HI2.
    destruct (Tracked_outcome _ _ _ HI2 HT2) as [_ Hafter].
    specialize (HD tm Hin Hl).
    destruct Hafter as (A & _ & C); [lia|]. auto.
Qed.

Lemma loading_flag_clears_within_30s_witness :
  isLoading (run [EvAdvance 20000; EvClose 1006; EvAdvance 10000]
               (run inFlightTrace (mount (Some "u@example.com") 0))) = false.
Proof.
  refine (proj1 (loading_flag_clears_within_30s (Some "u@example.com") 0
                   inFlightTrace [EvAdvance 20000; EvClose 1006; EvAdvance 10000]
                   eq_refl _)).
  vm_compute. discriminate.
Defined.

(** ** The back-off at rest *)

Lemma Task_eqb_eq : forall a b, Task_eqb a b = true <-> a = b.
Proof. intros [| |] [| |]; split; intro H; try discriminate; reflexivity. Qed.

Lemma keepsBackoff_Rested : forall s s',
  keepsBackoff s s' -> Rested s -> Rested s'.
Proof.
  intros s s' [Ha Ht] [R1 R2]. split; [destruct Ha; congruence|].
  unfold reconnectTimers in *.
  destruct (filter (fun t => Task_eqb (task t) ReconnectTask) (timers s'))
    as [|t r] eqn:E; [reflexivity|exfalso].
  assert (Hin : In t (filter (fun t => Task_eqb (task t) ReconnectTask) (timers s')))
    by (rewrite E; left; reflexivity).
  apply filter_In in Hin. destruct Hin as [Hin Hk].
  assert (Hold : In t (filter (fun t => Task_eqb (task t) ReconnectTask) (timers s))).
  { apply filter_In. split; [|exact Hk]. apply Ht; [exact Hin|].
    apply Task_eqb_eq. exact Hk. }
  rewrite R2 in Hold. exact Hold.
Qed.

Lemma keepsBackoff_refl : forall s, keepsBackoff s s.
Proof. intro s. split; auto. Qed.

Lemma connectWebSocket_backoff : forall s, keepsBackoff s (connectWebSocket s).
Proof.
  intro s. unfold keepsBackoff, connectWebSocket. break_handler; auto.
Qed.

Lemma handleWebSocketMessage_backoff : forall v s,
  keepsBackoff s (handleWebSocketMessage v s).
Proof.
  intros v s. split.
  - left. unfold handleWebSocketMessage. break_handler; reflexivity.
  - intros t Ht _. apply (handleWebSocketMessage_timers_incl v s t Ht).
Qed.

Lemma handleSendMessage_backoff : forall s, keepsBackoff s (handleSendMessage s).
Proof.
  intro s. unfold keepsBackoff, handleSendMessage. break_handler;
    (split; [left; reflexivity|]); auto; intros t H Hk;
    repeat match goal with
           | H : In _ (_ ++ _) |- _ => apply in_app_or in H; destruct H as [H|H]
           | H : In _ (filter _ _) |- _ => apply filter_In in H; destruct H as [H ?]
           | H : In _ [_] |- _ => destruct H as [H|[]]
           end; subst; auto; discriminate.
Qed.

Lemma fireTimer_backoff : forall x s,
  task x <> ReconnectTask -> keepsBackoff s (fireTimer x s).
Proof.
  intros x s Hx. unfold keepsBackoff, fireTimer.
  destruct (pending (tid x) s); [|auto].
  destruct (task x); [congruence| |]; cbn [runTask];
    unfold loadingTimeoutFired, initialStatusFired; st_simpl;
    (split; [left; reflexivity|]); intros t H _; apply filter_In in H; tauto.
Qed.

Lemma fireAll_Rested : forall l s,
  (forall x, In x l -> task x <> ReconnectTask) -> Rested s -> Rested (fireAll l s).
Proof.
  induction l as [|x l IH]; intros s Hl R; [exact R|].
  cbn [fireAll fold_left]. apply IH.
  - intros y Hy. apply Hl. right. exact Hy.
  - apply (keepsBackoff_Rested s); [|exact R].
    apply fireTimer_backoff, Hl. left. reflexivity.
Qed.

Lemma advance_Rested : forall dt s, Rested s -> Rested (advance dt s).
Proof.
  intros dt s R. unfold advance.
  fold (fireAll (dueTimers (now s + Z.max 0 dt) s) s).
  assert (R' : Rested (fireAll (dueTimers (now s + Z.max 0 dt) s) s)).
  { apply fireAll_Rested; [|exact R]. intros x Hx Hk.
    apply dueTimers_In in Hx. destruct Hx as [Hx _]. destruct R as [_ R2].
    assert (Hin : In x (reconnectTimers s)).
    { unfold reconnectTimers. apply filter_In. split; [exact Hx|].
      rewrite Hk. reflexivity. }
    rewrite R2 in Hin. exact Hin. }
  destruct R' as [R1 R2]. split; [exact R1|exact R2].
Qed.

Lemma step_Rested : forall e s,
  isCloseEvent e = false -> Rested s -> Rested (step e s).
Proof.
  intros e s He R. pose proof R as [R1 R2].
  destruct e; try discriminate; cbn [step].
  - destruct (websocketRef s) as [[| | |]|]; try exact R.
    split; [reflexivity|exact R2].
  - destruct (websocketRef s) as [[| | |]|]; try exact R.
    destruct d as [|v]; [split; assumption|]. cbn [onmessage].
    apply (keepsBackoff_Rested s); [apply handleWebSocketMessage_backoff|exact R].
  - destruct (websocketRef s) as [[| | |]|]; try exact R; split; assumption.
  - unfold typeInput. destruct (inputDisabled s); [exact R|split; assumption].
  - unfold pressKey, handleKeyPress. destruct (inputDisabled s); [exact R|].
    destruct ((key =? "Enter")%string && negb shiftKey); [|exact R].
    apply (keepsBackoff_Rested s); [apply handleSendMessage_backoff|exact R].
  - unfold clickSend. destruct (sendDisabled s); [exact R|].
    apply (keepsBackoff_Rested s); [apply handleSendMessage_backoff|exact R].
  - unfold clickSuggestion. destruct (suggestionsShown s); [|exact R].
    destruct (nth_error suggestedQueries n); [split; assumption|exact R].
  - unfold clickClearChat. destruct (suggestionsShown s); [split; assumption|exact R].
  - unfold clickReconnect. destruct (reconnectShown s); [|exact R].
    apply (keepsBackoff_Rested (setReconnectAttempts 0%nat s));
      [apply connectWebSocket_backoff|split; [reflexivity|exact R2]].
  - apply advance_Rested, R.
  - destruct (websocketRef s) as [[| | |]|]; exact R.
  - destruct (replacedSockets s); exact R.
Qed.

Lemma run_Rested : forall evs s,
  forallb (fun e => negb (isCloseEvent e)) evs = true -> Rested s -> Rested (run evs s).
Proof.
  induction evs as [|e evs IH]; intros s He R; [exact R|].
  cbn [forallb] in He. apply andb_true_iff in He. destruct He as [H1 H2].
  apply negb_true_iff in H1. cbn [run fold_left].
  apply IH; [exact H2|]. apply step_Rested; assumption.
Qed.

(** X8: an open and a manual reconnect reset the back-off, and it stays
    reset until the next close, provided no reconnect timer was pending:
    whatever happens in between, the next abnormal close schedules its retry
    after 1000 ms.  Neither the open handler nor the reconnect button clears
    a pending reconnect timer, though: when one is still pending it fires
    later and raises the counter, so after a close, a manual reconnect and an
    open, the next close waits 2000 ms. *)
Theorem open_resets_backoff :
  (forall (s : State) (evs : list Event) (code : Z),
     reconnectTimers s = [] ->
     forallb (fun e => negb (isCloseEvent e)) evs = true ->
     code <> 1000 ->
     (websocketRef s = Some CONNECTING ->
        reconnectAttempts (run evs (step EvOpen s)) = 0%nat
        /\ reconnectTimers (onclose code (run evs (step EvOpen s)))
           = [firstRetry (run evs (step EvOpen s))])
     /\ (reconnectShown s = true ->
           reconnectAttempts (run evs (step EvReconnect s)) = 0%nat
           /\ reconnectTimers (onclose code (run evs (step EvReconnect s)))
              = [firstRetry (run evs (step EvReconnect s))]))
  /\ reconnectAttempts (run staleRetryTrace (mount (Some "u@example.com") 0)) = 1%nat
  /\ now (run staleRetryTrace (mount (Some "u@example.com") 0)) = 1000
  /\ map due (reconnectTimers
                (step (EvClose 1006)
                   (run staleRetryTrace (mount (Some "u@example.com") 0))))
     = [3000].
Proof.
  split; [|repeat split; vm_compute; reflexivity].
  intros s evs code Ht Hev Hc.
  assert (Hnext : forall s1, Rested s1 ->
            reconnectAttempts s1 = 0%nat
            /\ reconnectTimers (onclose code s1) = [firstRetry s1]).
  { intros s1 [R1 R2]. split; [exact R1|].
    destruct (onclose_schedules code s1 Hc) as (T & _).
    - rewrite R1. unfold maxReconnectAttempts. lia.
    - unfold reconnectTimers in *. rewrite T, filter_app, R2, R1. reflexivity. }
  split; intro H; apply Hnext; apply run_Rested; try exact Hev.
  - cbn [step]. rewrite H. split; [reflexivity|exact Ht].
  - cbn [step]. unfold clickReconnect. rewrite H.
    apply (keepsBackoff_Rested (setReconnectAttempts 0%nat s));
      [apply connectWebSocket_backoff|]. split; [reflexivity|exact Ht].
Qed.

Lemma open_resets_backoff_witness :
  reconnectAttempts
    (run [EvType "Show me all expenses"; EvClickSend; EvAdvance 40000]
       (step EvOpen (mount (Some "u@example.com") 0))) = 0%nat.
Proof.
  assert (Hc : 1006 <> 1000) by lia.
  exact (proj1 (proj1 (proj1 open_resets_backoff
           (mount (Some "u@example.com") 0)
           [EvType "Show me all expenses"; EvClickSend; EvAdvance 40000] 1006
           eq_refl eq_refl Hc) eq_refl)).
Defined.

(** ** Blank input *)

Lemma trimFront_blank : forall wide fuel s,
  allWhiteSpace s = true -> (String.length s <= fuel)%nat ->
  trimFront wide fuel s = "".
Proof.
  intros wide fuel. induction fuel as [|fuel IH]; intros s H Hlen.
  - destruct s; [reflexivity|cbn in Hlen; lia].
  - destruct s as [|c r]; [reflexivity|].
    cbn [allWhiteSpace] in H. apply andb_true_iff in H. destruct H as [Hc Hr].
    cbn [trimFront dropWhiteSpace]. rewrite Hc. apply IH; [exact Hr|].
    cbn in Hlen. lia.
Qed.

(** A string of one-byte white space trims to the empty string. *)
Lemma trim_blank : forall s, allWhiteSpace s = true -> trim s = "".
Proof.
  intros s H. unfold trim, trimStart.
  rewrite (trimFront_blank _ _ s H (Nat.le_refl _)). reflexivity.
Qed.

Lemma dropBytes_plain : forall p s r,
  forallb (fun b => 128 <=? b)%nat p = true ->
  dropBytes p s = Some r -> hasPlain s = hasPlain r.
Proof.
  induction p as [|b p IH]; intros s r Hp H.
  - cbn in H. injection H as H. subst r. reflexivity.
  - cbn [forallb] in Hp. apply andb_true_iff in Hp. destruct Hp as [Hb Hp].
    destruct s as [|c s']; [discriminate|]. cbn [dropBytes] in H.
    destruct (nat_of_ascii c =? b)%nat eqn:E; [|discriminate].
    apply Nat.eqb_eq in E. cbn [hasPlain].
    assert (Hc : (nat_of_ascii c <? 128)%nat = false).
    { apply Nat.ltb_ge. apply Nat.leb_le in Hb. lia. }
    rewrite Hc. cbn [andb orb]. apply (IH s' r Hp H).
Qed.

Lemma firstMatch_plain : forall ps s r,
  forallb (forallb (fun b => 128 <=? b)%nat) ps = true ->
  firstMatch ps s = Some r -> hasPlain s = hasPlain r.
Proof.
  induction ps as [|p ps IH]; intros s r Hps H; [discriminate|].
  cbn [forallb] in Hps. apply andb_true_iff in Hps. destruct Hps as [Hp Hps].
  cbn [firstMatch] in H. destruct (dropBytes p s) as [r'|] eqn:E.
  - injection H as H. subst r'. apply (dropBytes_plain p s r Hp E).
  - apply (IH s r Hps H).
Qed.

(** Trimming never removes an ASCII character other than white space. *)
Lemma trimFront_plain : forall wide fuel s,
  forallb (forallb (fun b => 128 <=? b)%nat) wide = true ->
  hasPlain (trimFront wide fuel s) = hasPlain s.
Proof.
  intros wide fuel. induction fuel as [|fuel IH]; intros s Hw; [reflexivity|].
  cbn [trimFront]. destruct (dropWhiteSpace wide s) as [r|] eqn:E; [|reflexivity].
  rewrite (IH r Hw). unfold dropWhiteSpace in E.
  destruct s as [|c s']; [discriminate|].
  destruct (isWhiteSpace c) eqn:Ec.
  - injection E as E. subst r. cbn [hasPlain]. rewrite Ec.
    rewrite andb_false_r. reflexivity.
  - symmetry. apply (firstMatch_plain wide _ r Hw E).
Qed.

Lemma revString_plain : forall s acc,
  hasPlain (revString s acc) = hasPlain s || hasPlain acc.
Proof.
  induction s as [|c r IH]; intro acc; [reflexivity|].
  cbn [revString]. rewrite IH. cbn [hasPlain].
  destruct ((nat_of_ascii c <? 128)%nat && negb (isWhiteSpace c)), (hasPlain r);
    reflexivity.
Qed.

Lemma trim_plain : forall s, hasPlain (trim s) = hasPlain s.
Proof.
  intro s. unfold trim, trimEnd, trimStart.
  rewrite revString_plain, trimFront_plain by reflexivity.
  rewrite revString_plain, trimFront_plain by reflexivity.
  cbn [hasPlain]. rewrite !orb_false_r. reflexivity.
Qed.

Lemma hasPlain_nonempty : forall s, hasPlain s = true -> s <> "".
Proof. intros s H E. subst s. discriminate. Qed.

Lemma ascii_plain : forall s,
  isAsciiText s = true -> allWhiteSpace s = false -> hasPlain s = true.
Proof.
  induction s as [|c r IH]; intros Ha Hb; [discriminate|].
  cbn [isAsciiText] in Ha. apply andb_true_iff in Ha. destruct Ha as [Hc Hr].
  cbn [allWhiteSpace] in Hb. cbn [hasPlain]. rewrite Hc.
  destruct (isWhiteSpace c); cbn [andb negb orb] in *; [|reflexivity].
  apply IH; assumption.
Qed.

(** X12: an input whose characters are all white space (space, tab, line
    feed, vertical tab, form feed, carriage return) is never submitted,
    whatever the state; Shift+Enter and the other keys never submit either;
    and an ASCII input with some other character passes the guard of a
    connected, signed-in session and becomes the User turn as typed,
    untrimmed. *)
Theorem blank_input_never_submitted :
  forall s : State,
    (allWhiteSpace (inputValue s) = true ->
       handleSendMessage s = s /\ clickSend s = s
       /\ pressKey "Enter" false s = s)
    /\ (forall key shiftKey,
          (key =? "Enter")%string && negb shiftKey = false ->
          pressKey key shiftKey s = s)
    /\ (isAsciiText (inputValue s) = true ->
        allWhiteSpace (inputValue s) = false ->
        connectionStatus s = connected -> isUserAuthenticated s = true ->
        messages (handleSendMessage s) = messages s ++ [userTurn s]
        /\ content (userTurn s) = inputValue s).
Proof.
  intro s. split; [|split].
  - intro H. apply trim_blank in H.
    assert (Hb : handleSendMessage s = s).
    { apply handleSendMessage_blocked. unfold canSend. rewrite H. reflexivity. }
    split; [exact Hb|]. split.
    + unfold clickSend. destruct (sendDisabled s); [reflexivity|exact Hb].
    + unfold pressKey, handleKeyPress. destruct (inputDisabled s); [reflexivity|].
      exact Hb.
  - intros key shiftKey H. unfold pressKey, handleKeyPress. rewrite H.
    destruct (inputDisabled s); reflexivity.
  - intros Hascii H Hc Ha. rewrite handleSendMessage_messages.
    assert (Hg : canSend s = true).
    { unfold canSend. rewrite Hc, Ha. cbn.
      destruct (trim (inputValue s) =? "")%string eqn:E; [|reflexivity].
      apply String.eqb_eq in E. exfalso.
      apply (hasPlain_nonempty (trim (inputValue s))); [|exact E].
      rewrite trim_plain. apply ascii_plain; assumption. }
    rewrite Hg. split; reflexivity.
Qed.

Lemma blank_input_never_submitted_witness :
  handleSendMessage blankInputState = blankInputState.
Proof.
  exact (proj1 (proj1 (blank_input_never_submitted blankInputState) eq_refl)).
Defined.

(** ** Blank input of any width *)

Lemma dropWhiteSpace_char : forall c rest,
  isWhiteChar c = true ->
  dropWhiteSpace wideWhiteSpace (c ++ rest)%string = Some rest.
Proof.
  intros c rest H. unfold isWhiteChar in H. apply orb_true_iff in H.
  destruct H as [H|H].
  - destruct c as [|a [|b r]]; try discriminate. cbn. rewrite H. reflexivity.
  - apply existsb_exists in H. destruct H as (p & Hp & E).
    apply String.eqb_eq in E. subst c. cbn in Hp.
    repeat (destruct Hp as [Hp|Hp]; [subst p; reflexivity|]). destruct Hp.
Qed.

Lemma isWhiteChar_length : forall c, isWhiteChar c = true -> (1 <= String.length c)%nat.
Proof. intros [|a r] H; [discriminate|cbn; lia]. Qed.

Lemma length_append : forall a b,
  String.length (a ++ b)%string = (String.length a + String.length b)%nat.
Proof. induction a as [|c a IH]; intro b; [reflexivity|]. cbn. rewrite IH. reflexivity. Qed.

Lemma trimFront_chars : forall cs fuel,
  forallb isWhiteChar cs = true ->
  (String.length (fold_right String.append "" cs) <= fuel)%nat ->
  trimFront wideWhiteSpace fuel (fold_right String.append "" cs) = "".
Proof.
  induction cs as [|c cs IH]; intros fuel H Hlen.
  - destruct fuel; reflexivity.
  - cbn [forallb] in H. apply andb_true_iff in H. destruct H as [Hc Hcs].
    cbn [fold_right] in *. rewrite length_append in Hlen.
    pose proof (isWhiteChar_length c Hc) as H1.
    destruct fuel as [|fuel]; [lia|]. cbn [trimFront].
    rewrite (dropWhiteSpace_char c _ Hc). apply IH; [exact Hcs|lia].
Qed.

(** X22: the guard on blank input, for white space of any width.  An input
    made of white space characters only (the six of one byte, the no-break
    space, the byte order mark, the line and paragraph separators and the
    other space characters) is never submitted, whatever the state; an input
    that holds an ASCII character other than white space, whatever else it
    holds, passes the guard of a connected, signed-in session and becomes
    the User turn as typed. *)
Theorem blank_of_any_width_never_submitted :
  forall s : State,
    (forall cs, inputValue s = fold_right String.append "" cs ->
       forallb isWhiteChar cs = true ->
       trim (inputValue s) = ""
       /\ handleSendMessage s = s /\ clickSend s = s
       /\ pressKey "Enter" false s = s)
    /\ (hasPlain (inputValue s) = true ->
        connectionStatus s = connected -> isUserAuthenticated s = true ->
        canSend s = true
        /\ messages (handleSendMessage s) = messages s ++ [userTurn s]
        /\ content (userTurn s) = inputValue s).
Proof.
  intro s. split.
  - intros cs E H.
    assert (Ht : trim (inputValue s) = "").
    { unfold trim, trimStart. rewrite E.
      rewrite (trimFront_chars cs _ H (Nat.le_refl _)). reflexivity. }
    assert (Hb : handleSendMessage s = s).
    { apply handleSendMessage_blocked. unfold canSend. rewrite Ht. reflexivity. }
    split; [exact Ht|]. split; [exact Hb|]. split.
    + unfold clickSend. destruct (sendDisabled s); [reflexivity|exact Hb].
    + unfold pressKey, handleKeyPress. destruct (inputDisabled s); [reflexivity|].
      exact Hb.
  - intros H Hc Ha.
    assert (Hg : canSend s = true).
    { unfold canSend. rewrite Hc, Ha. cbn.
      destruct (trim (inputValue s) =? "")%string eqn:E; [|reflexivity].
      apply String.eqb_eq in E. exfalso.
      apply (hasPlain_nonempty (trim (inputValue s))); [|exact E].
      rewrite trim_plain. exact H. }
    split; [exact Hg|]. rewrite handleSendMessage_messages, Hg. split; reflexivity.
Qed.

Lemma blank_of_any_width_never_submitted_witness :
  handleSendMessage wideBlankState = wideBlankState.
Proof.
  exact (proj1 (proj2 (proj1 (blank_of_any_width_never_submitted wideBlankState)
           [bytes [194; 160]%nat; bytes [227; 128; 128]%nat; bytes [9]%nat]
           eq_refl eq_refl))).
Defined.

(** ** One socket at a time *)

(** X13: [connectWebSocket] for a signed-in user, case by case.  A socket
    that is open or connecting is never replaced: the call changes nothing.
    Otherwise, when the constructor accepts the URL, a new socket starts
    connecting under the handle, a socket that was closing is left to its
    handlers, and a second call right after the first changes nothing.
    When the constructor throws, the catch block runs: the status is
    "error", the handle stays as it was, the failure is logged, and nothing
    is shown to the user and no retry is scheduled. *)
Theorem connect_keeps_one_socket :
  forall s : State,
    isUserAuthenticated s = true ->
    (socketLive s = true -> connectWebSocket s = s)
    /\ (socketLive s = false -> webSocketAccepts (wsUrl s) = true ->
          websocketRef (connectWebSocket s) = Some CONNECTING
          /\ connectionStatus (connectWebSocket s) = connecting
          /\ replacedSockets (connectWebSocket s)
             = match websocketRef s with
               | Some CLOSING => S (replacedSockets s)
               | _ => replacedSockets s
               end
          /\ connectWebSocket (connectWebSocket s) = connectWebSocket s)
    /\ (socketLive s = false -> webSocketAccepts (wsUrl s) = false ->
          websocketRef (connectWebSocket s) = websocketRef s
          /\ connectionStatus (connectWebSocket s) = error
          /\ replacedSockets (connectWebSocket s) = replacedSockets s
          /\ toasts (connectWebSocket s) = toasts s
          /\ timers (connectWebSocket s) = timers s
          /\ exists entries,
               console (connectWebSocket s)
               = console s ++ entries
                 ++ [{| level := LError;
                        text := "Failed to create WebSocket connection:" |}]).
Proof.
  intros s Ha.
  assert (Hlive : forall s', isUserAuthenticated s' = true -> socketLive s' = true ->
                             connectWebSocket s' = s').
  { intros s' A L. unfold connectWebSocket, socketLive in *. rewrite A. cbn [negb].
    destruct (websocketRef s') as [[| | |]|]; try discriminate; reflexivity. }
  split; [apply Hlive, Ha|]. split.
  - intros Hl Hu.
    assert (Hshape : websocketRef (connectWebSocket s) = Some CONNECTING
                     /\ connectionStatus (connectWebSocket s) = connecting
                     /\ replacedSockets (connectWebSocket s)
                        = match websocketRef s with
                          | Some CLOSING => S (replacedSockets s)
                          | _ => replacedSockets s
                          end
                     /\ isUserAuthenticated (connectWebSocket s) = true).
    { unfold connectWebSocket, socketLive in *. rewrite Ha. cbn [negb].
      destruct (websocketRef s) as [[| | |]|]; try discriminate; st_simpl;
        rewrite (wsUrl_email s) by reflexivity; rewrite Hu; st_simpl;
        repeat split; exact Ha. }
    destruct Hshape as (H1 & H2 & H3 & H4).
    repeat split; try assumption.
    apply Hlive; [exact H4|]. unfold socketLive. rewrite H1. reflexivity.
  - intros Hl Hu. unfold connectWebSocket, socketLive in *. rewrite Ha. cbn [negb].
    destruct (websocketRef s) as [[| | |]|] eqn:E; try discriminate; st_simpl;
      rewrite (wsUrl_email s) by reflexivity; rewrite Hu; st_simpl;
      (repeat split; try assumption;
       exists [{| level := LLog; text := "Attempting WebSocket connection to:" |};
               {| level := LLog; text := "Using user email as ID:" |}];
       rewrite <- !app_assoc; reflexivity).
Qed.

Lemma connect_keeps_one_socket_witness :
  connectionStatus (connectWebSocket (initialState (Some "a#b@example.com") 0))
  = error.
Proof.
  exact (proj1 (proj2 (proj2 (proj2 (connect_keeps_one_socket
           (initialState (Some "a#b@example.com") 0) eq_refl)) eq_refl eq_refl))).
Defined.

(** ** A URL the constructor rejects *)

Lemma connectWebSocket_Refused : forall s,
  isUserAuthenticated s = true -> webSocketAccepts (wsUrl s) = false ->
  websocketRef s = None -> replacedSockets s = 0%nat ->
  sent s = [] -> timers s = [] -> isLoading s = false ->
  Refused (connectWebSocket s).
Proof.
  intros s Ha Hu Hw Ho Hs Ht Hl. unfold connectWebSocket.
  rewrite Ha, Hw. cbn [negb]. st_simpl.
  rewrite (wsUrl_email s) by reflexivity. rewrite Hu.
  repeat split; assumption.
Qed.

Lemma step_Refused : forall e s, Refused s -> Refused (step e s).
Proof.
  intros e s R. pose proof R as (Ha & Hu & Hw & Ho & Hs & Ht & Hl & Hc).
  assert (Hin : inputDisabled s = true)
    by (unfold inputDisabled; rewrite Hc, Hl; reflexivity).
  assert (Hsd : sendDisabled s = true)
    by (unfold sendDisabled; rewrite Hc, Hl;
        destruct (trim (inputValue s) =? "")%string; reflexivity).
  assert (Hr : reconnectShown s = true)
    by (unfold reconnectShown; rewrite Ha, Hc; reflexivity).
  destruct e; cbn [step]; rewrite ?Hw, ?Ho; try exact R.
  - unfold typeInput. rewrite Hin. exact R.
  - unfold pressKey. rewrite Hin. exact R.
  - unfold clickSend. rewrite Hsd. exact R.
  - unfold clickSuggestion, handleSuggestedQuery.
    destruct (suggestionsShown s); [|exact R].
    destruct (nth_error suggestedQueries n); exact R.
  - unfold clickClearChat, clearChat. destruct (suggestionsShown s); exact R.
  - unfold clickReconnect. rewrite Hr.
    apply connectWebSocket_Refused; assumption.
  - rewrite (advance_no_timers dt s Ht). exact R.
Qed.

Lemma hasFragment_append : forall a b,
  hasFragment (a ++ b)%string = hasFragment a || hasFragment b.
Proof.
  induction a as [|c a IH]; intro b; [reflexivity|].
  cbn [String.append hasFragment]. rewrite IH. apply orb_assoc.
Qed.

(** X21: a URL the constructor rejects.  The URL of the socket is the
    built-in address followed by the user's e-mail, unescaped; the
    constructor throws when it holds a fragment, that is when the e-mail
    contains the character #.  Such a signed-in session never gets a socket:
    after mount and under every sequence of events there is no socket,
    nothing is sent, no timer is pending, no query is in flight and the
    status is "error"; the reconnect button stays on screen and a click on
    it leaves all of this as it is.  Conversely, in every reachable state a
    socket handle exists only for a signed-in user whose URL the constructor
    accepts. *)
Theorem rejected_url_never_connects :
  forall (email : option string) (t0 : Z) (evs : list Event),
    (isUserAuthenticated (initialState email t0) = true ->
     webSocketAccepts (wsUrl (initialState email t0)) = false ->
     Refused (run evs (mount email t0))
     /\ reconnectShown (run evs (mount email t0)) = true
     /\ Refused (step EvReconnect (run evs (mount email t0))))
    /\ (websocketRef (run evs (mount email t0)) <> None ->
        isUserAuthenticated (run evs (mount email t0)) = true
        /\ webSocketAccepts (wsUrl (run evs (mount email t0))) = true)
    /\ webSocketAccepts (wsUrl (run evs (mount email t0)))
       = negb (hasFragment (USER_ID (run evs (mount email t0)))).
Proof.
  intros email t0 evs.
  assert (Hrun : forall evs s, Refused s -> Refused (run evs s)).
  { clear. induction evs as [|e evs IH]; intros s R; [exact R|].
    cbn [run fold_left]. apply IH, step_Refused, R. }
  assert (Hmount : isUserAuthenticated (initialState email t0) = true ->
                   webSocketAccepts (wsUrl (initialState email t0)) = false ->
                   Refused (run evs (mount email t0))).
  { intros Ha Hu. apply Hrun. unfold mount, effect. rewrite Ha.
    apply connectWebSocket_Refused; auto. }
  split; [|split].
  - intros Ha Hu. pose proof (Hmount Ha Hu) as R. split; [exact R|]. split.
    + destruct R as (A & _ & _ & _ & _ & _ & _ & C).
      unfold reconnectShown. rewrite A, C. reflexivity.
    + apply step_Refused, R.
  - intro Hw.
    destruct (isUserAuthenticated (initialState email t0)) eqn:Ha.
    + assert (He : userEmail (run evs (mount email t0)) = email).
      { destruct email as [e|]; [|discriminate].
        apply (reachable_Link e t0 evs). }
      assert (Ha' : isUserAuthenticated (run evs (mount email t0)) = true)
        by (unfold isUserAuthenticated in *; rewrite He; exact Ha).
      split; [exact Ha'|].
      rewrite (wsUrl_email (initialState email t0)) by exact He.
      destruct (webSocketAccepts (wsUrl (initialState email t0))) eqn:Hu;
        [reflexivity|].
      destruct (Hmount eq_refl eq_refl) as (_ & _ & W & _). congruence.
    + destruct (unauthenticated_Inert email t0 evs Ha) as (_ & W & _). congruence.
  - unfold webSocketAccepts, wsUrl.
    rewrite hasFragment_append, hasFragment_append. reflexivity.
Qed.

Lemma rejected_url_never_connects_witness :
  Refused (run [EvOpen; EvReconnect; EvSuggestion 0; EvClickSend; EvAdvance 5000]
             (mount (Some "a#b@example.com") 0)).
Proof.
  exact (proj1 (proj1 (rejected_url_never_connects (Some "a#b@example.com") 0
                         [EvOpen; EvReconnect; EvSuggestion 0; EvClickSend;
                          EvAdvance 5000]) eq_refl eq_refl)).
Defined.

(** ** Unmounting *)

(** X14: in every reachable state the effect cleanup leaves no query
    timeout pending and removes the reconnect timer that
    [reconnectTimeoutRef] names; it drops the socket handle and leaves the
    history, the loading flag and the clock as they were. *)
Theorem cleanup_cancels_timers :
  forall (email : option string) (t0 : Z) (evs : list Event),
    loadingTimers (cleanup (run evs (mount email t0))) = []
    /\ (forall i, reconnectTimeoutRef (run evs (mount email t0)) = Some i ->
          pending i (cleanup (run evs (mount email t0))) = false)
    /\ websocketRef (cleanup (run evs (mount email t0))) = None
    /\ messages (cleanup (run evs (mount email t0)))
       = messages (run evs (mount email t0))
    /\ incl (timers (cleanup (run evs (mount email t0))))
            (timers (run evs (mount email t0))).
Proof.
  intros email t0 evs. set (s := run evs (mount email t0)).
  split; [apply cleanup_cancels_timeout, reachable_Inv|]. split; [|split; [|split]].
  - intros i Hi. unfold cleanup, pending. rewrite Hi. st_simpl.
    apply not_true_is_false. intro H. apply existsb_exists in H.
    destruct H as (x & Hx & Hid).
    assert (Hx' : In x (filter (otherThan i) (timers s))).
    { destruct (loadingTimeoutRef s); st_simpl; [|exact Hx].
      apply filter_In in Hx. tauto. }
    apply filter_In in Hx'. destruct Hx' as [_ Ho]. unfold otherThan in Ho.
    rewrite Hid in Ho. discriminate.
  - unfold cleanup. break_handler; reflexivity.
  - unfold cleanup. break_handler; reflexivity.
  - intros t Ht. unfold cleanup in Ht. revert Ht. break_handler; intro Ht;
      repeat match goal with
             | H : In _ (filter _ _) |- _ => apply filter_In in H; destruct H as [H ?]
             end; exact Ht.
Qed.

Lemma cleanup_cancels_timers_witness :
  pending 3%nat
    (cleanup (run (inFlightTrace ++ [EvClose 1006]) (mount (Some "u@example.com") 0)))
  = false.
Proof.
  refine (proj1 (proj2 (cleanup_cancels_timers (Some "u@example.com") 0
                          (inFlightTrace ++ [EvClose 1006]))) 3%nat _).
  vm_compute. reflexivity.
Defined.

(** * Properties of the data service *)

(** ** [localStorage] *)

Lemma getItem_setItem_same : forall key value st,
  DataService.getItem key (DataService.setItem key value st) = Some value.
Proof.
  intros key value st. induction st as [|[k v] r IH]; cbn.
  - rewrite String.eqb_refl. reflexivity.
  - destruct (k =? key)%string eqn:E; cbn; [rewrite String.eqb_refl|rewrite E];
      auto.
Qed.

Lemma getItem_setItem_other : forall key key' value st,
  key <> key' ->
  DataService.getItem key' (DataService.setItem key value st)
  = DataService.getItem key' st.
Proof.
  intros key key' value st Hne. induction st as [|[k v] r IH]; cbn.
  - apply String.eqb_neq in Hne. rewrite Hne. reflexivity.
  - destruct (k =? key)%string eqn:E; cbn.
    + apply String.eqb_eq in E. subst k. apply String.eqb_neq in Hne.
      rewrite Hne. reflexivity.
    + rewrite IH. reflexivity.
Qed.

Lemma getItem_removeItem_same : forall key st,
  DataService.getItem key (DataService.removeItem key st) = None.
Proof.
  intros key st. unfold DataService.removeItem.
  induction st as [|[k v] r IH]; [reflexivity|]. cbn.
  destruct (k =? key)%string eqn:E; cbn; [exact IH|]. rewrite E. exact IH.
Qed.

Lemma getItem_removeItem_other : forall key key' st,
  key <> key' ->
  DataService.getItem key' (DataService.removeItem key st)
  = DataService.getItem key' st.
Proof.
  intros key key' st Hne. unfold DataService.removeItem.
  induction st as [|[k v] r IH]; [reflexivity|]. cbn.
  destruct (k =? key)%string eqn:E; cbn.
  - apply String.eqb_eq in E. subst k. apply String.eqb_neq in Hne.
    rewrite Hne. exact IH.
  - rewrite IH. reflexivity.
Qed.

Lemma append_same_empty : forall k s, (k ++ s)%string = k -> s = "".
Proof.
  induction k as [|c k IH]; intros s H; [exact H|].
  cbn in H. injection H as H. apply IH, H.
Qed.

Lemma timestampKey_neq : forall key, DataService.timestampKey key <> key.
Proof.
  intros key H. unfold DataService.timestampKey in H.
  apply append_same_empty in H. discriminate.
Qed.

(** ** [parseInt] reads back a time stamp *)

Lemma parseDigits_acc : forall d acc,
  DataService.parseDigits 10 (NilEmpty.string_of_uint d) (Zpos acc) true
  = Some (Zpos (Pos.of_uint_acc d acc)).
Proof.
  induction d as [|d IH|d IH|d IH|d IH|d IH|d IH|d IH|d IH|d IH|d IH];
    intro acc; [reflexivity|..];
    cbn [NilEmpty.string_of_uint DataService.parseDigits Pos.of_uint_acc];
    match goal with
    | |- context [DataService.digitValue ?c] =>
        let v := eval vm_compute in (DataService.digitValue c) in
        change (DataService.digitValue c) with v
    end; cbv iota;
    match goal with
    | |- context [(?d <? 10)] => change (d <? 10) with true
    end; cbv iota; rewrite <- IH; f_equal; lia.
Qed.

Lemma parseDigits_zero : forall d seen,
  seen = true \/ d <> Decimal.Nil ->
  DataService.parseDigits 10 (NilEmpty.string_of_uint d) 0 seen
  = Some (Z.of_N (Pos.of_uint d)).
Proof.
  induction d as [|d IH|d IH|d IH|d IH|d IH|d IH|d IH|d IH|d IH|d IH];
    intros seen H.
  - destruct H as [->|H]; [reflexivity|congruence].
  - cbn [NilEmpty.string_of_uint DataService.parseDigits Pos.of_uint].
    change (DataService.digitValue "0") with (Some 0).
    cbv iota. change (0 <? 10) with true. cbv iota.
    apply IH. left. reflexivity.
  - exact (parseDigits_acc d 1).
  - exact (parseDigits_acc d 2).
  - exact (parseDigits_acc d 3).
  - exact (parseDigits_acc d 4).
  - exact (parseDigits_acc d 5).
  - exact (parseDigits_acc d 6).
  - exact (parseDigits_acc d 7).
  - exact (parseDigits_acc d 8).
  - exact (parseDigits_acc d 9).
Qed.

Lemma parseInt_digits : forall d,
  d <> Decimal.Nil ->
  DataService.parseInt (NilEmpty.string_of_uint d)
  = match DataService.parseDigits 10 (NilEmpty.string_of_uint d) 0 false with
    | Some n => Some (1 * n)
    | None => None
    end.
Proof.
  intros d H. destruct d as [|l|l|l|l|l|l|l|l|l|l]; [congruence|..];
    destruct l; reflexivity.
Qed.

Lemma parseInt_numToString :
  forall n : Z, 0 <= n -> DataService.parseInt (numToString n) = Some n.
Proof.
  intros n Hn. destruct n as [|p|p]; [reflexivity| |lia].
  unfold numToString. cbn [Z.to_int NilZero.string_of_int].
  pose proof (DecimalPos.Unsigned.to_uint_nonnil p) as Hnil.
  assert (Hs : NilZero.string_of_uint (Pos.to_uint p)
               = NilEmpty.string_of_uint (Pos.to_uint p)).
  { destruct (Pos.to_uint p); [congruence|reflexivity..]. }
  rewrite Hs, (parseInt_digits _ Hnil).
  rewrite (parseDigits_zero _ false (or_intror Hnil)).
  rewrite DecimalPos.Unsigned.of_to. reflexivity.
Qed.

(** X15: the time stamp the cache writes reads back exactly:
    [parseInt(String(n)) = n] for every integer [0 <= n < 10^21] (a time
    stamp of [Date.now()] lies far below [2^53], where [String(n)] is the
    decimal numeral). *)
Theorem parseInt_reads_timestamp :
  forall n : Z, 0 <= n -> n < 10 ^ 21 ->
    DataService.parseInt (numToString n) = Some n.
Proof. intros n Hn _. apply parseInt_numToString, Hn. Qed.

Lemma parseInt_reads_timestamp_witness :
  DataService.parseInt (numToString 1700000000000) = Some 1700000000000.
Proof.
  assert (H : 0 <= 1700000000000) by lia.
  assert (H' : 1700000000000 < 10 ^ 21) by (vm_compute; reflexivity).
  exact (parseInt_reads_timestamp 1700000000000 H H').
Defined.

(** ** The read-through cache *)

Lemma numToString_nonempty : forall n, 0 <= n -> numToString n <> "".
Proof.
  intros n Hn E. pose proof (parseInt_numToString n Hn) as H.
  rewrite E in H. discriminate.
Qed.

Lemma fold_log_storage : forall l e,
  DataService.storage (fold_left (fun e t => DataService.logWrite LLog t e) l e)
  = DataService.storage e
  /\ DataService.requests (fold_left (fun e t => DataService.logWrite LLog t e) l e)
     = DataService.requests e
  /\ DataService.updates (fold_left (fun e t => DataService.logWrite LLog t e) l e)
     = DataService.updates e.
Proof.
  induction l as [|t l IH]; intro e; [auto|].
  cbn [fold_left]. destruct (IH (DataService.logWrite LLog t e)) as (A & B & C).
  rewrite A, B, C. auto.
Qed.

Lemma usable_storage : forall parse key e e',
  DataService.storage e' = DataService.storage e ->
  usable parse key e' = usable parse key e.
Proof. intros parse key e e' H. unfold usable. rewrite H. reflexivity. Qed.

Lemma isDataStale_storage : forall key t e e',
  DataService.storage e' = DataService.storage e ->
  DataService.isDataStale key t e' = DataService.isDataStale key t e.
Proof. intros key t e e' H. unfold DataService.isDataStale. rewrite H. reflexivity. Qed.

(** What the service reads back from storage, in terms of [usable]. *)
Lemma getDataFromStorage_usable : forall parse key e,
  DataService.storage (snd (DataService.getDataFromStorage parse key e))
    = DataService.storage e
  /\ DataService.requests (snd (DataService.getDataFromStorage parse key e))
     = DataService.requests e
  /\ DataService.updates (snd (DataService.getDataFromStorage parse key e))
     = DataService.updates e
  /\ match fst (DataService.getDataFromStorage parse key e) with
     | Some j => if DataService.truthy j then Some j else None
     | None => None
     end = usable parse key e.
Proof.
  intros parse key e. unfold DataService.getDataFromStorage, usable.
  destruct (DataService.getItem key (DataService.storage e)) as [d|]; [|auto].
  destruct (d =? "")%string; [auto|].
  destruct (parse d) as [j|]; cbn; auto.
Qed.

(** The outcome of a getter, case by case. *)
Lemma cachedFetch_hit : forall parse stringify g key tCheck tStore r e j,
  mustFetch key false tCheck e = false -> usable parse key e = Some j ->
  DataService.cachedFetch parse stringify g key false tCheck tStore r e
  = (j, DataService.logWrite LLog (DataService.cachedText g) e).
Proof.
  intros parse stringify g key tCheck tStore r e j Hm Hu.
  unfold mustFetch in Hm. cbn [orb] in Hm.
  unfold DataService.cachedFetch. rewrite Hm. cbn [negb andb].
  unfold usable in Hu. unfold DataService.getDataFromStorage.
  destruct (DataService.getItem key (DataService.storage e)) as [d|]; [|discriminate].
  destruct (d =? "")%string; [discriminate|].
  destruct (parse d) as [j'|]; [|discriminate].
  destruct (DataService.truthy j') eqn:T; [|discriminate].
  injection Hu as Hu. subst j'. reflexivity.
Qed.

Lemma caught_result : forall parse g key e,
  fst (DataService.caught parse g key e)
    = match usable parse key e with
      | Some j => j
      | None => DataService.emptyValue g
      end
  /\ DataService.storage (snd (DataService.caught parse g key e))
     = DataService.storage e
  /\ DataService.requests (snd (DataService.caught parse g key e))
     = DataService.requests e
  /\ DataService.updates (snd (DataService.caught parse g key e))
     = DataService.updates e.
Proof.
  intros parse g key e. unfold DataService.caught.
  set (e1 := DataService.logWrite LError (DataService.errorText g) e).
  destruct (getDataFromStorage_usable parse key e1) as (A & B & C & Hu).
  rewrite (usable_storage parse key e e1 eq_refl) in Hu. rewrite <- Hu.
  destruct (DataService.getDataFromStorage parse key e1) as [[j|] e2];
    cbn [fst snd] in *; [destruct (DataService.truthy j)|];
    cbn [fst snd DataService.storage DataService.requests DataService.updates
         DataService.logWrite]; rewrite A, B, C; auto.
Qed.

(** What the try block leaves behind, by what was delivered. *)
Lemma fetched_result : forall parse stringify g key tStore r e,
  DataService.requests (snd (DataService.fetched parse stringify g key tStore r e))
  = S (DataService.requests e)
  /\ match delivered g r with
     | Some data =>
         fst (DataService.fetched parse stringify g key tStore r e) = data
         /\ DataService.storage
              (snd (DataService.fetched parse stringify g key tStore r e))
            = DataService.setItem (DataService.timestampKey key) (numToString tStore)
                (DataService.setItem key (stringify data) (DataService.storage e))
         /\ DataService.updates
              (snd (DataService.fetched parse stringify g key tStore r e))
            = S (DataService.updates e)
     | None =>
         fst (DataService.fetched parse stringify g key tStore r e)
           = match usable parse key e with
             | Some j => j
             | None => DataService.emptyValue g
             end
         /\ DataService.storage
              (snd (DataService.fetched parse stringify g key tStore r e))
            = DataService.storage e
         /\ DataService.updates
              (snd (DataService.fetched parse stringify g key tStore r e))
            = DataService.updates e
     end.
Proof.
  intros parse stringify g key tStore r e. unfold DataService.fetched, delivered.
  set (e0 := DataService.countRequest
               (DataService.logWrite LLog (DataService.fetchingText g) e)).
  destruct r as [data|].
  - set (e1 := fold_left (fun e t => DataService.logWrite LLog t e)
                 (DataService.rawTexts g) e0).
    destruct (fold_log_storage (DataService.rawTexts g) e0) as (A & B & C).
    fold e1 in A, B, C.
    destruct (DataService.readThrows g data).
    + destruct (caught_result parse g key e1) as (F & S1 & R1 & U1).
      rewrite F, S1, R1, U1, A, B, C.
      rewrite (usable_storage parse key e e1) by exact A. auto.
    + unfold DataService.setDataWithTimestamp.
      destruct (DataService.receiptText g);
        cbn [fst snd DataService.storage DataService.requests DataService.updates
             DataService.logWrite DataService.setStorage DataService.dispatchUpdate];
        rewrite A, B, C; auto.
  - destruct (caught_result parse g key e0) as (F & S1 & R1 & U1).
    rewrite F, S1, R1, U1. auto.
Qed.

Lemma cachedFetch_result_env : forall parse stringify g key force tCheck tStore r e,
  mustFetch key force tCheck e = true \/ usable parse key e = None ->
  DataService.requests
    (snd (DataService.cachedFetch parse stringify g key force tCheck tStore r e))
  = S (DataService.requests e)
  /\ match delivered g r with
     | Some data =>
         fst (DataService.cachedFetch parse stringify g key force tCheck tStore r e)
           = data
         /\ DataService.storage
              (snd (DataService.cachedFetch parse stringify g key force tCheck tStore r e))
            = DataService.setItem (DataService.timestampKey key) (numToString tStore)
                (DataService.setItem key (stringify data) (DataService.storage e))
         /\ DataService.updates
              (snd (DataService.cachedFetch parse stringify g key force tCheck tStore r e))
            = S (DataService.updates e)
     | None =>
         fst (DataService.cachedFetch parse stringify g key force tCheck tStore r e)
           = match usable parse key e with
             | Some j => j
             | None => DataService.emptyValue g
             end
         /\ DataService.storage
              (snd (DataService.cachedFetch parse stringify g key force tCheck tStore r e))
            = DataService.storage e
         /\ DataService.updates
              (snd (DataService.cachedFetch parse stringify g key force tCheck tStore r e))
            = DataService.updates e
     end.
Proof.
  intros parse stringify g key force tCheck tStore r e H.
  assert (Hgen : forall ea,
            DataService.storage ea = DataService.storage e ->
            DataService.requests ea = DataService.requests e ->
            DataService.updates ea = DataService.updates e ->
            DataService.requests
              (snd (DataService.fetched parse stringify g key tStore r ea))
            = S (DataService.requests e)
            /\ match delivered g r with
               | Some data =>
                   fst (DataService.fetched parse stringify g key tStore r ea) = data
                   /\ DataService.storage
                        (snd (DataService.fetched parse stringify g key tStore r ea))
                      = DataService.setItem (DataService.timestampKey key)
                          (numToString tStore)
                          (DataService.setItem key (stringify data)
                             (DataService.storage e))
                   /\ DataService.updates
                        (snd (DataService.fetched parse stringify g key tStore r ea))
                      = S (DataService.updates e)
               | None =>
                   fst (DataService.fetched parse stringify g key tStore r ea)
                     = match usable parse key e with
                       | Some j => j
                       | None => DataService.emptyValue g
                       end
                   /\ DataService.storage
                        (snd (DataService.fetched parse stringify g key tStore r ea))
                      = DataService.storage e
                   /\ DataService.updates
                        (snd (DataService.fetched parse stringify g key tStore r ea))
                      = DataService.updates e
               end).
  { intros ea Hs Hr Hu.
    pose proof (fetched_result parse stringify g key tStore r ea) as [R F].
    rewrite Hs, Hr, Hu, (usable_storage parse key e ea Hs) in *.
    split; [exact R|exact F]. }
  unfold DataService.cachedFetch, mustFetch in *.
  destruct (negb force && negb (DataService.isDataStale key tCheck e)) eqn:Hc;
    [|apply Hgen; reflexivity].
  destruct H as [H|H].
  { apply andb_true_iff in Hc. destruct Hc as [H1 H2].
    apply negb_true_iff in H1, H2. rewrite H1, H2 in H. discriminate. }
  destruct (getDataFromStorage_usable parse key e) as (S1 & S2 & S3 & Hu).
  rewrite H in Hu.
  destruct (DataService.getDataFromStorage parse key e) as [[j|] ea];
    cbn [fst snd] in *.
  - destruct (DataService.truthy j); [discriminate|]. apply Hgen; assumption.
  - apply Hgen; assumption.
Qed.

Lemma stored_facts : forall stringify key data t e,
  0 <= t ->
  DataService.getItem key
    (DataService.storage (DataService.setDataWithTimestamp stringify key data t e))
  = Some (stringify data)
  /\ DataService.isDataStale key
       (t + DataService.CACHE_DURATION)
       (DataService.setDataWithTimestamp stringify key data t e) = false
  /\ (forall t', DataService.isDataStale key t'
                   (DataService.setDataWithTimestamp stringify key data t e)
                 = (DataService.CACHE_DURATION <? t' - t)).
Proof.
  intros stringify key data t e Ht.
  assert (Hs : forall t', DataService.isDataStale key t'
                   (DataService.setDataWithTimestamp stringify key data t e)
                 = (DataService.CACHE_DURATION <? t' - t)).
  { intro t'. unfold DataService.isDataStale, DataService.setDataWithTimestamp.
    cbn [DataService.storage DataService.setStorage DataService.dispatchUpdate].
    rewrite getItem_setItem_same.
    pose proof (numToString_nonempty t Ht) as Hne. apply String.eqb_neq in Hne.
    rewrite Hne, (parseInt_numToString t Ht). reflexivity. }
  split; [|split; [|exact Hs]].
  - unfold DataService.setDataWithTimestamp.
    cbn [DataService.storage DataService.setStorage DataService.dispatchUpdate].
    rewrite getItem_setItem_other by apply timestampKey_neq.
    apply getItem_setItem_same.
  - rewrite Hs. apply Z.ltb_ge. lia.
Qed.

(** X16: a stored answer is served for five minutes.  After a getter has
    fetched [data] (forced or because the entry was stale) and stored it at
    time [tStore], every unforced call up to 300000 ms later returns [data]
    from [localStorage] without a request, whatever the API would answer,
    provided the stored text parses back to the truthy value [data]. *)
Theorem cache_serves_for_five_minutes :
  forall (parse : string -> option DataService.Json)
         (stringify : DataService.Json -> string) (g : DataService.Getter)
         (key : string) (force : bool) (tCheck tStore t t2 : Z)
         (data : DataService.Json) (r : DataService.FetchResult)
         (e : DataService.Env),
    0 <= tStore -> mustFetch key force tCheck e = true ->
    parse (stringify data) = Some data -> DataService.truthy data = true ->
    stringify data <> "" ->
    t - tStore <= DataService.CACHE_DURATION ->
    DataService.cachedFetch parse stringify g key false t t2 r
      (snd (DataService.cachedFetch parse stringify g key force tCheck tStore
              (DataService.FetchOk data) e))
    = (data,
       DataService.logWrite LLog (DataService.cachedText g)
         (snd (DataService.cachedFetch parse stringify g key force tCheck tStore
                 (DataService.FetchOk data) e))).
Proof.
  intros parse stringify g key force tCheck tStore t t2 data r e
         Ht Hm Hp Htr Hne Hfresh.
  pose proof (cachedFetch_result_env parse stringify g key force tCheck tStore
                (DataService.FetchOk data) e (or_introl Hm)) as (_ & F).
  assert (Hd : delivered g (DataService.FetchOk data) = Some data).
  { unfold delivered, DataService.readThrows.
    destruct (DataService.receiptText g); [|reflexivity].
    destruct data; try reflexivity. discriminate. }
  rewrite Hd in F. destruct F as (_ & S & _).
  destruct (stored_facts stringify key data tStore e Ht) as (G & _ & St).
  apply cachedFetch_hit.
  - unfold mustFetch. cbn [orb].
    rewrite (isDataStale_storage key t
               (DataService.setDataWithTimestamp stringify key data tStore e));
      [|exact S].
    rewrite St. apply Z.ltb_ge. lia.
  - rewrite (usable_storage parse key
               (DataService.setDataWithTimestamp stringify key data tStore e));
      [|exact S].
    unfold usable. rewrite G. apply String.eqb_neq in Hne. rewrite Hne, Hp, Htr.
    reflexivity.
Qed.

Lemma cache_serves_for_five_minutes_witness :
  fst (DataService.cachedFetch plainParse plainStringify DataService.summaryGetter
         (DataService.userKey "raseed_user_summary" "u@example.com")
         false 300000 300000 DataService.FetchFailed
         (snd (DataService.getUserSummary plainParse plainStringify "u@example.com"
                 true 0 0 (DataService.FetchOk (DataService.JStr "summary"))
                 emptyEnv)))
  = DataService.JStr "summary".
Proof.
  assert (H0 : 0 <= 0) by lia.
  assert (H1 : 300000 - 0 <= DataService.CACHE_DURATION)
    by (unfold DataService.CACHE_DURATION; lia).
  assert (H2 : plainStringify (DataService.JStr "summary") <> "") by discriminate.
  unfold DataService.getUserSummary.
  rewrite (cache_serves_for_five_minutes plainParse plainStringify
             DataService.summaryGetter
             (DataService.userKey "raseed_user_summary" "u@example.com")
             true 0 0 300000 300000 (DataService.JStr "summary")
             DataService.FetchFailed emptyEnv H0 eq_refl eq_refl eq_refl H2 H1).
  reflexivity.
Defined.

(** X17: a call that is forced, or finds the entry stale, asks the API
    exactly once.  An answer that the getter can read is returned as it came
    and written to [localStorage] with the time stamp of the moment; an
    entry stored at [tStore] is fetched again by any call later than
    [tStore] + 300000 ms.  [getUserData] reads [data.receipts] from the
    answer before it stores it: on the answer [null] that throws, and the
    call ends in the catch block, which stores nothing and answers with the
    stored value or the empty one.  No other getter reads the answer, and no
    other answer makes the read throw. *)
Theorem stale_or_forced_call_fetches :
  (forall (parse : string -> option DataService.Json)
          (stringify : DataService.Json -> string) (g : DataService.Getter)
          (key : string) (force : bool) (tCheck tStore : Z)
          (data : DataService.Json) (e : DataService.Env),
     mustFetch key force tCheck e = true ->
     DataService.requests
       (snd (DataService.cachedFetch parse stringify g key force tCheck tStore
               (DataService.FetchOk data) e))
     = S (DataService.requests e)
     /\ (DataService.readThrows g data = false ->
           fst (DataService.cachedFetch parse stringify g key force tCheck tStore
                  (DataService.FetchOk data) e) = data
           /\ DataService.getItem key
                (DataService.storage
                   (snd (DataService.cachedFetch parse stringify g key force tCheck
                           tStore (DataService.FetchOk data) e)))
              = Some (stringify data)
           /\ DataService.getItem (DataService.timestampKey key)
                (DataService.storage
                   (snd (DataService.cachedFetch parse stringify g key force tCheck
                           tStore (DataService.FetchOk data) e)))
              = Some (numToString tStore)
           /\ (0 <= tStore ->
               forall t, tStore + DataService.CACHE_DURATION < t ->
                 mustFetch key false t
                   (snd (DataService.cachedFetch parse stringify g key force tCheck
                           tStore (DataService.FetchOk data) e)) = true))
     /\ (DataService.readThrows g data = true ->
           fst (DataService.cachedFetch parse stringify g key force tCheck tStore
                  (DataService.FetchOk data) e)
             = match usable parse key e with
               | Some j => j
               | None => DataService.emptyValue g
               end
           /\ DataService.storage
                (snd (DataService.cachedFetch parse stringify g key force tCheck
                        tStore (DataService.FetchOk data) e))
              = DataService.storage e
           /\ DataService.updates
                (snd (DataService.cachedFetch parse stringify g key force tCheck
                        tStore (DataService.FetchOk data) e))
              = DataService.updates e))
  /\ (forall data,
        (DataService.readThrows DataService.userDataGetter data = true
         <-> data = DataService.JNull)
        /\ DataService.readThrows DataService.analyticsGetter data = false
        /\ DataService.readThrows DataService.summaryGetter data = false
        /\ DataService.readThrows DataService.walletPassesGetter data = false
        /\ DataService.readThrows DataService.categoriesGetter data = false).
Proof.
  split.
  - intros parse stringify g key force tCheck tStore data e Hm.
    destruct (cachedFetch_result_env parse stringify g key force tCheck tStore
                (DataService.FetchOk data) e (or_introl Hm)) as (R & F).
    unfold delivered in F. split; [exact R|].
    destruct (DataService.readThrows g data); split; intro X; try discriminate X.
    + exact F.
    + destruct F as (F & S & _). split; [exact F|]. rewrite S. split; [|split].
      * rewrite getItem_setItem_other by apply timestampKey_neq.
        apply getItem_setItem_same.
      * apply getItem_setItem_same.
      * intros Ht t Hlate. unfold mustFetch. cbn [orb].
        unfold DataService.isDataStale. rewrite S, getItem_setItem_same.
        pose proof (numToString_nonempty tStore Ht) as Hne.
        apply String.eqb_neq in Hne.
        rewrite Hne, (parseInt_numToString tStore Ht). apply Z.ltb_lt. lia.
  - intro data. split; [|repeat split].
    destruct data; split; intro H; try discriminate H; reflexivity.
Qed.

Lemma stale_or_forced_call_fetches_witness :
  fst (DataService.getUserData plainParse plainStringify "u@example.com"
         true 0 0 (DataService.FetchOk DataService.JNull) emptyEnv)
  = DataService.emptyValue DataService.userDataGetter.
Proof.
  exact (proj1 (proj2 (proj2 (proj1 stale_or_forced_call_fetches
           plainParse plainStringify DataService.userDataGetter
           (DataService.userKey "raseed_user_data" "u@example.com")
           true 0 0 DataService.JNull emptyEnv eq_refl)) eq_refl)).
Defined.

(** X18: when the request fails, a getter leaves [localStorage] untouched
    and answers with the stored value if there is one that parses to a
    truthy value, however old it is, and with its empty value otherwise (for
    [getUserSummary]: all counts 0 and an empty date). *)
Theorem failed_request_falls_back :
  forall (parse : string -> option DataService.Json)
         (stringify : DataService.Json -> string) (g : DataService.Getter)
         (key : string) (force : bool) (tCheck tStore : Z) (e : DataService.Env),
    mustFetch key force tCheck e = true \/ usable parse key e = None ->
    fst (DataService.cachedFetch parse stringify g key force tCheck tStore
           DataService.FetchFailed e)
      = match usable parse key e with
        | Some j => j
        | None => DataService.emptyValue g
        end
    /\ DataService.storage
         (snd (DataService.cachedFetch parse stringify g key force tCheck tStore
                 DataService.FetchFailed e))
       = DataService.storage e
    /\ DataService.updates
         (snd (DataService.cachedFetch parse stringify g key force tCheck tStore
                 DataService.FetchFailed e))
       = DataService.updates e.
Proof.
  intros parse stringify g key force tCheck tStore e H.
  destruct (cachedFetch_result_env parse stringify g key force tCheck tStore
              DataService.FetchFailed e H) as (_ & F & S & U).
  auto.
Qed.

Lemma failed_request_falls_back_witness :
  fst (DataService.getUserSummary plainParse plainStringify "u@example.com"
         false 0 0 DataService.FetchFailed emptyEnv)
  = DataService.JObj
      [("total_receipts", DataService.JNum 0); ("total_spent", DataService.JNum 0);
       ("categories_count", DataService.JNum 0);
       ("average_per_receipt", DataService.JNum 0);
       ("last_receipt_date", DataService.JStr "")].
Proof.
  exact (proj1 (failed_request_falls_back plainParse plainStringify
                  DataService.summaryGetter
                  (DataService.userKey "raseed_user_summary" "u@example.com")
                  false 0 0 emptyEnv (or_introl eq_refl))).
Defined.

(** X19: a time stamp that [parseInt] cannot read never expires.  If the
    stamp stored for a key is a non-empty text without leading digits, the
    entry is fresh at every time, and an unforced call serves the stored
    value without a request for ever. *)
Theorem unreadable_timestamp_never_expires :
  forall (parse : string -> option DataService.Json)
         (stringify : DataService.Json -> string) (g : DataService.Getter)
         (key stamp : string) (t t2 : Z) (r : DataService.FetchResult)
         (e : DataService.Env) (j : DataService.Json),
    DataService.getItem (DataService.timestampKey key) (DataService.storage e)
      = Some stamp ->
    stamp <> "" -> DataService.parseInt stamp = None ->
    usable parse key e = Some j ->
    DataService.isDataStale key t e = false
    /\ DataService.cachedFetch parse stringify g key false t t2 r e
       = (j, DataService.logWrite LLog (DataService.cachedText g) e).
Proof.
  intros parse stringify g key stamp t t2 r e j Hs Hne Hp Hu.
  assert (Hst : DataService.isDataStale key t e = false).
  { unfold DataService.isDataStale. rewrite Hs. apply String.eqb_neq in Hne.
    rewrite Hne, Hp. reflexivity. }
  split; [exact Hst|]. apply cachedFetch_hit; [|exact Hu].
  unfold mustFetch. cbn [orb]. exact Hst.
Qed.

Lemma unreadable_timestamp_never_expires_witness :
  DataService.isDataStale "k" 99999999999999 brokenStampEnv = false.
Proof.
  assert (H : "yesterday" <> "") by discriminate.
  exact (proj1 (unreadable_timestamp_never_expires plainParse plainStringify
                  DataService.summaryGetter "k" "yesterday" 99999999999999 0
                  DataService.FetchFailed brokenStampEnv
                  (DataService.JStr "summary") eq_refl H eq_refl eq_refl)).
Defined.

(** ** [clearUserCache] *)

Lemma fold_remove_get : forall userId keys st k,
  DataService.getItem k
    (fold_left (fun st key =>
                  DataService.removeItem
                    (DataService.timestampKey (DataService.userKey key userId))
                    (DataService.removeItem (DataService.userKey key userId) st))
               keys st)
  = if existsb (fun key =>
                  (DataService.userKey key userId =? k)%string
                  || (DataService.timestampKey (DataService.userKey key userId) =? k)%string)
               keys
    then None else DataService.getItem k st.
Proof.
  intros userId keys. induction keys as [|key keys IH]; intros st k; [reflexivity|].
  cbn [fold_left existsb]. rewrite IH.
  destruct (existsb _ keys); [rewrite orb_true_r; reflexivity|].
  rewrite orb_false_r.
  destruct (DataService.userKey key userId =? k)%string eqn:E1; cbn [orb].
  - apply String.eqb_eq in E1. subst k.
    rewrite getItem_removeItem_other by apply timestampKey_neq.
    apply getItem_removeItem_same.
  - destruct (DataService.timestampKey (DataService.userKey key userId) =? k)%string
      eqn:E2.
    + apply String.eqb_eq in E2. subst k. apply getItem_removeItem_same.
    + apply String.eqb_neq in E1, E2.
      rewrite getItem_removeItem_other by exact E2.
      apply getItem_removeItem_other. exact E1.
Qed.

(** X20: [clearUserCache] removes, for each of the six storage keys, the
    user's entry and its time stamp, so each of them is stale afterwards and
    the next call fetches; every other entry of [localStorage] keeps its
    value, among them the categories, which are stored without a user id. *)
Theorem clearUserCache_scope :
  forall (userId : string) (e : DataService.Env),
    (forall key t, In key DataService.STORAGE_KEYS ->
       DataService.getItem (DataService.userKey key userId)
         (DataService.storage (DataService.clearUserCache userId e)) = None
       /\ DataService.isDataStale (DataService.userKey key userId) t
            (DataService.clearUserCache userId e) = true)
    /\ (forall k, clearedKey userId k = false ->
          DataService.getItem k (DataService.storage (DataService.clearUserCache userId e))
          = DataService.getItem k (DataService.storage e))
    /\ DataService.getItem "raseed_categories"
         (DataService.storage (DataService.clearUserCache userId e))
       = DataService.getItem "raseed_categories" (DataService.storage e).
Proof.
  intros userId e.
  assert (Hget : forall k,
            DataService.getItem k (DataService.storage (DataService.clearUserCache userId e))
            = if clearedKey userId k then None
              else DataService.getItem k (DataService.storage e)).
  { intro k. unfold DataService.clearUserCache, clearedKey.
    cbn [DataService.storage DataService.logWrite DataService.setStorage].
    apply fold_remove_get. }
  split; [|split].
  - intros key t Hin.
    assert (H1 : clearedKey userId (DataService.userKey key userId) = true).
    { unfold clearedKey. apply existsb_exists. exists key. split; [exact Hin|].
      rewrite String.eqb_refl. reflexivity. }
    assert (H2 : clearedKey userId
                   (DataService.timestampKey (DataService.userKey key userId)) = true).
    { unfold clearedKey. apply existsb_exists. exists key. split; [exact Hin|].
      rewrite String.eqb_refl. apply orb_true_r. }
    split; [rewrite Hget, H1; reflexivity|].
    unfold DataService.isDataStale. rewrite Hget, H2. reflexivity.
  - intros k Hk. rewrite Hget, Hk. reflexivity.
  - rewrite Hget.
    assert (Hc : clearedKey userId "raseed_categories" = false) by reflexivity.
    rewrite Hc. reflexivity.
Qed.

Lemma clearUserCache_scope_witness :
  DataService.getItem "raseed_user_summary_b@x.y"
    (DataService.storage (DataService.clearUserCache "a@x.y" twoUsersEnv))
  = Some "B".
Proof.
  exact (proj1 (proj2 (clearUserCache_scope "a@x.y" twoUsersEnv))
           "raseed_user_summary_b@x.y" eq_refl).
Defined.
